(** * amset.scattering.basic: basic scattering mechanisms

    A shallow embedding of [src/amset/scattering/basic.py]: the three
    mechanisms [ConstantRelaxationTime], [MeanFreePathScattering] and
    [BrooksHerringScattering], their base class, and the two helpers
    [get_normalized_energies] and [get_dos_effective_masses].

    Modelling choices.
    - A numpy array is a nested list, the outermost list being axis 0; a
      dict is a [gmap]; an index array is a [list nat] (the dataset's index
      arrays hold no negative index).
    - A Python exception is a value of [exn]; a computation that may raise
      has type [result A].  Lookups raise [KeyError] and [IndexError],
      operands that cannot be broadcast raise [ValueError], the division
      of two Python scalars raises [ZeroDivisionError], and the power of a
      Python float raises [OverflowError] when the result of a finite
      operand is an infinity; numpy's own division and power do not raise.
    - Material properties are Python floats.
    - float64 arithmetic is an interface ([Float64]): the embedding uses
      only the operations the source uses, so what is proved about indices,
      shapes, broadcasting and the order of the operations holds for
      whatever carrier implements them.  Two carriers are given: binary64
      itself (the kernel's [float], specified by [Prim2SF]) and exact real
      arithmetic ([R]).  Signs, band edges and the worked numbers of
      [MeanFreePathScattering] and [get_normalized_energies] are proved in
      binary64; [R] serves the worked number of
      [get_dos_effective_masses], whose power function is libm's.
    - What the module imports and [src/] does not contain (libm's [log] and
      [power] behind numpy, the unit constants, the screening calculation)
      is the class [Externals]. *)

From stdpp Require Import gmap strings list fin_maps.
From Stdlib Require Import Reals Lra Floats.

Open Scope string_scope.

(** ** Python values *)

(** pymatgen's [Spin] enum. *)
Inductive Spin := up | down.

Global Instance Spin_eq_dec : EqDecision Spin.
Proof. solve_decision. Defined.

Global Instance Spin_countable : Countable Spin.
Proof.
  refine (inj_countable' (λ s, match s with up => true | down => false end)
                         (λ b : bool, if b then up else down) _).
  by intros [].
Defined.

(** A dict key: the module indexes dicts by property names and by spins. *)
Inductive pykey := KStr (s : string) | KSpin (s : Spin).

(** The exceptions the Python and numpy runtimes raise in this module. *)
Inductive exn :=
| KeyError (k : pykey)
| ZeroDivisionError
| IndexError
| ValueError
| OverflowError.

(** The class name of an exception, as [type(e).__name__]. *)
Definition exn_name (e : exn) : string :=
  match e with
  | KeyError _ => "KeyError"
  | ZeroDivisionError => "ZeroDivisionError"
  | IndexError => "IndexError"
  | ValueError => "ValueError"
  | OverflowError => "OverflowError"
  end.

Inductive result (A : Type) : Type :=
| Ok (a : A)
| Raise (e : exn).
Arguments Ok {A} a.
Arguments Raise {A} e.

Global Instance result_ret : MRet result := @Ok.
Global Instance result_bind : MBind result :=
  λ A B f m, match m with Ok a => f a | Raise e => Raise e end.

(** [[f(x) for x in l]], stopping at the first exception. *)
Fixpoint traverse {A B} (f : A → result B) (l : list A) : result (list B) :=
  match l with
  | [] => Ok []
  | x :: l' => y ← f x; ys ← traverse f l'; Ok (y :: ys)
  end.

(** A [for] loop threading its state. *)
Fixpoint foldM {A S} (f : S → A → result S) (s : S) (l : list A) : result S :=
  match l with
  | [] => Ok s
  | x :: l' => s' ← f s x; foldM f s' l'
  end.

(** [d[k]] on a dict. *)
Definition dict_get `{Countable K} {V} (key : K → pykey) (d : gmap K V) (k : K)
  : result V :=
  match d !! k with
  | Some v => Ok v
  | None => Raise (KeyError (key k))
  end.

(** [{k: f(k) for k in keys}]. *)
Definition dict_comp `{Countable K} {V} (f : K → result V) (keys : list K)
  : result (gmap K V) :=
  foldM (λ m k, v ← f k; Ok (<[k := v]> m)) ∅ keys.

(** [l[i]] on a sequence, for an index that is not negative. *)
Definition getitem {A} (l : list A) (i : nat) : result A :=
  match l !! i with
  | Some x => Ok x
  | None => Raise IndexError
  end.

(** ** Arrays *)

Abbreviation array2 F := (list (list F)).
Abbreviation array3 F := (list (list (list F))).
Abbreviation array4 F := (list (list (list (list F)))).

(** [a[..., idx]] on the last axis. *)
Definition take_idx {A} (idx : list nat) (row : list A) : result (list A) :=
  traverse (getitem row) idx.

Definition take_idx2 {A} (idx : list nat) (a : array2 A) : result (array2 A) :=
  traverse (take_idx idx) a.

Definition take_idx4 {A} (idx : list nat) (a : array4 A) : result (array4 A) :=
  traverse (traverse (traverse (take_idx idx))) a.

(** [a.shape] of a two-dimensional array. *)
Definition np_shape2 {A} (a : array2 A) : nat * nat :=
  (length a, length (hd [] a)).

(** [np.full(shape, x)] for a shape of four axes. *)
Definition np_full4 {A} (sh : nat * nat * nat * nat) (x : A) : array4 A :=
  let '(a, b, c, d) := sh in
  replicate a (replicate b (replicate c (replicate d x))).

(** [np.tile(v, (n, m, 1, 1))] for a two-dimensional [v]. *)
Definition np_tile2 {A} (n m : nat) (v : array2 A) : array4 A :=
  replicate n (replicate m v).

(** [np.ndindex(shape)] for a shape of two axes, in its row-major order. *)
Definition np_ndindex (sh : nat * nat) : list (nat * nat) :=
  n ← seq 0 sh.1; (λ t, (n, t)) <$> seq 0 sh.2.

(** [f(i) for i in range(n)]. *)
Definition tab {A} (n : nat) (f : nat → A) : list A := f <$> seq 0 n.

(** Rectangular arrays. *)
Definition shape2 {A} (n m : nat) (a : array2 A) : Prop :=
  length a = n ∧ Forall (λ r, length r = m) a.
Definition shape3 {A} (n m p : nat) (a : array3 A) : Prop :=
  length a = n ∧ Forall (shape2 m p) a.
Definition shape4 {A} (n m p q : nat) (a : array4 A) : Prop :=
  length a = n ∧ Forall (shape3 m p q) a.

(** [a[n, t]] and [a[n, t, b, k]], [None] out of range. *)
Definition ix2 {A} (a : array2 A) (n t : nat) : option A :=
  r ← a !! n; r !! t.
Definition ix4 {A} (a : array4 A) (n t b k : nat) : option A :=
  x ← a !! n; y ← x !! t; z ← y !! b; z !! k.

(** ** float64 *)

(** The float64 operations the module uses.  [of_int] is the conversion of
    an integer literal meeting a float; [lit_0_005] and [lit_1e_8] are the
    literals [0.005] and [1e-8]; [feqb] and [fltb] are [==] and [<]. *)
Class Float64 (F : Type) := {
  of_int : Z → F;
  lit_0_005 : F;
  lit_1e_8 : F;
  np_pi : F;
  fadd : F → F → F;
  fsub : F → F → F;
  fmul : F → F → F;
  fdiv : F → F → F;
  fabs : F → F;
  fsqrt : F → F;
  feqb : F → F → bool;
  fltb : F → F → bool;
  fisnan : F → bool;
  fisnan_zero : fisnan (of_int 0) = false;
}.

(** Python's [a / b] on scalars. *)
Definition py_truediv `{Float64 F} (a b : F) : result F :=
  if feqb b (of_int 0) then Raise ZeroDivisionError else Ok (fdiv a b).

(** [math.isfinite] and [math.isinf], from the operations of the class:
    [x - x] is NaN exactly when [x] is an infinity or NaN. *)
Definition fisfinite `{Float64 F} (x : F) : bool := negb (fisnan (fsub x x)).
Definition fisinf `{Float64 F} (x : F) : bool :=
  negb (fisnan x) && fisnan (fsub x x).

(** ** The dataset *)

(** [AmsetData], the fields [basic.py] reads.  Per spin: [energies] and
    [c_factor] have shape (nbands, nkpoints), [velocities_product] and
    [effective_mass] have shape (nbands, 3, 3, nkpoints). *)
Record AmsetData (F : Type) := {
  spins : list Spin;
  energies : gmap Spin (array2 F);
  velocities_product : gmap Spin (array4 F);
  effective_mass : gmap Spin (array4 F);
  c_factor : gmap Spin (array2 F);
  fermi_levels : array2 F;
  doping : list F;
  temperatures : list F;
  electron_conc : array2 F;
  hole_conc : array2 F;
  ir_kpoints_idx : list nat;
  ir_to_full_kpoint_mapping : list nat;
  is_metal : bool;
  vb_idx : gmap Spin nat;
  intrinsic_fermi_level : F;
}.
Arguments spins {F} _.
Arguments energies {F} _.
Arguments velocities_product {F} _.
Arguments effective_mass {F} _.
Arguments c_factor {F} _.
Arguments fermi_levels {F} _.
Arguments doping {F} _.
Arguments temperatures {F} _.
Arguments electron_conc {F} _.
Arguments hole_conc {F} _.
Arguments ir_kpoints_idx {F} _.
Arguments ir_to_full_kpoint_mapping {F} _.
Arguments is_metal {F} _.
Arguments vb_idx {F} _.
Arguments intrinsic_fermi_level {F} _.

(** What [basic.py] imports: libm through numpy, the unit constants of
    [amset.constants] and [BoltzTraP2.units], and the screening calculation
    of [amset.scattering.elastic]. *)
Class Externals (F : Type) := {
  np_log : F → F;
  np_power : F → F → F;
  Second : F;
  nm_to_bohr : F;
  calculate_inverse_screening_length_sq : AmsetData F → F → array2 F;
}.

(** The state of a mechanism after construction. *)
Record BasicScattering (F : Type) := {
  properties : gmap string F;
  self_doping : list F;
  self_temperatures : list F;
  nbands : gmap Spin nat;
  self_spins : list Spin;
  rates : gmap Spin (array4 F);
}.
Arguments properties {F} _.
Arguments self_doping {F} _.
Arguments self_temperatures {F} _.
Arguments nbands {F} _.
Arguments self_spins {F} _.
Arguments rates {F} _.

Definition set_rates {F} (self : BasicScattering F) (r : gmap Spin (array4 F))
  : BasicScattering F :=
  {| properties := properties self;
     self_doping := self_doping self;
     self_temperatures := self_temperatures self;
     nbands := nbands self;
     self_spins := self_spins self;
     rates := r |}.

(** The concrete subclasses of [AbstractBasicScattering]. *)
Inductive mechanism := CRT | MFP | IMP.

Definition name (m : mechanism) : string :=
  match m with CRT => "CRT" | MFP => "MFP" | IMP => "IMP" end.

Definition required_properties (m : mechanism) : list string :=
  match m with
  | CRT => ["constant_relaxation_time"]
  | MFP => ["mean_free_path"]
  | IMP => ["acceptor_charge"; "donor_charge"; "static_dielectric"]
  end.

(** ** numpy operations *)

Section numpy.
Context {F : Type} `{Float64 F}.

Global Instance float64_inhabited : Inhabited F := populate (of_int 0).

Definition arr2_map {A B} (f : A → B) (a : array2 A) : array2 B :=
  (λ r : list A, f <$> r) <$> a.
Definition arr3_map {A B} (f : A → B) (a : array3 A) : array3 B :=
  arr2_map f <$> a.
Definition arr4_map {A B} (f : A → B) (a : array4 A) : array4 B :=
  arr3_map f <$> a.

(** One axis of numpy's broadcasting of two operands of the same rank:
    equal lengths pair up, a length of one is stretched, anything else is
    "operands could not be broadcast together". *)
Definition bzip {A B C} (f : A → B → result C) (la : list A) (lb : list B)
  : result (list C) :=
  match la, lb with
  | [x], _ => traverse (f x) lb
  | _, [y] => traverse (λ x, f x y) la
  | _, _ =>
      if decide (length la = length lb)
      then traverse (λ p, f p.1 p.2) (zip la lb)
      else Raise ValueError
  end.

(** An elementwise binary operation on two arrays of four axes. *)
Definition bmap4 (f : F → F → F) (a b : array4 F) : result (array4 F) :=
  bzip (bzip (bzip (bzip (λ x y, Ok (f x y))))) a b.

(** The same on operands that may already have raised. *)
Definition lift4 (f : F → F → F) (ra rb : result (array4 F))
  : result (array4 F) :=
  a ← ra; b ← rb; bmap4 f a b.
Definition map4r (f : F → F) (ra : result (array4 F)) : result (array4 F) :=
  a ← ra; Ok (arr4_map f a).

(** One axis of a boolean-mask assignment: the mask must have the shape of
    the array ("boolean index did not match indexed array"). *)
Definition mzip {A B C} (f : A → B → result C) (la : list A) (lb : list B)
  : result (list C) :=
  if decide (length la = length lb)
  then traverse (λ p, f p.1 p.2) (zip la lb)
  else Raise IndexError.

(** [a[mask] = x]. *)
Definition mask_set4 (mask : array4 bool) (x : F) (a : array4 F)
  : result (array4 F) :=
  mzip (mzip (mzip (mzip (λ m y, Ok (if m : bool then x else y))))) mask a.

(** [np.add.reduce] and [np.multiply.reduce] along a short axis. *)
Definition add_reduce (l : list F) : F :=
  match l with
  | [] => of_int 0
  | x :: r => foldl fadd x r
  end.
Definition multiply_reduce (l : list F) : F :=
  match l with
  | [] => of_int 1
  | x :: r => foldl fmul x r
  end.

(** [np.maximum] and [np.minimum]: a NaN operand is returned.  Of two
    operands that compare equal, +0.0 and -0.0, numpy may return either,
    depending on its build; the model returns the first.  What is proved
    below uses only that the result is one of the operands and, without
    NaN, not below (not above) either. *)
Definition np_maximum (a b : F) : F :=
  if fisnan a then a else if fisnan b then b
  else if fltb a b then b else a.
Definition np_minimum (a b : F) : F :=
  if fisnan a then a else if fisnan b then b
  else if fltb b a then b else a.

(** [np.max] and [np.min] of the elements of an array; a zero-size array
    has no maximum. *)
Definition np_max (l : list F) : result F :=
  match l with
  | [] => Raise ValueError
  | x :: r => Ok (foldl np_maximum x r)
  end.
Definition np_min (l : list F) : result F :=
  match l with
  | [] => Raise ValueError
  | x :: r => Ok (foldl np_minimum x r)
  end.

(** The diagonal of one band's (3, 3, nk) block over its first two axes:
    the rows [m[i][i]], each still indexed by k-point. *)
Definition diag_entries {A} (m : array2 A) : list A :=
  omap (λ x, x) (imap (λ i (row : list A), row !! i) m).

(** [np.diagonal(a, axis1=1, axis2=2)] on shape (nb, 3, 3, nk): the
    diagonal becomes the last axis, giving shape (nb, nk, 3). *)
Definition np_diagonal12 {A} (nk : nat) (a : array4 A) : array3 A :=
  (λ m, tab nk (λ k, omap (λ row : list A, row !! k) (diag_entries m))) <$> a.

(** [np.linalg.norm(v, axis=2)]: [sqrt(add.reduce(v * v, axis=2))]. *)
Definition norm_axis2 (v : array3 F) : array2 F :=
  arr2_map (λ x, fsqrt (add_reduce ((λ c, fmul c c) <$> x))) v.

(** [v[v < 0.005] = 0.005]. *)
Definition clamp_velocity (v : F) : F :=
  if fltb v lit_0_005 then lit_0_005 else v.

(** [a[n, t]] read and written, [a] two-dimensional. *)
Definition getitem2 {A} (a : array2 A) (n t : nat) : result A :=
  r ← getitem a n; getitem r t.
Definition setitem2 {A} (a : array2 A) (n t : nat) (x : A)
  : result (array2 A) :=
  _ ← getitem2 a n t; Ok (alter (λ r, <[t := x]> r) n a).

(** [a[n, t] = m] for an array of four axes and a block [m] of the shape
    of [a[n, t]]. *)
Definition setblock (a : array4 F) (n t : nat) (m : array2 F) : array4 F :=
  alter (λ r, <[t := m]> r) n a.

(** [np.empty(shape)]: the contents are arbitrary; every reader below
    overwrites them first. *)
Definition np_empty4 (sh : nat * nat * nat * nat) : array4 F :=
  np_full4 sh (of_int 0).

(** [np.zeros(shape)] for two axes. *)
Definition np_zeros2 (sh : nat * nat) : array2 F :=
  replicate sh.1 (replicate sh.2 (of_int 0)).
End numpy.

(** ** basic.py *)

Section basic.
Context {F : Type} `{Float64 F} `{Externals F}.

(** [AbstractBasicScattering.__init__], with the subclass's
    [required_properties]. *)
Definition AbstractBasicScattering_init (required : list string)
    (materials_properties : gmap string F) (amset_data : AmsetData F)
  : result (BasicScattering F) :=
  props ← dict_comp (dict_get KStr materials_properties) required;
  nb ← dict_comp (λ s, e ← dict_get KSpin (energies amset_data) s;
                       Ok (length e)) (spins amset_data);
  Ok {| properties := props;
        self_doping := doping amset_data;
        self_temperatures := temperatures amset_data;
        nbands := nb;
        self_spins := spins amset_data;
        rates := ∅ |}.

(** [ConstantRelaxationTime.__init__]. *)
Definition ConstantRelaxationTime_init
    (materials_properties : gmap string F) (amset_data : AmsetData F)
  : result (BasicScattering F) :=
  self ← AbstractBasicScattering_init (required_properties CRT)
           materials_properties amset_data;
  tau ← dict_get KStr (properties self) "constant_relaxation_time";
  rate ← py_truediv (of_int 1) tau;
  shape ← dict_comp
    (λ s, e ← dict_get KSpin (energies amset_data) s;
          Ok (np_shape2 (fermi_levels amset_data), np_shape2 e))
    (self_spins self);
  _rates ← dict_comp
    (λ s, sh ← dict_get KSpin shape s;
          Ok (np_full4 (sh.1.1, sh.1.2, sh.2.1, sh.2.2) rate))
    (self_spins self);
  Ok (set_rates self _rates).

(** Lines 69-71 and 151-153: the velocity magnitude per band and
    irreducible k-point, before any rescaling or clamping. *)
Definition velocity_norms (amset_data : AmsetData F) (spin : Spin)
  : result (array2 F) :=
  vp ← dict_get KSpin (velocities_product amset_data) spin;
  vvelocities ← take_idx4 (ir_kpoints_idx amset_data) vp;
  let v := arr3_map fsqrt
             (np_diagonal12 (length (ir_kpoints_idx amset_data))
                            vvelocities) in
  Ok (norm_axis2 v).

(** The rates of [MeanFreePathScattering] on the irreducible k-points
    (line 75). *)
Definition mfp_ir_rates (self : BasicScattering F) (mfp : F)
    (amset_data : AmsetData F) (spin : Spin) : result (array4 F) :=
  v ← velocity_norms amset_data spin;
  let v := arr2_map clamp_velocity v in
  let velocities := np_tile2 (length (self_doping self))
                             (length (self_temperatures self)) v in
  Ok (arr4_map (λ x, fdiv (fmul x Second) mfp) velocities).

(** [MeanFreePathScattering.__init__]. *)
Definition MeanFreePathScattering_init
    (materials_properties : gmap string F) (amset_data : AmsetData F)
  : result (BasicScattering F) :=
  self ← AbstractBasicScattering_init (required_properties MFP)
           materials_properties amset_data;
  mean_free_path ← dict_get KStr (properties self) "mean_free_path";
  let mfp := fmul mean_free_path nm_to_bohr in
  _rates ← dict_comp
    (λ spin, r ← mfp_ir_rates self mfp amset_data spin;
             take_idx4 (ir_to_full_kpoint_mapping amset_data) r)
    (self_spins self);
  Ok (set_rates self _rates).

(** [get_normalized_energies]. *)
Definition fill_blocks (a : array4 F) (sh : nat * nat) (m : array2 F)
  : array4 F :=
  foldl (λ a nt, setblock a nt.1 nt.2 m) a (np_ndindex sh).

Definition valence_max (amset_data : AmsetData F) (s : Spin) : result F :=
  e ← dict_get KSpin (energies amset_data) s;
  vb ← dict_get KSpin (vb_idx amset_data) s;
  np_max (concat (take (vb + 1) e)).

Definition conduction_min (amset_data : AmsetData F) (s : Spin) : result F :=
  e ← dict_get KSpin (energies amset_data) s;
  vb ← dict_get KSpin (vb_idx amset_data) s;
  np_min (concat (drop (vb + 1) e)).

Definition vbm_e (amset_data : AmsetData F) : result F :=
  l ← traverse (valence_max amset_data) (spins amset_data); np_max l.

Definition cbm_e (amset_data : AmsetData F) : result F :=
  l ← traverse (conduction_min amset_data) (spins amset_data); np_min l.

Definition get_normalized_energies (amset_data : AmsetData F)
  : result (gmap Spin (array4 F)) :=
  let fermi_shape := np_shape2 (fermi_levels amset_data) in
  let ir_kpoints_idx := ir_kpoints_idx amset_data in
  energies0 ← dict_comp
    (λ spin, e ← dict_get KSpin (energies amset_data) spin;
             Ok (np_empty4 (fermi_shape.1, fermi_shape.2,
                            length e, length ir_kpoints_idx)))
    (spins amset_data);
  if is_metal amset_data then
    foldM (λ energies_ spin,
             e ← dict_get KSpin (energies amset_data) spin;
             spin_energies ← take_idx2 ir_kpoints_idx e;
             a ← dict_get KSpin energies_ spin;
             Ok (<[spin := fill_blocks a fermi_shape
                   (arr2_map (λ x, fabs (fsub x
                      (intrinsic_fermi_level amset_data))) spin_energies)]>
                 energies_))
          energies0 (spins amset_data)
  else
    vbm ← vbm_e amset_data;
    cbm ← cbm_e amset_data;
    foldM (λ energies_ spin,
             e ← dict_get KSpin (energies amset_data) spin;
             spin_energies ← take_idx2 ir_kpoints_idx e;
             vb ← dict_get KSpin (vb_idx amset_data) spin;
             let spin_energies :=
               (arr2_map (λ x, fsub vbm x) (take (vb + 1) spin_energies)
                ++ arr2_map (λ x, fsub x cbm)
                     (drop (vb + 1) spin_energies))%list in
             a ← dict_get KSpin energies_ spin;
             Ok (<[spin := fill_blocks a fermi_shape spin_energies]>
                 energies_))
          energies0 (spins amset_data).

(** [get_dos_effective_masses]. *)
Definition get_dos_effective_masses (amset_data : AmsetData F)
  : result (gmap Spin (array2 F)) :=
  dict_comp
    (λ spin,
       em ← dict_get KSpin (effective_mass amset_data) spin;
       spin_masses ← take_idx4 (ir_kpoints_idx amset_data) em;
       let masses_eig :=
         np_diagonal12 (length (ir_kpoints_idx amset_data)) spin_masses in
       let masses_abs := arr3_map fabs masses_eig in
       Ok (arr2_map (λ m, np_power (multiply_reduce m)
                                   (fdiv (of_int 1) (of_int 3)))
                    masses_abs))
    (spins amset_data).
End basic.

(** ** Brooks-Herring *)

Section brooks_herring.
Context {F : Type} `{Float64 F} `{Externals F}.

(** [x ** n] for an integer literal [n], on numpy's values: the C
    library's [pow], which does not raise. *)
Definition pow_int (x : F) (n : Z) : F := np_power x (of_int n).

(** [x ** n] for a Python float [x] and a positive integer literal [n]:
    the same [pow], but Python raises [OverflowError] when the result of a
    finite [x] is an infinity. *)
Definition py_pow_overflows (x : F) (n : Z) : bool :=
  fisfinite x && fisinf (pow_int x n).
Definition py_pow (x : F) (n : Z) : result F :=
  if py_pow_overflows x n then Raise OverflowError else Ok (pow_int x n).

(** The closed form at one entry, with the source's association.
    [s] is the inverse screening length squared, [c] the polarisation
    factor. *)
Definition bh_d_factor (s c k_sq : F) : F :=
  fadd (fadd (of_int 1)
             (fdiv (fmul (fmul (of_int 2) s) (pow_int c 2)) k_sq))
       (fdiv (fmul (fmul (of_int 3) (pow_int s 2)) (pow_int c 4))
             (fmul (of_int 4) (pow_int k_sq 2))).

Definition bh_b_factor (s c k_sq : F) : F :=
  fadd (fadd
          (fdiv (fdiv (fmul (of_int 4) k_sq) s)
                (fadd (of_int 1) (fdiv (fmul (of_int 4) k_sq) s)))
          (fdiv (fmul (fmul (of_int 8) (pow_int c 2))
                      (fadd s (fmul (of_int 2) k_sq)))
                (fadd s (fmul (of_int 4) k_sq))))
       (fdiv (fmul (pow_int c 4)
                   (fsub (fadd (fmul (of_int 3) (pow_int s 2))
                               (fmul (fmul (of_int 6) s) k_sq))
                         (fmul (of_int 8) (pow_int k_sq 2))))
             (fmul (fadd s (fmul (of_int 4) k_sq)) k_sq)).

Definition bh_b (s k_sq : F) : F := fdiv (fmul (of_int 4) k_sq) s.

Definition bh_rate (prefactor s c velocity k_sq : F) : F :=
  fdiv (fmul prefactor
             (fsub (fmul (bh_d_factor s c k_sq)
                         (np_log (fadd (of_int 1) (bh_b s k_sq))))
                   (bh_b_factor s c k_sq)))
       (fmul velocity k_sq).

(** Lines 105-108 and 132-138 at one (doping, temperature). *)
Definition bh_impurity (n_conc p_conc donor acceptor : F) : F :=
  fadd (fmul (fabs n_conc) (pow_int donor 2))
       (fmul (fabs p_conc) (pow_int acceptor 2)).

Definition bh_prefactor (impurity static_dielectric : F) : F :=
  fdiv (fmul (fmul (fmul impurity (of_int 8)) np_pi) Second)
       (pow_int static_dielectric 2).

(** [a[..., None, None]] (and [a[:, :, None, None]]) for two axes. *)
Definition expand_dims2 (a : array2 F) : array4 F :=
  arr2_map (λ x, [[x]]) a.

Local Abbreviation add4 := (lift4 fadd).
Local Abbreviation sub4 := (lift4 fsub).
Local Abbreviation mul4 := (lift4 fmul).
Local Abbreviation div4 := (lift4 fdiv).
(** An integer literal times or plus an array, and [a ** n]. *)
Local Abbreviation smul4 k a := (map4r (fmul (of_int k)) a).
Local Abbreviation sadd4 k a := (map4r (fadd (of_int k)) a).
Local Abbreviation pow4 a n := (map4r (λ x, pow_int x n) a).

(** The loop of lines 101-116: the impurity concentration, and the
    indexing the log line does.  The squares of the two charges are
    Python's, taken anew in every iteration; the products and the sum are
    numpy's.  ([(1 / bohr_to_cm) ** 3] in the log line is a constant of
    [amset.constants].) *)
Definition bh_impurity_concentration (self : BasicScattering F)
    (amset_data : AmsetData F)
    (inverse_screening_length_sq : array2 F) : result (array2 F) :=
  foldM
    (λ impurity_concentration nt,
       let '(n, t) := nt in
       n_conc ← getitem2 (electron_conc amset_data) n t;
       p_conc ← getitem2 (hole_conc amset_data) n t;
       donor ← dict_get KStr (properties self) "donor_charge";
       donor_sq ← py_pow donor 2;
       acceptor ← dict_get KStr (properties self) "acceptor_charge";
       acceptor_sq ← py_pow acceptor 2;
       imp ← setitem2 impurity_concentration n t
               (fadd (fmul (fabs n_conc) donor_sq)
                     (fmul (fabs p_conc) acceptor_sq));
       _ ← getitem (doping amset_data) n;
       _ ← getitem (temperatures amset_data) t;
       Ok imp)
    (np_zeros2 (np_shape2 (fermi_levels amset_data)))
    (np_ndindex (np_shape2 inverse_screening_length_sq)).

(** Lines 144-183 for one spin: the normalized energies read, and the
    rates before the edge cases are zeroed. *)
Definition bh_raw_rates (self : BasicScattering F)
    (amset_data : AmsetData F)
    (prefactor screening : array4 F)
    (normalized_energies : gmap Spin (array4 F))
    (dos_effective_masses : gmap Spin (array2 F)) (spin : Spin)
  : result (array4 F * array4 F) :=
  let nd := length (self_doping self) in
  let nt := length (self_temperatures self) in
  dm ← dict_get KSpin dos_effective_masses spin;
  let masses := np_tile2 nd nt dm in
  energies ← dict_get KSpin normalized_energies spin;
  k_sq ← mul4 (smul4 2 (Ok masses)) (Ok energies);
  v ← velocity_norms amset_data spin;
  let v := arr2_map (λ x, fdiv x (fsqrt (of_int 3))) v in
  let v := arr2_map clamp_velocity v in
  let velocities := np_tile2 nd nt v in
  cf ← dict_get KSpin (c_factor amset_data) spin;
  cf_ir ← take_idx2 (ir_kpoints_idx amset_data) cf;
  let c := Ok (np_tile2 nd nt cf_ir) in
  let screening := Ok screening in
  let k_sq := Ok k_sq in
  d_factor ←
    add4 (sadd4 1 (div4 (mul4 (smul4 2 screening) (pow4 c 2)) k_sq))
         (div4 (mul4 (smul4 3 (pow4 screening 2)) (pow4 c 4))
               (smul4 4 (pow4 k_sq 2)));
  b_factor ←
    add4 (add4
            (div4 (div4 (smul4 4 k_sq) screening)
                  (sadd4 1 (div4 (smul4 4 k_sq) screening)))
            (div4 (mul4 (smul4 8 (pow4 c 2))
                        (add4 screening (smul4 2 k_sq)))
                  (add4 screening (smul4 4 k_sq))))
         (div4 (mul4 (pow4 c 4)
                     (sub4 (add4 (smul4 3 (pow4 screening 2))
                                 (mul4 (smul4 6 screening) k_sq))
                           (smul4 8 (pow4 k_sq 2))))
               (mul4 (add4 screening (smul4 4 k_sq)) k_sq));
  b ← div4 (smul4 4 k_sq) screening;
  r ← div4 (mul4 (Ok prefactor)
                 (sub4 (mul4 (Ok d_factor) (map4r np_log (sadd4 1 (Ok b))))
                       (Ok b_factor)))
           (mul4 (Ok velocities) k_sq);
  Ok (energies, r).

(** Lines 186-187: the edge cases. *)
Definition bh_zero_edge_cases (energies r : array4 F) : result (array4 F) :=
  r ← mask_set4 (arr4_map fisnan r) (of_int 0) r;
  mask_set4 (arr4_map (λ e, fltb e lit_1e_8) energies) (of_int 0) r.

(** The rates on the irreducible k-points, edge cases zeroed. *)
Definition bh_ir_rates (self : BasicScattering F)
    (amset_data : AmsetData F)
    (prefactor screening : array4 F)
    (normalized_energies : gmap Spin (array4 F))
    (dos_effective_masses : gmap Spin (array2 F)) (spin : Spin)
  : result (array4 F) :=
  er ← bh_raw_rates self amset_data prefactor screening
         normalized_energies dos_effective_masses spin;
  bh_zero_edge_cases er.1 er.2.

(** What [__init__] computes before its loop over the spins. *)
Record bh_setup := {
  bh_self : BasicScattering F;
  bh_inverse_screening_length_sq : array2 F;
  bh_impurity_conc : array2 F;
  bh_normalized_energies : gmap Spin (array4 F);
  bh_dos_effective_masses : gmap Spin (array2 F);
  bh_screening : array4 F;
  bh_prefactor4 : array4 F;
}.

Definition BrooksHerringScattering_setup
    (materials_properties : gmap string F) (amset_data : AmsetData F)
  : result bh_setup :=
  self ← AbstractBasicScattering_init (required_properties IMP)
           materials_properties amset_data;
  static_dielectric ← dict_get KStr (properties self) "static_dielectric";
  let inverse_screening_length_sq :=
    calculate_inverse_screening_length_sq amset_data static_dielectric in
  impurity_concentration ←
    bh_impurity_concentration self amset_data inverse_screening_length_sq;
  normalized_energies ← get_normalized_energies amset_data;
  dos_effective_masses ← get_dos_effective_masses amset_data;
  let screening := expand_dims2 inverse_screening_length_sq in
  static_dielectric ← dict_get KStr (properties self) "static_dielectric";
  static_dielectric_sq ← py_pow static_dielectric 2;
  let prefactor :=
    arr2_map (λ x, fdiv (fmul (fmul (fmul x (of_int 8)) np_pi) Second)
                        static_dielectric_sq)
             impurity_concentration in
  Ok {| bh_self := self;
        bh_inverse_screening_length_sq := inverse_screening_length_sq;
        bh_impurity_conc := impurity_concentration;
        bh_normalized_energies := normalized_energies;
        bh_dos_effective_masses := dos_effective_masses;
        bh_screening := screening;
        bh_prefactor4 := expand_dims2 prefactor |}.

(** [BrooksHerringScattering.__init__]. *)
Definition BrooksHerringScattering_init
    (materials_properties : gmap string F) (amset_data : AmsetData F)
  : result (BasicScattering F) :=
  st ← BrooksHerringScattering_setup materials_properties amset_data;
  _rates ← dict_comp
    (λ spin,
       r ← bh_ir_rates (bh_self st) amset_data (bh_prefactor4 st)
             (bh_screening st) (bh_normalized_energies st)
             (bh_dos_effective_masses st) spin;
       take_idx4 (ir_to_full_kpoint_mapping amset_data) r)
    (self_spins (bh_self st));
  Ok (set_rates (bh_self st) _rates).

(** Construction, by mechanism. *)
Definition construct (m : mechanism)
  : gmap string F → AmsetData F → result (BasicScattering F) :=
  match m with
  | CRT => ConstantRelaxationTime_init
  | MFP => MeanFreePathScattering_init
  | IMP => BrooksHerringScattering_init
  end.
End brooks_herring.

(** ** The two carriers *)

(** binary64: the kernel's primitive floats. *)
Definition float_of_int (z : Z) : float :=
  match z with
  | Z0 => 0%float
  | Zpos _ => PrimFloat.of_uint63 (Uint63.of_Z z)
  | Zneg p => PrimFloat.opp (PrimFloat.of_uint63 (Uint63.of_Z (Zpos p)))
  end.

Global Instance binary64 : Float64 float := {|
  of_int := float_of_int;
  lit_0_005 := 0x1.47ae147ae147bp-8%float;
  lit_1e_8 := 0x1.5798ee2308c3ap-27%float;
  np_pi := 0x1.921fb54442d18p+1%float;
  fadd := PrimFloat.add;
  fsub := PrimFloat.sub;
  fmul := PrimFloat.mul;
  fdiv := PrimFloat.div;
  fabs := PrimFloat.abs;
  fsqrt := PrimFloat.sqrt;
  feqb := PrimFloat.eqb;
  fltb := PrimFloat.ltb;
  fisnan := PrimFloat.is_nan;
  fisnan_zero := eq_refl;
|}.

(** Exact real arithmetic: no rounding, no NaN. *)
Global Instance R_eq_dec : EqDecision R := Req_dec_T.
Global Instance Rlt_decision (a b : R) : Decision (a < b)%R := Rlt_dec a b.

Global Instance exact : Float64 R := {|
  of_int := IZR;
  lit_0_005 := (5 / 1000)%R;
  lit_1e_8 := (1 / 100000000)%R;
  np_pi := PI;
  fadd := Rplus;
  fsub := Rminus;
  fmul := Rmult;
  fdiv := Rdiv;
  fabs := Rabs;
  fsqrt := R_sqrt.sqrt;
  feqb := λ a b, bool_decide (a = b);
  fltb := λ a b, bool_decide (a < b)%R;
  fisnan := λ _, false;
  fisnan_zero := eq_refl;
|}.

(** ** Well-formed inputs *)

(** A result as an option, for statements about dict comprehensions. *)
Definition to_option {A} (r : result A) : option A :=
  match r with Ok a => Some a | Raise _ => None end.

(** Every spin of the dataset has band energies of shape ([nb spin], [nk]). *)
Definition energies_shaped {F} (nb : Spin → nat) (nk : nat)
    (d : AmsetData F) : Prop :=
  ∀ s, s ∈ spins d → ∃ e, energies d !! s = Some e ∧ shape2 (nb s) nk e.

(** The array whose entry at an index is a function of the index. *)
Definition tab2 {A} (n m : nat) (f : nat → nat → A) : array2 A :=
  tab n (λ i, tab m (f i)).
Definition tab4 {A} (n m p q : nat) (f : nat → nat → nat → nat → A)
  : array4 A :=
  tab n (λ i, tab m (λ j, tab2 p q (f i j))).

(** [a[i, j]] and [a[i, j, k, l]] for indices in range. *)
Definition at2 `{Inhabited A} (a : array2 A) (i j : nat) : A :=
  (a !!! i) !!! j.
Definition at4 `{Inhabited A} (a : array4 A) (i j k l : nat) : A :=
  (((a !!! i) !!! j) !!! k) !!! l.

(** The indices are valid: [ir_kpoints_idx] points into the full mesh of
    [nk] k-points, and [ir_to_full_kpoint_mapping] has one position in
    [ir_kpoints_idx] per full k-point. *)
Definition kpoints_ok {F} (nk : nat) (d : AmsetData F) : Prop :=
  Forall (λ i, i < nk) (ir_kpoints_idx d)
  ∧ length (ir_to_full_kpoint_mapping d) = nk
  ∧ Forall (λ j, j < length (ir_kpoints_idx d))
           (ir_to_full_kpoint_mapping d).

(** Every spin has velocity products of shape ([nb spin], 3, 3, [nk]). *)
Definition velocities_shaped {F} (nb : Spin → nat) (nk : nat)
    (d : AmsetData F) : Prop :=
  ∀ s, s ∈ spins d →
    ∃ v, velocities_product d !! s = Some v ∧ shape4 (nb s) 3 3 nk v.

(** The group-velocity magnitude at band [b] and full k-point [k]: the
    Euclidean norm of the square roots of the diagonal of [v[b, :, :, k]]. *)
Definition velocity_at `{Float64 F} (v : array4 F) (b k : nat) : F :=
  let c i := fsqrt (at4 v b i i k) in
  fsqrt (fadd (fadd (fmul (c 0) (c 0)) (fmul (c 1) (c 1)))
              (fmul (c 2) (c 2))).


(** Every spin has effective masses of shape ([nb spin], 3, 3, [nk]). *)
Definition masses_shaped {F} (nb : Spin → nat) (nk : nat)
    (d : AmsetData F) : Prop :=
  ∀ s, s ∈ spins d →
    ∃ m, effective_mass d !! s = Some m ∧ shape4 (nb s) 3 3 nk m.

(** The DOS effective mass at band [b] and full k-point [k] (lines
    237-239). *)
Definition dos_mass_at `{Float64 F} `{Externals F} (m : array4 F) (b k : nat)
  : F :=
  np_power (fmul (fmul (fabs (at4 m b 0 0 k)) (fabs (at4 m b 1 1 k)))
                 (fabs (at4 m b 2 2 k)))
           (fdiv (of_int 1) (of_int 3)).

(** A semiconductor's bands: some spin exists, and every spin has a
    highest valence band with a conduction band above it. *)
Definition bands_ok {F} (nb : Spin → nat) (d : AmsetData F) : Prop :=
  spins d ≠ []
  ∧ ∀ s, s ∈ spins d → ∃ vb, vb_idx d !! s = Some vb ∧ vb + 1 < nb s.

(** The normalized energy of a band energy [e] of band [b] (lines 211-213
    and 220-225), given the band edges and the spin's [vb_idx]. *)
Definition normalized_energy `{Float64 F} (d : AmsetData F) (vbm cbm : F)
    (vb b : nat) (e : F) : F :=
  if is_metal d then fabs (fsub e (intrinsic_fermi_level d))
  else if decide (b < vb + 1) then fsub vbm e else fsub e cbm.

(** Every spin has polarisation factors of shape ([nb spin], [nk]). *)
Definition c_factor_shaped {F} (nb : Spin → nat) (nk : nat)
    (d : AmsetData F) : Prop :=
  ∀ s, s ∈ spins d → ∃ c, c_factor d !! s = Some c ∧ shape2 (nb s) nk c.

(** A dataset whose tensors have the shapes section 3 of the
    specification gives them: [nd] doping levels, [nt] temperatures,
    [nb spin] bands and [nk] k-points of the full mesh. *)
Definition dataset_ok {F} (nd nt : nat) (nb : Spin → nat) (nk : nat)
    (d : AmsetData F) : Prop :=
  shape2 nd nt (fermi_levels d)
  ∧ shape2 nd nt (electron_conc d)
  ∧ shape2 nd nt (hole_conc d)
  ∧ length (doping d) = nd
  ∧ length (temperatures d) = nt
  ∧ energies_shaped nb nk d
  ∧ velocities_shaped nb nk d
  ∧ masses_shaped nb nk d
  ∧ c_factor_shaped nb nk d
  ∧ kpoints_ok nk d
  ∧ (is_metal d = false → bands_ok nb d ∧ 0 < nk).



(** Line 150 and lines 153-154 at one entry. *)
Definition bh_k_sq `{Float64 F} (m_dos e_normalized : F) : F :=
  fmul (fmul (of_int 2) m_dos) e_normalized.
Definition bh_velocity `{Float64 F} (v : F) : F :=
  clamp_velocity (fdiv v (fsqrt (of_int 3))).

(** Lines 186-187 at one entry: the rate kept from a raw value [r] where
    the normalized energy is [e]. *)
Definition bh_zeroed `{Float64 F} (e r : F) : F :=
  if fltb e lit_1e_8 then of_int 0
  else if fisnan r then of_int 0 else r.

(** The rate of [BrooksHerringScattering] before the edge cases, at doping
    index [n], temperature index [t], band [b] and full k-point [k], from
    the DOS mass and the normalized energy there. *)
Definition bh_entry `{Float64 F} `{Externals F} (d : AmsetData F)
    (inverse_screening_length_sq : array2 F)
    (donor acceptor static_dielectric : F) (v : array4 F) (c : array2 F)
    (m_dos e_normalized : F) (n t b k : nat) : F :=
  bh_rate
    (bh_prefactor (bh_impurity (at2 (electron_conc d) n t)
                               (at2 (hole_conc d) n t) donor acceptor)
                  static_dielectric)
    (at2 inverse_screening_length_sq n t)
    (at2 c b k)
    (bh_velocity (velocity_at v b k))
    (bh_k_sq m_dos e_normalized).

(** ** Example inputs *)

(** libm is not part of the kernel's floats.  The theorems below hold for
    every [Externals]; where an input over binary64 has to be run, these
    stand in for it (a first-order logarithm, a power by repeated
    multiplication for the exponents 2 and 4), with values for [Second]
    (an atomic unit of time is about 2.4e-17 s) and [nm_to_bohr] (about
    18.9) and a constant screening. *)
Definition stand_in_power (x y : float) : float :=
  if PrimFloat.eqb y 2 then PrimFloat.mul x x
  else if PrimFloat.eqb y 4
       then PrimFloat.mul (PrimFloat.mul x x) (PrimFloat.mul x x)
       else x.

Definition stand_in_externals : Externals float := {|
  np_log := λ x, PrimFloat.sub x 1;
  np_power := stand_in_power;
  Second := 0x1.25bf8520814dbp+55%float;
  nm_to_bohr := 0x1.2e5b36817f182p+4%float;
  calculate_inverse_screening_length_sq := λ _ _, [[0.5; 0.25]]%float;
|}.

(** A (3, 3, nk) block with the given diagonal rows and zeros elsewhere. *)
Definition diag_block {A} (z : list A) (a b c : list A) : array3 A :=
  [[a; z; z]; [z; b; z]; [z; z; c]].

(** One spin, two bands, three k-points of which two are irreducible; one
    doping level and two temperatures. *)
Definition d_example : AmsetData float := {|
  spins := [up];
  energies := {[ up := [[-0.5; -0.25; 0]; [1.5; 1; 1.25]]%float ]};
  velocities_product :=
    {[ up := [diag_block [0; 0; 0] [1; 4; 0] [4; 9; 0] [4; 16; 0];
              diag_block [0; 0; 0] [1; 1; 1] [0; 0; 0] [0; 0; 0]]%float ]};
  effective_mass :=
    {[ up := [diag_block [0; 0; 0] [1; 1; 1] [2; 2; 2] [4; 4; 4];
              diag_block [0; 0; 0] [0; 1; 1] [1; 1; 1] [1; 1; 1]]%float ]};
  c_factor := {[ up := [[1; 1; 1]; [0.5; 0.5; 0.5]]%float ]};
  fermi_levels := [[0.125; 0.25]]%float;
  doping := [0x1p-17]%float;
  temperatures := [300; 400]%float;
  electron_conc := [[0x1p-17; 0x1p-16]]%float;
  hole_conc := [[0x1p-30; 0x1p-30]]%float;
  ir_kpoints_idx := [0; 2];
  ir_to_full_kpoint_mapping := [0; 0; 1];
  is_metal := false;
  vb_idx := {[ up := 0 ]};
  intrinsic_fermi_level := 0.5%float;
|}.

(** A dataset whose shapes disagree: three doping levels and one
    temperature against Fermi levels of shape (1, 2), and two spins with
    different numbers of bands and of k-points. *)
Definition d_mismatched : AmsetData float := {|
  spins := [up; down];
  energies := {[ up := [[-0.5; -0.25; 0]; [1.5; 1; 1.25]]%float;
                 down := [[0; 1]]%float ]};
  velocities_product := ∅;
  effective_mass := ∅;
  c_factor := ∅;
  fermi_levels := [[0.125; 0.25]]%float;
  doping := [1; 2; 3]%float;
  temperatures := [300]%float;
  electron_conc := [[1]]%float;
  hole_conc := [[1; 1]; [1; 1]]%float;
  ir_kpoints_idx := [0];
  ir_to_full_kpoint_mapping := [0; 0; 0];
  is_metal := false;
  vb_idx := ∅;
  intrinsic_fermi_level := 0.5%float;
|}.

(** The material properties of the Brooks-Herring examples. *)
Definition bh_props : gmap string float :=
  {[ "acceptor_charge" := 1%float; "donor_charge" := 1%float;
     "static_dielectric" := 10%float ]}.

(** Over the reals the externals are the real logarithm and power, with
    values for the two unit constants and a constant screening. *)
Definition exact_externals : Externals R := {|
  np_log := ln;
  np_power := Rpower;
  Second := 41341373336561364%R;
  nm_to_bohr := (188972687777 / 10000000000)%R;
  calculate_inverse_screening_length_sq := λ _ _, [[1%R]];
|}.

(** The synthetic dataset of the specification's section 8: two bands and
    one k-point per spin; the [down] channel sets the band edges at 0 and
    1, the [up] channel has a valence energy of -0.5 and a conduction
    energy of 1.2; the effective masses of [up] have principal values of
    absolute value 1, 2 and 4. *)
Definition d_exact : AmsetData R := {|
  spins := [up; down];
  energies := {[ up := [[(-5 / 10)%R]; [(12 / 10)%R]];
                 down := [[0%R]; [1%R]] ]};
  velocities_product :=
    {[ up := [diag_block [0] [1] [4] [4]; diag_block [0] [0] [0] [0]]%R;
       down := [diag_block [0] [1] [1] [1]; diag_block [0] [4] [4] [1]]%R ]};
  effective_mass :=
    {[ up := [diag_block [0] [1] [2] [4];
              diag_block [0] [-1] [2] [-4]]%R;
       down := [diag_block [0] [1] [1] [1];
                diag_block [0] [1] [1] [1]]%R ]};
  c_factor := {[ up := [[1%R]; [1%R]]; down := [[1%R]; [1%R]] ]};
  fermi_levels := [[0%R]];
  doping := [1%R];
  temperatures := [300%R];
  electron_conc := [[1%R]];
  hole_conc := [[1%R]];
  ir_kpoints_idx := [0];
  ir_to_full_kpoint_mapping := [0];
  is_metal := false;
  vb_idx := {[ up := 0; down := 0 ]};
  intrinsic_fermi_level := 0%R;
|}.


(** ** Further definitions *)

(** Every exception [r] can raise satisfies [P]. *)
Definition raises_only {A} (P : exn → Prop) (r : result A) : Prop :=
  ∀ e, r = Raise e → P e.

(** A failed lookup: in a dict or in a sequence. *)
Definition lookup_error (e : exn) : bool :=
  match e with KeyError _ | IndexError => true | _ => false end.

(** *** binary64 on its specification

    The kernel's floats are specified by [Prim2SF] into [spec_float]; the
    predicates below classify a specification value. *)







(** Material properties with a donor charge whose square overflows:
    2^600 is finite, its square 2^1200 is past the largest binary64. *)
Definition bh_props_large_donor : gmap string float :=
  {[ "acceptor_charge" := 1%float; "donor_charge" := 0x1p+600%float;
     "static_dielectric" := 10%float ]}.

(** [d_example] with some of its fields replaced. *)
Definition d_variant (sp : list Spin) (vp : gmap Spin (array4 float))
    (dop temps : list float) (ir full : list nat) (vb : gmap Spin nat)
  : AmsetData float := {|
  spins := sp;
  energies := energies d_example;
  velocities_product := vp;
  effective_mass := effective_mass d_example;
  c_factor := c_factor d_example;
  fermi_levels := fermi_levels d_example;
  doping := dop;
  temperatures := temps;
  electron_conc := electron_conc d_example;
  hole_conc := hole_conc d_example;
  ir_kpoints_idx := ir;
  ir_to_full_kpoint_mapping := full;
  is_metal := false;
  vb_idx := vb;
  intrinsic_fermi_level := intrinsic_fermi_level d_example;
|}.

(** A second spin channel that has no tensors. *)
Definition d_missing_down : AmsetData float :=
  d_variant [up; down] (velocities_product d_example) (doping d_example)
    (temperatures d_example) [0; 2] [0; 0; 1] {[ up := 0 ]}.

(** Both bands at or below [vb_idx]: no conduction band. *)
Definition d_all_valence : AmsetData float :=
  d_variant [up] (velocities_product d_example) (doping d_example)
    (temperatures d_example) [0; 2] [0; 0; 1] {[ up := 1 ]}.

(** An irreducible index past the mesh of three k-points. *)
Definition d_ir_past_mesh : AmsetData float :=
  d_variant [up] (velocities_product d_example) (doping d_example)
    (temperatures d_example) [0; 5] [0; 0; 1] {[ up := 0 ]}.

(** A position past the two irreducible k-points. *)
Definition d_mapping_past_ir : AmsetData float :=
  d_variant [up] (velocities_product d_example) (doping d_example)
    (temperatures d_example) [0; 2] [0; 0; 2] {[ up := 0 ]}.

(** No doping level against Fermi levels of shape (1, 2). *)
Definition d_short_doping : AmsetData float :=
  d_variant [up] (velocities_product d_example) []
    (temperatures d_example) [0; 2] [0; 0; 1] {[ up := 0 ]}.

(** Three temperatures against Fermi levels of shape (1, 2). *)
Definition d_long_temperatures : AmsetData float :=
  d_variant [up] (velocities_product d_example) (doping d_example)
    [300; 400; 500]%float [0; 2] [0; 0; 1] {[ up := 0 ]}.

(** A negative velocity product on the diagonal of band 0 at k-point 0. *)
Definition d_negative_velocity : AmsetData float :=
  d_variant [up]
    {[ up := [diag_block [0; 0; 0] [-1; 4; 0] [4; 9; 0] [4; 16; 0];
              diag_block [0; 0; 0] [1; 1; 1] [0; 0; 0] [0; 0; 0]]%float ]}
    (doping d_example) (temperatures d_example) [0; 2] [0; 0; 1]
    {[ up := 0 ]}.

(** * Properties *)

(** A concrete array has a given shape. *)
Ltac shaped := split; [reflexivity | repeat constructor].

(** ** The error monad, comprehensions and loops *)

Lemma bind_Ok {A B} (a : A) (f : A → result B) : (Ok a ≫= f) = f a.
Proof. reflexivity. Qed.

Lemma bind_Raise {A B} (e : exn) (f : A → result B) :
  (Raise e ≫= f) = Raise e.
Proof. reflexivity. Qed.

Lemma bind_Ok_inv {A B} (m : result A) (f : A → result B) (b : B) :
  (m ≫= f) = Ok b → ∃ a, m = Ok a ∧ f a = Ok b.
Proof. destruct m as [a|e]; [eauto | discriminate]. Qed.

Lemma dict_get_Some `{Countable K} {V} key (d : gmap K V) k v :
  d !! k = Some v → dict_get key d k = Ok v.
Proof. unfold dict_get. by intros ->. Qed.

Lemma to_option_dict_get `{Countable K} {V} key (d : gmap K V) k :
  to_option (dict_get key d k) = d !! k.
Proof. unfold dict_get. by destruct (d !! k). Qed.

(** The loop behind a dict comprehension, from any starting dict. *)
Lemma dict_loop_lookup `{Countable K} {V} (f : K → result V) keys
    (m0 m : gmap K V) :
  foldM (λ m k, v ← f k; Ok (<[k := v]> m)) m0 keys = Ok m →
  ∀ k, m !! k = if decide (k ∈ keys) then to_option (f k) else m0 !! k.
Proof.
  revert m0. induction keys as [|x l IH]; intros m0 Hm k; cbn in Hm.
  - inversion Hm; subst. case_decide as Hk; [by apply elem_of_nil in Hk | done].
  - apply bind_Ok_inv in Hm as (m1 & Hx & Hm).
    apply bind_Ok_inv in Hx as (v & Hv & Hx). inversion Hx; subst.
    rewrite (IH _ Hm k).
    destruct (decide (k ∈ l)) as [Hl|Hl].
    + rewrite decide_True; [done | by right].
    + destruct (decide (k = x)) as [->|Hne].
      * rewrite decide_True by left. by rewrite lookup_insert_eq, Hv.
      * rewrite lookup_insert_ne by done.
        rewrite decide_False; [done |].
        intros [?|?]%elem_of_cons; done.
Qed.

Lemma dict_loop_is_Ok `{Countable K} {V} (f : K → result V) keys
    (m0 : gmap K V) :
  (∀ k, k ∈ keys → ∃ v, f k = Ok v) →
  ∃ m, foldM (λ m k, v ← f k; Ok (<[k := v]> m)) m0 keys = Ok m.
Proof.
  revert m0. induction keys as [|x l IH]; intros m0 Hf; cbn; [eauto |].
  destruct (Hf x) as [v ->]; [left |]. cbn.
  apply IH. intros k Hk. apply Hf. by right.
Qed.

(** A comprehension raises what its first failing key raises. *)
Lemma dict_loop_raise `{Countable K} {V} (f : K → result V) keys
    (m0 : gmap K V) :
  (∃ k, k ∈ keys ∧ to_option (f k) = None) →
  ∃ l1 k l2 e, keys = (l1 ++ k :: l2)%list ∧
    (∀ x, x ∈ l1 → is_Some (to_option (f x))) ∧ f k = Raise e ∧
    foldM (λ m k, v ← f k; Ok (<[k := v]> m)) m0 keys = Raise e.
Proof.
  revert m0. induction keys as [|x l IH]; intros m0 (k & Hk & Hfk).
  - by apply elem_of_nil in Hk.
  - cbn. destruct (f x) as [v|e] eqn:Hx.
    + cbn. destruct (IH (<[x := v]> m0)) as (l1 & k' & l2 & e & -> & Hl1 & He & Hr).
      * apply elem_of_cons in Hk as [->|Hk]; [by rewrite Hx in Hfk |].
        eauto.
      * exists (x :: l1), k', l2, e. split_and!; [done | | done | done].
        intros y [->|Hy]%elem_of_cons; [by rewrite Hx | by apply Hl1].
    + exists [], x, l, e. split_and!; [done | | done | done].
      intros y Hy. by apply elem_of_nil in Hy.
Qed.

Lemma dict_comp_lookup `{Countable K} {V} (f : K → result V) keys m :
  dict_comp f keys = Ok m →
  ∀ k, m !! k = if decide (k ∈ keys) then to_option (f k) else None.
Proof.
  intros Hm k. unfold dict_comp in Hm.
  rewrite (dict_loop_lookup _ _ _ _ Hm k). by rewrite lookup_empty.
Qed.

Lemma dict_comp_is_Ok `{Countable K} {V} (f : K → result V) keys :
  (∀ k, k ∈ keys → ∃ v, f k = Ok v) → ∃ m, dict_comp f keys = Ok m.
Proof. apply dict_loop_is_Ok. Qed.

Lemma dict_comp_raise `{Countable K} {V} (f : K → result V) keys :
  (∃ k, k ∈ keys ∧ to_option (f k) = None) →
  ∃ l1 k l2 e, keys = (l1 ++ k :: l2)%list ∧
    (∀ x, x ∈ l1 → is_Some (to_option (f x))) ∧ f k = Raise e ∧
    dict_comp f keys = Raise e.
Proof. apply dict_loop_raise. Qed.

(** ** Shapes *)

Lemma np_shape2_spec {A} n m (a : array2 A) :
  shape2 n m a → (np_shape2 a).1 = n ∧ (n ≠ 0 → (np_shape2 a).2 = m).
Proof.
  intros [Hn Hm]. split; [done |]. intros Hn0.
  destruct a as [|r a]; cbn in *; [congruence |].
  by apply Forall_cons in Hm as [? _].
Qed.

Lemma shape4_replicate {A} a b c d a' b' c' d' (x : A) :
  a' = a → (a ≠ 0 → b' = b) → (a ≠ 0 → b ≠ 0 → c' = c) →
  (a ≠ 0 → b ≠ 0 → c ≠ 0 → d' = d) →
  shape4 a b c d
    (replicate a' (replicate b' (replicate c' (replicate d' x)))).
Proof.
  intros -> Hb Hc Hd. split; [by rewrite length_replicate |].
  destruct a as [|a]; [constructor |]. rewrite Hb by done.
  apply Forall_replicate.
  split; [by rewrite length_replicate |].
  destruct b as [|b]; [constructor |]. rewrite Hc by done.
  apply Forall_replicate.
  split; [by rewrite length_replicate |].
  destruct c as [|c]; [constructor |]. rewrite Hd by done.
  apply Forall_replicate. by rewrite length_replicate.
Qed.

(** ** The base class *)

Lemma AbstractBasicScattering_init_Ok {F} required
    (props : gmap string F) (d : AmsetData F) :
  (∀ k, k ∈ required → is_Some (props !! k)) →
  (∀ s, s ∈ spins d → is_Some (energies d !! s)) →
  ∃ self, AbstractBasicScattering_init required props d = Ok self
    ∧ (∀ k, properties self !! k
            = if decide (k ∈ required) then props !! k else None)
    ∧ (∀ s, nbands self !! s
            = if decide (s ∈ spins d) then length <$> energies d !! s
              else None)
    ∧ self_doping self = doping d
    ∧ self_temperatures self = temperatures d
    ∧ self_spins self = spins d
    ∧ rates self = ∅.
Proof.
  intros Hprops Hen. unfold AbstractBasicScattering_init.
  destruct (dict_comp_is_Ok (dict_get KStr props) required) as [pm Hpm].
  { intros k [v Hv]%Hprops. exists v. by apply dict_get_Some. }
  destruct (dict_comp_is_Ok
    (λ s, e ← dict_get KSpin (energies d) s; Ok (length e)) (spins d))
    as [nm Hnm].
  { intros s [e He]%Hen. exists (length e).
    by rewrite (dict_get_Some _ _ _ _ He). }
  rewrite Hpm, bind_Ok, Hnm, bind_Ok.
  eexists. split; [reflexivity |]. cbn. split_and!; try done.
  - intros k. rewrite (dict_comp_lookup _ _ _ Hpm k).
    by rewrite to_option_dict_get.
  - intros s. rewrite (dict_comp_lookup _ _ _ Hnm s).
    case_decide; [| done]. unfold dict_get.
    by destruct (energies d !! s).
Qed.

Lemma AbstractBasicScattering_init_missing {F} required
    (props : gmap string F) (d : AmsetData F) :
  (∃ k, k ∈ required ∧ props !! k = None) →
  ∃ l1 k l2, required = (l1 ++ k :: l2)%list
    ∧ (∀ x, x ∈ l1 → is_Some (props !! x))
    ∧ props !! k = None
    ∧ AbstractBasicScattering_init required props d
      = Raise (KeyError (KStr k)).
Proof.
  intros (k & Hk & Hnone). unfold AbstractBasicScattering_init.
  destruct (dict_comp_raise (dict_get KStr props) required)
    as (l1 & k' & l2 & e & Hreq & Hl1 & He & Hr).
  { exists k. by rewrite to_option_dict_get. }
  exists l1, k', l2. rewrite Hr, bind_Raise.
  unfold dict_get in He. destruct (props !! k') eqn:Hk'; [done |].
  inversion He; subst e. split_and!; try done.
  intros x Hx. specialize (Hl1 x Hx). by rewrite to_option_dict_get in Hl1.
Qed.

(** Every mechanism runs the base constructor first. *)
Lemma construct_base_raise {F} `{Float64 F} `{Externals F} m
    (props : gmap string F) (d : AmsetData F) e :
  AbstractBasicScattering_init (required_properties m) props d = Raise e →
  construct m props d = Raise e.
Proof.
  intros Hb. destruct m; cbv [construct].
  - unfold ConstantRelaxationTime_init. by rewrite Hb.
  - unfold MeanFreePathScattering_init. by rewrite Hb.
  - unfold BrooksHerringScattering_init, BrooksHerringScattering_setup.
    by rewrite Hb.
Qed.

(** ** ConstantRelaxationTime *)

Lemma ConstantRelaxationTime_init_Ok {F} `{Float64 F}
    (props : gmap string F) (d : AmsetData F) tau :
  props !! "constant_relaxation_time" = Some tau →
  feqb tau (of_int 0) = false →
  (∀ s, s ∈ spins d → is_Some (energies d !! s)) →
  ∃ self, ConstantRelaxationTime_init props d = Ok self ∧
    ∀ s, rates self !! s =
      if decide (s ∈ spins d)
      then (λ e, np_full4 ((np_shape2 (fermi_levels d)).1,
                           (np_shape2 (fermi_levels d)).2,
                           (np_shape2 e).1, (np_shape2 e).2)
                          (fdiv (of_int 1) tau)) <$> energies d !! s
      else None.
Proof.
  intros Htau Hnz Hen. unfold ConstantRelaxationTime_init.
  destruct (AbstractBasicScattering_init_Ok (required_properties CRT)
              props d) as (self & -> & Hp & _ & _ & _ & Hsp & _); [|done|].
  { intros k ->%list_elem_of_singleton. by rewrite Htau. }
  rewrite bind_Ok.
  rewrite (dict_get_Some _ _ _ tau), bind_Ok.
  2:{ rewrite Hp, decide_True; [done | by left]. }
  unfold py_truediv. rewrite Hnz, bind_Ok, Hsp.
  destruct (dict_comp_is_Ok
    (λ s, e ← dict_get KSpin (energies d) s;
          Ok (np_shape2 (fermi_levels d), np_shape2 e)) (spins d))
    as [shape Hshape].
  { intros s [e He]%Hen. rewrite (dict_get_Some _ _ _ _ He). eauto. }
  rewrite Hshape, bind_Ok.
  pose proof (dict_comp_lookup _ _ _ Hshape) as Hsh.
  destruct (dict_comp_is_Ok
    (λ s, sh ← dict_get KSpin shape s;
          Ok (np_full4 (sh.1.1, sh.1.2, sh.2.1, sh.2.2)
                (fdiv (of_int 1) tau))) (spins d)) as [r Hr].
  { intros s Hs. destruct (Hen s Hs) as [e He].
    rewrite (dict_get_Some _ _ _ (np_shape2 (fermi_levels d), np_shape2 e)).
    - eauto.
    - rewrite Hsh, decide_True by done.
      by rewrite (dict_get_Some _ _ _ _ He). }
  rewrite Hr, bind_Ok. eexists. split; [reflexivity |]. cbn.
  intros s. rewrite (dict_comp_lookup _ _ _ Hr s).
  case_decide as Hs; [| done]. destruct (Hen s Hs) as [e He].
  rewrite He. cbn.
  rewrite (dict_get_Some _ _ _ (np_shape2 (fermi_levels d), np_shape2 e)).
  - done.
  - rewrite Hsh, decide_True by done.
    by rewrite (dict_get_Some _ _ _ _ He).
Qed.

Lemma ix4_replicate {A} a b c d (x : A) n t bd k :
  n < a → t < b → bd < c → k < d →
  ix4 (replicate a (replicate b (replicate c (replicate d x)))) n t bd k
  = Some x.
Proof.
  intros. unfold ix4.
  rewrite lookup_replicate_2 by done. cbn.
  rewrite lookup_replicate_2 by done. cbn.
  rewrite lookup_replicate_2 by done. cbn.
  by rewrite lookup_replicate_2.
Qed.

(** C7.  With a relaxation time [tau] that is not zero, the constructor
    returns, and for every spin of the dataset [rates[spin]] has shape
    (ndoping, ntemperatures, nbands, nkpoints), every entry is [1 / tau],
    and the array is [np.full] of the two shapes and [1 / tau]: no value of
    a dataset tensor enters it. *)
Theorem ConstantRelaxationTime_rates {F} `{Float64 F}
    (props : gmap string F) (d : AmsetData F) tau nd nt nb nk :
  props !! "constant_relaxation_time" = Some tau →
  feqb tau (of_int 0) = false →
  shape2 nd nt (fermi_levels d) →
  energies_shaped nb nk d →
  ∃ self, ConstantRelaxationTime_init props d = Ok self ∧
    ∀ s, s ∈ spins d →
      ∃ r e, rates self !! s = Some r ∧ energies d !! s = Some e
        ∧ shape4 nd nt (nb s) nk r
        ∧ (∀ n t b k, n < nd → t < nt → b < nb s → k < nk →
             ix4 r n t b k = Some (fdiv (of_int 1) tau))
        ∧ r = np_full4 (length (fermi_levels d),
                        length (hd [] (fermi_levels d)),
                        length e, length (hd [] e))
                       (fdiv (of_int 1) tau).
Proof.
  intros Htau Hnz Hfl Hen.
  destruct (ConstantRelaxationTime_init_Ok props d tau Htau Hnz)
    as (self & Hself & Hr).
  { intros s (e & He & _)%Hen. eauto. }
  exists self. split; [done |]. intros s Hs.
  destruct (Hen s Hs) as (e & He & Hesh).
  specialize (Hr s). rewrite decide_True, He in Hr by done. cbn in Hr.
  eexists _, e. split; [exact Hr |]. split; [done |].
  destruct (np_shape2_spec _ _ _ Hfl) as [Hf1 Hf2].
  destruct (np_shape2_spec _ _ _ Hesh) as [He1 He2].
  cbn in Hf1, Hf2, He1, He2. cbn.
  split_and!; [| | done].
  - apply shape4_replicate; auto.
  - intros n t b k Hn Ht Hb Hk.
    rewrite Hf1, Hf2, He1, He2 by lia. by apply ix4_replicate.
Qed.

(** C10.  A relaxation time equal to zero makes [1 / tau] raise
    [ZeroDivisionError]: construction fails and no rate tensor is built. *)
Theorem ConstantRelaxationTime_zero_tau {F} `{Float64 F}
    (props : gmap string F) (d : AmsetData F) tau :
  props !! "constant_relaxation_time" = Some tau →
  feqb tau (of_int 0) = true →
  (∀ s, s ∈ spins d → is_Some (energies d !! s)) →
  ConstantRelaxationTime_init props d = Raise ZeroDivisionError.
Proof.
  intros Htau Hz Hen. unfold ConstantRelaxationTime_init.
  destruct (AbstractBasicScattering_init_Ok (required_properties CRT)
              props d) as (self & -> & Hp & _); [|done|].
  { intros k ->%list_elem_of_singleton. by rewrite Htau. }
  rewrite bind_Ok.
  rewrite (dict_get_Some _ _ _ tau), bind_Ok.
  2:{ rewrite Hp, decide_True; [done | by left]. }
  unfold py_truediv. by rewrite Hz.
Qed.

(** ** Required properties *)

Lemma construct_properties {F} `{Float64 F} `{Externals F} m
    (props : gmap string F) (d : AmsetData F) self :
  construct m props d = Ok self →
  ∃ base, AbstractBasicScattering_init (required_properties m) props d
          = Ok base ∧ properties self = properties base.
Proof.
  destruct m; cbv [construct].
  - unfold ConstantRelaxationTime_init. intros Hc.
    apply bind_Ok_inv in Hc as (base & Hb & Hc). exists base. split; [done |].
    repeat (apply bind_Ok_inv in Hc as (? & _ & Hc)). by inversion Hc.
  - unfold MeanFreePathScattering_init. intros Hc.
    apply bind_Ok_inv in Hc as (base & Hb & Hc). exists base. split; [done |].
    repeat (apply bind_Ok_inv in Hc as (? & _ & Hc)). by inversion Hc.
  - unfold BrooksHerringScattering_init. intros Hc.
    apply bind_Ok_inv in Hc as (st & Hst & Hc).
    apply bind_Ok_inv in Hc as (r & _ & Hc). inversion Hc; subst self.
    unfold BrooksHerringScattering_setup in Hst.
    apply bind_Ok_inv in Hst as (base & Hb & Hst). exists base.
    split; [done |].
    repeat (apply bind_Ok_inv in Hst as (? & _ & Hst)). by inversion Hst.
Qed.

(** C8, as the code has it.  A declared key that is absent makes every
    mechanism's construction raise Python's [KeyError] for the first absent
    key in declaration order; nothing catches it.  When all declared keys
    are present (and every spin has band energies) the base constructor
    returns, and the properties of any constructed mechanism are exactly
    the declared keys with the caller's values: extra keys are dropped. *)
Theorem required_properties_extraction {F} `{Float64 F} `{Externals F}
    (m : mechanism) (props : gmap string F) (d : AmsetData F) :
  ((∃ k, k ∈ required_properties m ∧ props !! k = None) →
   ∃ l1 k l2, required_properties m = (l1 ++ k :: l2)%list
     ∧ (∀ x, x ∈ l1 → is_Some (props !! x))
     ∧ props !! k = None
     ∧ construct m props d = Raise (KeyError (KStr k))
     ∧ exn_name (KeyError (KStr k)) = "KeyError")
  ∧ ((∀ k, k ∈ required_properties m → is_Some (props !! k)) →
     (∀ s, s ∈ spins d → is_Some (energies d !! s)) →
     (∃ base, AbstractBasicScattering_init (required_properties m) props d
              = Ok base)
     ∧ ∀ self, construct m props d = Ok self →
         ∀ k, properties self !! k
              = if decide (k ∈ required_properties m) then props !! k
                else None).
Proof.
  split.
  - intros Hmiss.
    destruct (AbstractBasicScattering_init_missing _ props d Hmiss)
      as (l1 & k & l2 & Hreq & Hl1 & Hk & Hr).
    exists l1, k, l2. split_and!; try done.
    by apply construct_base_raise.
  - intros Hall Hen.
    destruct (AbstractBasicScattering_init_Ok _ props d Hall Hen)
      as (base & Hb & Hp & _).
    split; [by exists base |]. intros self Hc.
    apply construct_properties in Hc as (base' & Hb' & ->).
    rewrite Hb in Hb'. by inversion Hb'; subst.
Qed.

(** With no properties at all, [ConstantRelaxationTime] raises a
    [KeyError], which is not a [MissingPropertyError]. *)
Lemma missing_property_raises_KeyError :
  ∃ e, ConstantRelaxationTime_init ∅ d_example = Raise e
       ∧ exn_name e ≠ "MissingPropertyError".
Proof.
  exists (KeyError (KStr "constant_relaxation_time")).
  split; [vm_compute; reflexivity | discriminate].
Qed.

(** ** Shapes are not validated *)

(** C9, as the code has it.  Construction does not validate shapes.
    [ConstantRelaxationTime] compares no shapes at all: with its key
    present and not zero it returns for every dataset whose spins have band
    energies, whatever the shapes of its tensors are and whether or not
    they agree, each [rates[spin]] being [np.full] of
    [fermi_levels.shape + energies[spin].shape]. *)
Theorem shapes_not_validated {F} `{Float64 F} `{Externals F}
    (props : gmap string F) (d : AmsetData F) tau :
  props !! "constant_relaxation_time" = Some tau →
  feqb tau (of_int 0) = false →
  (∀ s, s ∈ spins d → is_Some (energies d !! s)) →
  ∃ self, construct CRT props d = Ok self ∧
    ∀ s, s ∈ spins d →
      ∃ e, energies d !! s = Some e ∧
        rates self !! s
        = Some (np_full4 (length (fermi_levels d),
                          length (hd [] (fermi_levels d)),
                          length e, length (hd [] e))
                         (fdiv (of_int 1) tau)).
Proof.
  intros Htau Hnz Hen.
  destruct (ConstantRelaxationTime_init_Ok props d tau Htau Hnz Hen)
    as (self & Hself & Hr).
  exists self. split; [done |]. intros s Hs.
  destruct (Hen s Hs) as [e He]. exists e. split; [done |].
  by rewrite Hr, decide_True, He.
Qed.

(** Three doping levels against Fermi levels of shape (1, 2), two spins
    with different band and k-point counts: construction returns. *)
Lemma mismatched_shapes_accepted :
  length (doping d_mismatched) ≠ length (fermi_levels d_mismatched)
  ∧ (length <$> energies d_mismatched !! up)
    ≠ (length <$> energies d_mismatched !! down)
  ∧ ∃ self, ConstantRelaxationTime_init
              {[ "constant_relaxation_time" := 2%float ]} d_mismatched
            = Ok self.
Proof.
  split_and!; [vm_compute; discriminate ..|].
  eexists. vm_compute. reflexivity.
Qed.

(** ** Arrays as tabulated functions *)

Lemma tab_length {A} n (f : nat → A) : length (tab n f) = n.
Proof. unfold tab. by rewrite length_fmap, length_seq. Qed.

Lemma tab_lookup {A} n (f : nat → A) i : i < n → tab n f !! i = Some (f i).
Proof.
  intros Hi. unfold tab. rewrite list_lookup_fmap, lookup_seq_lt by done.
  done.
Qed.

Lemma tab_ext {A} n (f g : nat → A) :
  (∀ i, i < n → f i = g i) → tab n f = tab n g.
Proof.
  intros Hfg. unfold tab. apply list_fmap_ext.
  intros i x Hx. apply lookup_seq in Hx as [-> Hi]. by apply Hfg.
Qed.

Lemma tab_fmap {A B} n (f : nat → A) (g : A → B) :
  g <$> tab n f = tab n (λ i, g (f i)).
Proof. unfold tab. by rewrite <- list_fmap_compose. Qed.

Lemma tab_3 {A} (f : nat → A) : tab 3 f = [f 0; f 1; f 2].
Proof. reflexivity. Qed.

Lemma tab_1 {A} (f : nat → A) : tab 1 f = [f 0].
Proof. reflexivity. Qed.

Lemma list_tab `{Inhabited A} (l : list A) :
  l = tab (length l) (λ i, l !!! i).
Proof.
  apply list_eq. intros i. destruct (decide (i < length l)) as [Hi|Hi].
  - rewrite tab_lookup by done. by apply list_lookup_lookup_total_lt.
  - rewrite !lookup_ge_None_2; [done | rewrite tab_length; lia | lia].
Qed.

Lemma replicate_tab {A} n (x : A) : replicate n x = tab n (λ _, x).
Proof.
  apply list_eq. intros i. destruct (decide (i < n)) as [Hi|Hi].
  - by rewrite tab_lookup, lookup_replicate_2.
  - rewrite !lookup_ge_None_2;
      [done | rewrite tab_length; lia | rewrite length_replicate; lia].
Qed.

Lemma traverse_tab {A B} (f : A → result B) n (g : nat → A) (h : nat → B) :
  (∀ i, i < n → f (g i) = Ok (h i)) → traverse f (tab n g) = Ok (tab n h).
Proof.
  intros Hf. unfold tab.
  assert (∀ k m, (∀ i, k ≤ i < k + m → f (g i) = Ok (h i)) →
            traverse f (g <$> seq k m) = Ok (h <$> seq k m)) as Hgen.
  { intros k m. revert k. induction m as [|m IH]; intros k Hk; [done |].
    cbn. rewrite Hk by lia. rewrite bind_Ok, IH; [done |].
    intros i Hi. apply Hk. lia. }
  apply Hgen. intros i Hi. apply Hf. lia.
Qed.

Lemma take_idx_tab `{Inhabited A} (idx : list nat) n (f : nat → A) :
  Forall (λ i, i < n) idx →
  take_idx idx (tab n f) = Ok (tab (length idx) (λ q, f (idx !!! q))).
Proof.
  intros Hidx. unfold take_idx.
  rewrite (list_tab idx) at 1.
  apply traverse_tab. intros q Hq. unfold getitem.
  rewrite tab_lookup; [done |].
  rewrite Forall_lookup in Hidx. eapply Hidx.
  by apply list_lookup_lookup_total_lt.
Qed.

Lemma tab2_ext {A} n m (f g : nat → nat → A) :
  (∀ i j, i < n → j < m → f i j = g i j) → tab2 n m f = tab2 n m g.
Proof.
  intros Hfg. apply tab_ext. intros i Hi. apply tab_ext. intros j Hj.
  by apply Hfg.
Qed.

Lemma shape2_tab2 {A} n m (f : nat → nat → A) : shape2 n m (tab2 n m f).
Proof.
  split; [apply tab_length |]. apply Forall_forall.
  intros r [i [-> _]]%list_elem_of_fmap. apply tab_length.
Qed.

Lemma shape4_tab4 {A} n m p q (f : nat → nat → nat → nat → A) :
  shape4 n m p q (tab4 n m p q f).
Proof.
  split; [apply tab_length |]. apply Forall_forall.
  intros x [i [-> _]]%list_elem_of_fmap.
  split; [apply tab_length |]. apply Forall_forall.
  intros y [j [-> _]]%list_elem_of_fmap. apply shape2_tab2.
Qed.

Lemma ix4_tab4 {A} n m p q (f : nat → nat → nat → nat → A) i j k l :
  i < n → j < m → k < p → l < q →
  ix4 (tab4 n m p q f) i j k l = Some (f i j k l).
Proof.
  intros. unfold ix4, tab4, tab2.
  rewrite tab_lookup by done. cbn. rewrite tab_lookup by done. cbn.
  rewrite tab_lookup by done. cbn. by rewrite tab_lookup.
Qed.

Lemma to_tab2 `{Inhabited A} n m (a : array2 A) :
  shape2 n m a → a = tab2 n m (at2 a).
Proof.
  intros [Hn Hm]. rewrite (list_tab a) at 1. rewrite Hn.
  apply tab_ext. intros i Hi.
  rewrite (list_tab (a !!! i)) at 1.
  replace (length (a !!! i)) with m; [done |].
  symmetry. rewrite Forall_lookup in Hm. eapply Hm.
  apply list_lookup_lookup_total_lt. lia.
Qed.

Lemma to_tab4 `{Inhabited A} n m p q (a : array4 A) :
  shape4 n m p q a → a = tab4 n m p q (at4 a).
Proof.
  intros [Hn Hm]. rewrite (list_tab a) at 1. rewrite Hn.
  apply tab_ext. intros i Hi.
  assert (shape3 m p q (a !!! i)) as [Hm' Hp].
  { rewrite Forall_lookup in Hm. eapply Hm.
    apply list_lookup_lookup_total_lt. lia. }
  rewrite (list_tab (a !!! i)) at 1. rewrite Hm'.
  apply tab_ext. intros j Hj.
  apply (to_tab2 p q).
  rewrite Forall_lookup in Hp. eapply Hp.
  apply list_lookup_lookup_total_lt. lia.
Qed.

Lemma take_idx2_tab2 `{Inhabited A} idx n m (f : nat → nat → A) :
  Forall (λ i, i < m) idx →
  take_idx2 idx (tab2 n m f)
  = Ok (tab2 n (length idx) (λ i q, f i (idx !!! q))).
Proof.
  intros Hidx. unfold take_idx2, tab2. apply traverse_tab.
  intros i _. by apply take_idx_tab.
Qed.

Lemma take_idx4_tab4 `{Inhabited A} idx n m p q
    (f : nat → nat → nat → nat → A) :
  Forall (λ i, i < q) idx →
  take_idx4 idx (tab4 n m p q f)
  = Ok (tab4 n m p (length idx) (λ i j k l, f i j k (idx !!! l))).
Proof.
  intros Hidx. unfold take_idx4, tab4, tab2. apply traverse_tab.
  intros i _. apply traverse_tab. intros j _. apply traverse_tab.
  intros k _. by apply take_idx_tab.
Qed.

Lemma arr2_map_tab2 {A B} (g : A → B) n m (f : nat → nat → A) :
  arr2_map g (tab2 n m f) = tab2 n m (λ i j, g (f i j)).
Proof.
  unfold arr2_map, tab2. rewrite tab_fmap. apply tab_ext. intros i _.
  by rewrite tab_fmap.
Qed.

Lemma arr4_map_tab4 {A B} (g : A → B) n m p q
    (f : nat → nat → nat → nat → A) :
  arr4_map g (tab4 n m p q f) = tab4 n m p q (λ i j k l, g (f i j k l)).
Proof.
  unfold arr4_map, arr3_map, tab4. rewrite tab_fmap. apply tab_ext.
  intros i _. rewrite tab_fmap. apply tab_ext. intros j _.
  apply arr2_map_tab2.
Qed.

Lemma np_tile2_tab2 {A} a b n m (f : nat → nat → A) :
  np_tile2 a b (tab2 n m f) = tab4 a b n m (λ _ _ i j, f i j).
Proof. unfold np_tile2. by rewrite !replicate_tab. Qed.

(** ** Velocities and MeanFreePathScattering *)

Lemma np_diagonal12_tab4 {A} nb nq (f : nat → nat → nat → nat → A) :
  np_diagonal12 nq (tab4 nb 3 3 nq f)
  = tab2 nb nq (λ b q, [f b 0 0 q; f b 1 1 q; f b 2 2 q]).
Proof.
  unfold np_diagonal12, tab4, tab2. rewrite tab_fmap.
  apply tab_ext. intros b _. apply tab_ext. intros q Hq.
  rewrite !tab_3. unfold diag_entries. cbn.
  by rewrite !tab_lookup.
Qed.

Lemma velocity_norms_Ok {F} `{Float64 F} (d : AmsetData F) s v nb nk :
  velocities_product d !! s = Some v →
  shape4 nb 3 3 nk v →
  Forall (λ i, i < nk) (ir_kpoints_idx d) →
  velocity_norms d s
  = Ok (tab2 nb (length (ir_kpoints_idx d))
          (λ b q, velocity_at v b (ir_kpoints_idx d !!! q))).
Proof.
  intros Hv Hsh Hir. unfold velocity_norms.
  rewrite (dict_get_Some _ _ _ _ Hv), bind_Ok.
  rewrite (to_tab4 _ _ _ _ v Hsh) at 1.
  rewrite take_idx4_tab4, bind_Ok by done.
  rewrite np_diagonal12_tab4. f_equal.
  change (arr3_map fsqrt) with (arr2_map (fmap (M := list) fsqrt)).
  unfold norm_axis2. by rewrite !arr2_map_tab2.
Qed.

Lemma mfp_ir_rates_Ok {F} `{Float64 F} `{Externals F}
    (self : BasicScattering F) mfp (d : AmsetData F) s v nb nk :
  velocities_product d !! s = Some v →
  shape4 nb 3 3 nk v →
  Forall (λ i, i < nk) (ir_kpoints_idx d) →
  mfp_ir_rates self mfp d s
  = Ok (tab4 (length (self_doping self)) (length (self_temperatures self))
          nb (length (ir_kpoints_idx d))
          (λ _ _ b q,
             fdiv (fmul (clamp_velocity
                           (velocity_at v b (ir_kpoints_idx d !!! q)))
                        Second) mfp)).
Proof.
  intros Hv Hsh Hir. unfold mfp_ir_rates.
  rewrite (velocity_norms_Ok d s v nb nk), bind_Ok by done.
  by rewrite arr2_map_tab2, np_tile2_tab2, arr4_map_tab4.
Qed.

(** What [MeanFreePathScattering.__init__] returns on a well-formed
    dataset: per spin, the rates on the irreducible k-points and their
    expansion to the full mesh. *)
Lemma MeanFreePathScattering_init_Ok {F} `{Float64 F} `{Externals F}
    (props : gmap string F) (d : AmsetData F) mean_free_path nb nk :
  props !! "mean_free_path" = Some mean_free_path →
  (∀ s, s ∈ spins d → is_Some (energies d !! s)) →
  velocities_shaped nb nk d →
  kpoints_ok nk d →
  ∃ self, MeanFreePathScattering_init props d = Ok self
    ∧ self_doping self = doping d
    ∧ self_temperatures self = temperatures d
    ∧ (∀ s, s ∉ spins d → rates self !! s = None)
    ∧ ∀ s, s ∈ spins d →
        ∃ v, velocities_product d !! s = Some v
          ∧ mfp_ir_rates self (fmul mean_free_path nm_to_bohr) d s
            = Ok (tab4 (length (doping d)) (length (temperatures d))
                    (nb s) (length (ir_kpoints_idx d))
                    (λ _ _ b q,
                       fdiv (fmul (clamp_velocity
                               (velocity_at v b (ir_kpoints_idx d !!! q)))
                               Second)
                            (fmul mean_free_path nm_to_bohr)))
          ∧ rates self !! s
            = Some (tab4 (length (doping d)) (length (temperatures d))
                      (nb s) nk
                      (λ _ _ b k,
                         fdiv (fmul (clamp_velocity
                                 (velocity_at v b
                                    (ir_kpoints_idx d !!!
                                       (ir_to_full_kpoint_mapping d !!! k))))
                                 Second)
                              (fmul mean_free_path nm_to_bohr))).
Proof.
  intros Hmfp Hen Hvel (Hir & Hlen & Hfull).
  unfold MeanFreePathScattering_init.
  destruct (AbstractBasicScattering_init_Ok (required_properties MFP)
              props d) as (self & -> & Hp & _ & Hdop & Htemp & Hsp & _); [|done|].
  { intros k ->%list_elem_of_singleton. by rewrite Hmfp. }
  rewrite bind_Ok.
  rewrite (dict_get_Some _ _ _ mean_free_path), bind_Ok.
  2:{ rewrite Hp, decide_True; [done | by left]. }
  rewrite Hsp.
  assert (∀ s, s ∈ spins d →
    ∃ v, velocities_product d !! s = Some v
      ∧ mfp_ir_rates self (fmul mean_free_path nm_to_bohr) d s
        = Ok (tab4 (length (doping d)) (length (temperatures d))
                (nb s) (length (ir_kpoints_idx d))
                (λ _ _ b q,
                   fdiv (fmul (clamp_velocity
                           (velocity_at v b (ir_kpoints_idx d !!! q)))
                           Second)
                        (fmul mean_free_path nm_to_bohr)))) as Hirr.
  { intros s (v & Hv & Hsh)%Hvel. exists v. split; [done |].
    rewrite (mfp_ir_rates_Ok self _ d s v (nb s) nk) by done.
    by rewrite Hdop, Htemp. }
  set (f := λ spin, r ← mfp_ir_rates self (fmul mean_free_path nm_to_bohr)
                         d spin;
                    take_idx4 (ir_to_full_kpoint_mapping d) r).
  assert (∀ s, s ∈ spins d →
    ∃ v, velocities_product d !! s = Some v ∧
      f s = Ok (tab4 (length (doping d)) (length (temperatures d))
                  (nb s) nk
                  (λ _ _ b k,
                     fdiv (fmul (clamp_velocity
                             (velocity_at v b
                                (ir_kpoints_idx d !!!
                                   (ir_to_full_kpoint_mapping d !!! k))))
                             Second)
                          (fmul mean_free_path nm_to_bohr)))) as Hf.
  { intros s Hs. destruct (Hirr s Hs) as (v & Hv & Hr). exists v.
    split; [done |]. unfold f. rewrite Hr, bind_Ok.
    by rewrite take_idx4_tab4, Hlen. }
  destruct (dict_comp_is_Ok f (spins d)) as [r Hr].
  { intros s Hs. destruct (Hf s Hs) as (v & _ & ->). eauto. }
  rewrite Hr, bind_Ok. eexists. split; [reflexivity |]. cbn.
  split_and!; [done | done | |].
  { intros s Hs. by rewrite (dict_comp_lookup _ _ _ Hr s), decide_False. }
  intros s Hs.
  destruct (Hirr s Hs) as (v & Hv & Hri).
  destruct (Hf s Hs) as (v' & Hv' & Hfs).
  assert (v' = v) as -> by congruence.
  exists v. split_and!; [done | done |].
  by rewrite (dict_comp_lookup _ _ _ Hr s), decide_True, Hfs.
Qed.


Lemma kpoints_ok_lookup {F} nk (d : AmsetData F) k :
  kpoints_ok nk d → k < nk →
  ∃ i kf, ir_to_full_kpoint_mapping d !! k = Some i
    ∧ ir_kpoints_idx d !! i = Some kf
    ∧ i < length (ir_kpoints_idx d) ∧ kf < nk
    ∧ ir_to_full_kpoint_mapping d !!! k = i
    ∧ ir_kpoints_idx d !!! i = kf.
Proof.
  intros (Hir & Hlen & Hfull) Hk.
  destruct (lookup_lt_is_Some_2 (ir_to_full_kpoint_mapping d) k) as [i Hi];
    [lia |].
  rewrite Forall_lookup in Hfull. pose proof (Hfull _ _ Hi) as Hilt.
  destruct (lookup_lt_is_Some_2 (ir_kpoints_idx d) i) as [kf Hkf]; [lia |].
  rewrite Forall_lookup in Hir. pose proof (Hir _ _ Hkf) as Hkflt.
  exists i, kf. split_and!; try done.
  - by apply list_lookup_total_correct.
  - by apply list_lookup_total_correct.
Qed.

(** ** binary64: NaN *)

Lemma is_nan_Prim2SF (x : float) :
  PrimFloat.is_nan x = true ↔ Prim2SF x = S754_nan.
Proof.
  split.
  - intros Hx. unfold Prim2SF. by rewrite Hx.
  - intros Hx. unfold PrimFloat.is_nan. by rewrite FloatAxioms.eqb_spec, Hx.
Qed.

Lemma is_nan_mul (x y : float) :
  PrimFloat.is_nan x = true ∨ PrimFloat.is_nan y = true →
  PrimFloat.is_nan (x * y) = true.
Proof.
  rewrite !is_nan_Prim2SF, mul_spec.
  intros [->| ->]; [done |]. by destruct (Prim2SF x).
Qed.

Lemma is_nan_add (x y : float) :
  PrimFloat.is_nan x = true ∨ PrimFloat.is_nan y = true →
  PrimFloat.is_nan (x + y) = true.
Proof.
  rewrite !is_nan_Prim2SF, add_spec.
  intros [->| ->]; [done |]. by destruct (Prim2SF x).
Qed.

Lemma is_nan_div_l (x y : float) :
  PrimFloat.is_nan x = true → PrimFloat.is_nan (x / y) = true.
Proof. rewrite !is_nan_Prim2SF, div_spec. by intros ->. Qed.

Lemma is_nan_sqrt (x : float) :
  PrimFloat.is_nan x = true → PrimFloat.is_nan (PrimFloat.sqrt x) = true.
Proof. rewrite !is_nan_Prim2SF, sqrt_spec. by intros ->. Qed.

Lemma is_nan_sqrt_negative (x : float) :
  PrimFloat.ltb x 0 = true → PrimFloat.is_nan (PrimFloat.sqrt x) = true.
Proof.
  rewrite ltb_spec, is_nan_Prim2SF, sqrt_spec.
  change (Prim2SF 0) with (S754_zero false).
  by destruct (Prim2SF x) as [[]|[]| |[] ? ?].
Qed.

Lemma ltb_nan_l (x y : float) :
  PrimFloat.is_nan x = true → PrimFloat.ltb x y = false.
Proof. rewrite is_nan_Prim2SF, ltb_spec. by intros ->. Qed.

Lemma clamp_velocity_nan (x : float) :
  PrimFloat.is_nan x = true → clamp_velocity x = x.
Proof.
  intros Hx. unfold clamp_velocity. cbn [fltb binary64].
  by rewrite (ltb_nan_l _ _ Hx).
Qed.

Lemma velocity_at_nan (v : array4 float) b k i :
  i < 3 → PrimFloat.ltb (at4 v b i i k) 0 = true →
  PrimFloat.is_nan (velocity_at v b k) = true.
Proof.
  intros Hi Hneg. apply is_nan_sqrt_negative in Hneg.
  unfold velocity_at. cbn [fsqrt fadd fmul binary64].
  apply is_nan_sqrt.
  destruct i as [|[|[|i]]]; [| | | lia].
  - apply is_nan_add. left. apply is_nan_add. left. apply is_nan_mul. by left.
  - apply is_nan_add. left. apply is_nan_add. right. apply is_nan_mul. by left.
  - apply is_nan_add. right. apply is_nan_mul. by left.
Qed.

(** ** binary64: rounding keeps the sign *)

Section rounding.
Local Open Scope Z_scope.
Variables prec emax : Z.











End rounding.

(** ** binary64: the order *)








(** ** binary64: non-negative values *)







(** ** binary64: the difference of two ordered values *)

Section subtraction.
Local Open Scope Z_scope.






End subtraction.



(** ** binary64: maxima and minima *)
















(** ** MeanFreePathScattering *)



(** ** get_dos_effective_masses *)

Lemma ix2_tab2 {A} n m (f : nat → nat → A) i j :
  i < n → j < m → ix2 (tab2 n m f) i j = Some (f i j).
Proof.
  intros. unfold ix2, tab2. rewrite tab_lookup by done. cbn.
  by rewrite tab_lookup.
Qed.

Lemma ir_lookup {F} nk (d : AmsetData F) q :
  Forall (λ i, i < nk) (ir_kpoints_idx d) →
  q < length (ir_kpoints_idx d) →
  ∃ kf, ir_kpoints_idx d !! q = Some kf ∧ kf < nk
        ∧ ir_kpoints_idx d !!! q = kf.
Proof.
  intros Hir Hq.
  destruct (lookup_lt_is_Some_2 (ir_kpoints_idx d) q) as [kf Hkf]; [lia |].
  rewrite Forall_lookup in Hir. exists kf. split_and!; [done | eauto |].
  by apply list_lookup_total_correct.
Qed.

Lemma get_dos_effective_masses_Ok {F} `{Float64 F} `{Externals F}
    (d : AmsetData F) nb nk :
  masses_shaped nb nk d →
  Forall (λ i, i < nk) (ir_kpoints_idx d) →
  ∃ dos, get_dos_effective_masses d = Ok dos
    ∧ (∀ s, s ∉ spins d → dos !! s = None)
    ∧ ∀ s, s ∈ spins d →
        ∃ m, effective_mass d !! s = Some m
          ∧ dos !! s
            = Some (tab2 (nb s) (length (ir_kpoints_idx d))
                      (λ b q, dos_mass_at m b (ir_kpoints_idx d !!! q))).
Proof.
  intros Hm Hir. unfold get_dos_effective_masses.
  match goal with |- context [dict_comp ?g _] => set (f := g) end.
  assert (∀ s, s ∈ spins d →
    ∃ m, effective_mass d !! s = Some m ∧
      f s = Ok (tab2 (nb s) (length (ir_kpoints_idx d))
                  (λ b q, dos_mass_at m b (ir_kpoints_idx d !!! q))))
    as Hf.
  { intros s (m & Hms & Hsh)%Hm. exists m. split; [done |]. unfold f.
    rewrite (dict_get_Some _ _ _ _ Hms), bind_Ok.
    rewrite (to_tab4 _ _ _ _ m Hsh) at 1.
    rewrite take_idx4_tab4, bind_Ok by done.
    rewrite np_diagonal12_tab4.
    change (arr3_map fabs) with (arr2_map (fmap (M := list) fabs)).
    by rewrite !arr2_map_tab2. }
  destruct (dict_comp_is_Ok f (spins d)) as [dos Hdos].
  { intros s Hs. destruct (Hf s Hs) as (m & _ & ->). eauto. }
  exists dos. split_and!; [done | |].
  - intros s Hs. by rewrite (dict_comp_lookup _ _ _ Hdos s), decide_False.
  - intros s Hs. destruct (Hf s Hs) as (m & Hms & Hfs). exists m.
    split; [done |].
    by rewrite (dict_comp_lookup _ _ _ Hdos s), decide_True, Hfs.
Qed.

Lemma Rpower_8_third : Rpower 8 (1 / 3) = 2%R.
Proof.
  replace 8%R with (Rpower 2 (INR 3)).
  - rewrite Rpower_mult. replace (INR 3 * (1 / 3))%R with 1%R.
    + apply Rpower_1. lra.
    + cbn. lra.
  - rewrite Rpower_pow by lra. lra.
Qed.

(** C6.  On a well-formed dataset the helper returns, per spin, an array
    of shape (nbands, n-irreducible-k) whose entry at a band and an
    irreducible k-point is [(|m1| * |m2| * |m3|) ** (1 / 3)] for the three
    diagonal elements of the effective-mass tensor there.  In exact
    arithmetic, with the real power function, principal masses of absolute
    values 1, 2 and 4 give exactly 2. *)
Theorem get_dos_effective_masses_spec :
  (∀ F (H : Float64 F) (E : Externals F) (d : AmsetData F) nb nk,
     masses_shaped nb nk d →
     Forall (λ i, i < nk) (ir_kpoints_idx d) →
     ∃ dos, get_dos_effective_masses d = Ok dos ∧
       ∀ s, s ∈ spins d →
         ∃ r m, dos !! s = Some r
           ∧ effective_mass d !! s = Some m
           ∧ shape2 (nb s) (length (ir_kpoints_idx d)) r
           ∧ ∀ b q, b < nb s → q < length (ir_kpoints_idx d) →
               ∃ kf, ir_kpoints_idx d !! q = Some kf
                 ∧ ix2 r b q
                   = Some (np_power
                             (fmul (fmul (fabs (at4 m b 0 0 kf))
                                         (fabs (at4 m b 1 1 kf)))
                                   (fabs (at4 m b 2 2 kf)))
                             (fdiv (of_int 1) (of_int 3))))
  ∧ (∀ (E : Externals R) (m : array4 R) b k,
       np_power = Rpower →
       Rabs (at4 m b 0 0 k) = 1%R →
       Rabs (at4 m b 1 1 k) = 2%R →
       Rabs (at4 m b 2 2 k) = 4%R →
       dos_mass_at m b k = 2%R).
Proof.
  split.
  - intros F H E d nb nk Hm Hir.
    destruct (get_dos_effective_masses_Ok d nb nk Hm Hir)
      as (dos & Hdos & _ & Hs).
    exists dos. split; [done |]. intros s Hin.
    destruct (Hs s Hin) as (m & Hms & Hr).
    eexists _, m. split_and!; [exact Hr | done | apply shape2_tab2 |].
    intros b q Hb Hq.
    destruct (ir_lookup nk d q Hir Hq) as (kf & Hkf & _ & Hkf').
    exists kf. split; [done |]. rewrite ix2_tab2 by done.
    by rewrite Hkf'.
  - intros E m b k Hpow H1 H2 H4. unfold dos_mass_at.
    rewrite Hpow. cbn. rewrite H1, H2, H4.
    replace (1 * 2 * 4)%R with 8%R by lra. apply Rpower_8_third.
Qed.

(** ** Loops that fill an array block by block *)

Lemma elem_of_np_ndindex n t sh :
  (n, t) ∈ np_ndindex sh ↔ n < sh.1 ∧ t < sh.2.
Proof.
  unfold np_ndindex. rewrite list_elem_of_bind. split.
  - intros (n' & Ht & Hn). apply list_elem_of_fmap in Ht as (t' & Heq & Ht).
    inversion Heq; subst. apply elem_of_seq in Hn, Ht. lia.
  - intros [Hn Ht]. exists n. split.
    + apply list_elem_of_fmap. exists t. split; [done |].
      apply elem_of_seq. lia.
    + apply elem_of_seq. lia.
Qed.

Lemma ix2_at2 `{Inhabited A} (a : array2 A) n t x :
  ix2 a n t = Some x → at2 a n t = x.
Proof.
  unfold ix2, at2. intros Hx.
  destruct (a !! n) as [r|] eqn:Hr; [| done]. cbn in Hx.
  rewrite (list_lookup_total_correct _ _ _ Hr).
  by apply list_lookup_total_correct.
Qed.

Lemma ix2_is_Some {A} n1 n2 (a : array2 A) n t :
  shape2 n1 n2 a → n < n1 → t < n2 → is_Some (ix2 a n t).
Proof.
  intros [Hn1 Hn2] Hn Ht. unfold ix2.
  destruct (lookup_lt_is_Some_2 a n) as [r Hr]; [lia |].
  rewrite Hr. cbn. apply lookup_lt_is_Some_2.
  rewrite Forall_lookup in Hn2. rewrite (Hn2 _ _ Hr). lia.
Qed.

Lemma ix2_set {A} (a : array2 A) n0 t0 (m : A) n t :
  ix2 (alter (λ r, <[t0 := m]> r) n0 a) n t
  = if decide ((n, t) = (n0, t0)) then (λ _, m) <$> ix2 a n t
    else ix2 a n t.
Proof.
  unfold ix2. destruct (decide (n = n0)) as [->|Hn].
  - rewrite list_lookup_alter_eq. destruct (a !! n0) as [r|]; cbn.
    + destruct (decide (t = t0)) as [->|Ht].
      * rewrite decide_True by done.
        destruct (decide (t0 < length r)) as [Hlt|Hge].
        -- rewrite list_lookup_insert_eq by done.
           destruct (lookup_lt_is_Some_2 r t0 Hlt) as [x ->]. done.
        -- rewrite list_insert_ge by lia.
           by rewrite lookup_ge_None_2 by lia.
      * rewrite decide_False by congruence.
        by rewrite list_lookup_insert_ne.
    + by case_decide.
  - rewrite list_lookup_alter_ne by done.
    rewrite decide_False by congruence. done.
Qed.

Lemma shape2_set {A} n1 n2 (a : array2 A) n0 t0 (m : A) :
  shape2 n1 n2 a → shape2 n1 n2 (alter (λ r, <[t0 := m]> r) n0 a).
Proof.
  intros [Hn1 Hn2]. split; [by rewrite length_alter |].
  apply Forall_lookup. intros i r Hr.
  rewrite Forall_lookup in Hn2.
  destruct (decide (i = n0)) as [->|Hi].
  - rewrite list_lookup_alter_eq in Hr.
    destruct (a !! n0) as [r0|] eqn:Hr0; [| done].
    inversion Hr; subst. rewrite length_insert. eauto.
  - rewrite list_lookup_alter_ne in Hr by done. eauto.
Qed.

Lemma fill_loop {A} n1 n2 (g : nat → nat → A) (l : list (nat * nat))
    (a : array2 A) :
  shape2 n1 n2 a →
  shape2 n1 n2
    (foldl (λ a nt, alter (λ r, <[nt.2 := g nt.1 nt.2]> r) nt.1 a) a l)
  ∧ ∀ n t,
      ix2 (foldl (λ a nt, alter (λ r, <[nt.2 := g nt.1 nt.2]> r) nt.1 a)
                 a l) n t
      = if decide ((n, t) ∈ l) then (λ _, g n t) <$> ix2 a n t
        else ix2 a n t.
Proof.
  revert a. induction l as [|[n0 t0] l IH]; intros a Hsh.
  - split; [done |]. intros n t. cbn.
    case_decide as Hin; [by apply elem_of_nil in Hin | done].
  - cbn. destruct (IH _ (shape2_set n1 n2 a n0 t0 (g n0 t0) Hsh))
      as [Hsh' Hix].
    split; [done |]. intros n t. rewrite Hix, ix2_set.
    destruct (decide ((n, t) = (n0, t0))) as [Heq|Hne].
    + rewrite (decide_True (P := (n, t) ∈ (n0, t0) :: l))
        by (rewrite Heq; left).
      inversion Heq; subst.
      case_decide; [| done]. by destruct (ix2 a n0 t0).
    + destruct (decide ((n, t) ∈ l)) as [Hl|Hl].
      * rewrite decide_True; [done | by right].
      * rewrite decide_False; [done |].
        intros [?|?]%elem_of_cons; done.
Qed.

(** Filling every cell of an array of shape [sh] by such a loop. *)
Lemma fill_loop_tab `{Inhabited A} sh (g : nat → nat → A) (a : array2 A) :
  shape2 sh.1 sh.2 a →
  foldl (λ a nt, alter (λ r, <[nt.2 := g nt.1 nt.2]> r) nt.1 a) a
        (np_ndindex sh)
  = tab2 sh.1 sh.2 g.
Proof.
  intros Hsh.
  destruct (fill_loop sh.1 sh.2 g (np_ndindex sh) a Hsh) as [Hsh' Hix].
  rewrite (to_tab2 _ _ _ Hsh') at 1.
  apply tab2_ext. intros n t Hn Ht. apply ix2_at2.
  rewrite Hix, decide_True by (by apply elem_of_np_ndindex).
  by destruct (ix2_is_Some sh.1 sh.2 a n t Hsh Hn Ht) as [x ->].
Qed.

Lemma fill_blocks_tab {F} `{Float64 F} (a : array4 F) sh (m : array2 F) :
  shape2 sh.1 sh.2 a →
  fill_blocks a sh m = tab2 sh.1 sh.2 (λ _ _, m).
Proof.
  intros Hsh. unfold fill_blocks, setblock.
  by rewrite <- (fill_loop_tab sh (λ _ _, m) a Hsh).
Qed.

(** A loop that replaces [m[k]] for each key, reading only [m]. *)
Lemma foldM_insert_lookup `{Countable K} {V}
    (step : gmap K V → K → result (gmap K V)) (val : K → V)
    (I : gmap K V → Prop) (P : K → Prop) keys (m0 : gmap K V) :
  (∀ m k, I m → P k → step m k = Ok (<[k := val k]> m)) →
  (∀ m k, I m → P k → I (<[k := val k]> m)) →
  I m0 → Forall P keys →
  ∃ m, foldM step m0 keys = Ok m ∧
    ∀ k, m !! k = if decide (k ∈ keys) then Some (val k) else m0 !! k.
Proof.
  intros Hstep Hinv. revert m0.
  induction keys as [|x l IH]; intros m0 Hm0 HP.
  - exists m0. split; [done |]. intros k.
    case_decide as Hin; [by apply elem_of_nil in Hin | done].
  - apply Forall_cons in HP as [Hx Hl]. cbn.
    rewrite Hstep, bind_Ok by done.
    destruct (IH (<[x := val x]> m0)) as (m & Hm & Hlook); [eauto | done |].
    exists m. split; [done |]. intros k. rewrite Hlook.
    destruct (decide (k ∈ l)) as [Hkl|Hkl].
    + rewrite decide_True; [done | by right].
    + destruct (decide (k = x)) as [->|Hne].
      * rewrite decide_True by left. by rewrite lookup_insert_eq.
      * rewrite lookup_insert_ne by done.
        rewrite decide_False; [done |].
        intros [?|?]%elem_of_cons; done.
Qed.

Lemma take_drop_tab {A B} k n (g : nat → A) (f h : A → B) :
  ((f <$> take k (tab n g)) ++ (h <$> drop k (tab n g)))%list
  = tab n (λ i, if decide (i < k) then f (g i) else h (g i)).
Proof.
  apply list_eq. intros i.
  destruct (decide (i < n)) as [Hi|Hi].
  - rewrite tab_lookup by done. destruct (decide (i < k)) as [Hk|Hk].
    + rewrite lookup_app_l.
      2:{ rewrite length_fmap, length_take, tab_length. lia. }
      rewrite list_lookup_fmap, lookup_take_lt, tab_lookup by done. done.
    + rewrite lookup_app_r.
      2:{ rewrite length_fmap, length_take, tab_length. lia. }
      rewrite length_fmap, length_take, tab_length.
      rewrite list_lookup_fmap, lookup_drop, tab_lookup by lia.
      cbn. do 3 f_equal. lia.
  - rewrite !lookup_ge_None_2; [done | rewrite tab_length; lia |].
    rewrite length_app, !length_fmap, length_take, length_drop, tab_length.
    lia.
Qed.

(** ** get_normalized_energies *)

Lemma traverse_is_Ok {A B} (f : A → result B) (l : list A) :
  (∀ x, x ∈ l → ∃ y, f x = Ok y) →
  ∃ l', traverse f l = Ok l' ∧ length l' = length l.
Proof.
  induction l as [|x l IH]; intros Hf; [by exists [] |].
  destruct (Hf x) as [y Hy]; [left |].
  destruct IH as (l' & Hl' & Hlen); [intros z Hz; apply Hf; by right |].
  exists (y :: l'). cbn. rewrite Hy, bind_Ok, Hl', bind_Ok.
  split; [done | by rewrite Hlen].
Qed.

Lemma np_max_is_Ok {F} `{Float64 F} (l : list F) :
  l ≠ [] → ∃ x, np_max l = Ok x.
Proof. destruct l; [done | cbn; eauto]. Qed.

Lemma np_min_is_Ok {F} `{Float64 F} (l : list F) :
  l ≠ [] → ∃ x, np_min l = Ok x.
Proof. destruct l; [done | cbn; eauto]. Qed.

Lemma concat_take_nonempty {A} n m k (a : array2 A) :
  shape2 n m a → 0 < n → 0 < m → concat (take (k + 1) a) ≠ [].
Proof.
  intros [Hn Hm] Hn0 Hm0. destruct a as [|r a]; cbn in *; [lia |].
  apply Forall_cons in Hm as [Hr _]. rewrite Nat.add_1_r. cbn.
  destruct r; cbn in *; [lia | done].
Qed.

Lemma concat_drop_nonempty {A} n m k (a : array2 A) :
  shape2 n m a → k < n → 0 < m → concat (drop k a) ≠ [].
Proof.
  intros [Hn Hm] Hk Hm0.
  destruct (lookup_lt_is_Some_2 a k) as [r Hr]; [lia |].
  rewrite Forall_lookup in Hm. pose proof (Hm _ _ Hr) as Hlen.
  destruct (drop k a) as [|r' a'] eqn:Hd.
  - apply (f_equal length) in Hd. rewrite length_drop in Hd. cbn in Hd. lia.
  - assert (r' = r) as ->.
    { pose proof (lookup_drop a k 0) as Hl. rewrite Hd in Hl. cbn in Hl.
      rewrite Nat.add_0_r, Hr in Hl. by inversion Hl. }
    cbn. destruct r; cbn in *; [lia | done].
Qed.

Lemma band_edges_Ok {F} `{Float64 F} (d : AmsetData F) nb nk :
  energies_shaped nb nk d → bands_ok nb d → 0 < nk →
  ∃ vbm cbm, vbm_e d = Ok vbm ∧ cbm_e d = Ok cbm.
Proof.
  intros Hen [Hne Hvb] Hnk.
  destruct (traverse_is_Ok (valence_max d) (spins d)) as (lv & Hlv & Hlenv).
  { intros s Hs. destruct (Hen s Hs) as (e & He & Hsh).
    destruct (Hvb s Hs) as (vb & Hvbs & Hlt). unfold valence_max.
    rewrite (dict_get_Some _ _ _ _ He), bind_Ok.
    rewrite (dict_get_Some _ _ _ _ Hvbs), bind_Ok.
    apply np_max_is_Ok. apply (concat_take_nonempty (nb s) nk); [done | lia | done]. }
  destruct (traverse_is_Ok (conduction_min d) (spins d))
    as (lc & Hlc & Hlenc).
  { intros s Hs. destruct (Hen s Hs) as (e & He & Hsh).
    destruct (Hvb s Hs) as (vb & Hvbs & Hlt). unfold conduction_min.
    rewrite (dict_get_Some _ _ _ _ He), bind_Ok.
    rewrite (dict_get_Some _ _ _ _ Hvbs), bind_Ok.
    apply np_min_is_Ok. by apply (concat_drop_nonempty (nb s) nk). }
  destruct (np_max_is_Ok lv) as [vbm Hvbm].
  { intros ->. destruct (spins d); [done | discriminate]. }
  destruct (np_min_is_Ok lc) as [cbm Hcbm].
  { intros ->. destruct (spins d); [done | discriminate]. }
  exists vbm, cbm. unfold vbm_e, cbm_e.
  by rewrite Hlv, Hlc, !bind_Ok.
Qed.

(** What [get_normalized_energies] returns on a well-formed dataset. *)
Lemma get_normalized_energies_Ok {F} `{Float64 F} (d : AmsetData F) nb nk :
  energies_shaped nb nk d →
  Forall (λ i, i < nk) (ir_kpoints_idx d) →
  (is_metal d = false → bands_ok nb d ∧ 0 < nk) →
  ∃ ne vbm cbm, get_normalized_energies d = Ok ne
    ∧ (is_metal d = false → vbm_e d = Ok vbm ∧ cbm_e d = Ok cbm)
    ∧ (∀ s, s ∉ spins d → ne !! s = None)
    ∧ ∀ s, s ∈ spins d →
        ∃ e vb, energies d !! s = Some e
          ∧ (is_metal d = false → vb_idx d !! s = Some vb)
          ∧ ne !! s
            = Some (tab4 (np_shape2 (fermi_levels d)).1
                         (np_shape2 (fermi_levels d)).2
                         (nb s) (length (ir_kpoints_idx d))
                      (λ _ _ b q,
                         normalized_energy d vbm cbm vb b
                           (at2 e b (ir_kpoints_idx d !!! q)))).
Proof.
  intros Hen Hir Hsemi. unfold get_normalized_energies. cbv zeta.
  set (fs := np_shape2 (fermi_levels d)).
  set (nir := length (ir_kpoints_idx d)).
  (* the allocation *)
  match goal with |- context [dict_comp ?g _] => set (alloc := g) end.
  destruct (dict_comp_is_Ok alloc (spins d)) as [energies0 H0].
  { intros s (e & He & _)%Hen. unfold alloc.
    rewrite (dict_get_Some _ _ _ _ He). eauto. }
  pose proof (dict_comp_lookup _ _ _ H0) as Hl0.
  rewrite H0, bind_Ok.
  set (I := λ m : gmap Spin (array4 F),
         ∀ s, s ∈ spins d → ∃ a, m !! s = Some a ∧ shape2 fs.1 fs.2 a).
  assert (I energies0) as HI0.
  { intros s Hs. destruct (Hen s Hs) as (e & He & _).
    rewrite Hl0, decide_True by done. unfold alloc.
    rewrite (dict_get_Some _ _ _ _ He). cbn. eexists. split; [done |].
    rewrite !replicate_tab. apply shape2_tab2. }
  assert (∀ (val : Spin → array4 F) m k,
            (∀ s, s ∈ spins d → ∃ g, val s = tab2 fs.1 fs.2 g) →
            I m → k ∈ spins d → I (<[k := val k]> m)) as HIpres.
  { intros val m k Hval Hm Hk s Hs. destruct (decide (s = k)) as [->|Hne].
    - rewrite lookup_insert_eq. destruct (Hval k Hk) as [g ->].
      eexists. split; [done | apply shape2_tab2].
    - rewrite lookup_insert_ne by done. by apply Hm. }
  destruct (is_metal d) eqn:Hmetal.
  - (* metallic *)
    set (val := λ s, match energies d !! s with
                     | Some e => tab4 fs.1 fs.2 (nb s) nir
                         (λ _ _ b q, normalized_energy d (of_int 0) (of_int 0)
                                       0 b (at2 e b (ir_kpoints_idx d !!! q)))
                     | None => []
                     end).
    match goal with |- context [foldM ?g _ _] => set (step := g) end.
    destruct (foldM_insert_lookup step val I (λ s, s ∈ spins d)
                (spins d) energies0) as (ne & Hne & Hlook); try done.
    + intros m k Hm Hk. unfold step, val.
      destruct (Hen k Hk) as (e & He & Hsh). rewrite He.
      rewrite (dict_get_Some _ _ _ _ He), bind_Ok.
      rewrite (to_tab2 _ _ e Hsh) at 1.
      rewrite take_idx2_tab2, bind_Ok by done.
      destruct (Hm k Hk) as (a & Ha & Hash).
      rewrite (dict_get_Some _ _ _ _ Ha), bind_Ok.
      rewrite (fill_blocks_tab a fs _ Hash), arr2_map_tab2.
      unfold normalized_energy. rewrite Hmetal. reflexivity.
    + intros m k Hm Hk. apply HIpres; [| done | done].
      intros s (e & He & _)%Hen. unfold val. rewrite He. by eexists.
    + by apply Forall_forall.
    + exists ne, (of_int 0), (of_int 0). split_and!; [done | done | |].
      * intros s Hs. rewrite Hlook, decide_False by done.
        by rewrite Hl0, decide_False.
      * intros s Hs. destruct (Hen s Hs) as (e & He & _).
        exists e, 0. split_and!; [done | done |].
        rewrite Hlook, decide_True by done. unfold val. by rewrite He.
  - (* semiconducting *)
    destruct (Hsemi eq_refl) as [Hbands Hnk].
    destruct (band_edges_Ok d nb nk Hen Hbands Hnk)
      as (vbm & cbm & Hvbm & Hcbm).
    rewrite Hvbm, bind_Ok, Hcbm, bind_Ok.
    destruct Hbands as [_ Hvb].
    set (val := λ s, match energies d !! s, vb_idx d !! s with
                     | Some e, Some vb => tab4 fs.1 fs.2 (nb s) nir
                         (λ _ _ b q, normalized_energy d vbm cbm vb b
                                       (at2 e b (ir_kpoints_idx d !!! q)))
                     | _, _ => []
                     end).
    match goal with |- context [foldM ?g _ _] => set (step := g) end.
    destruct (foldM_insert_lookup step val I (λ s, s ∈ spins d)
                (spins d) energies0) as (ne & Hne & Hlook); try done.
    + intros m k Hm Hk. unfold step, val.
      destruct (Hen k Hk) as (e & He & Hsh). rewrite He.
      destruct (Hvb k Hk) as (vb & Hvbk & Hlt). rewrite Hvbk.
      rewrite (dict_get_Some _ _ _ _ He), bind_Ok.
      rewrite (to_tab2 _ _ e Hsh) at 1.
      rewrite take_idx2_tab2, bind_Ok by done.
      rewrite (dict_get_Some _ _ _ _ Hvbk), bind_Ok.
      destruct (Hm k Hk) as (a & Ha & Hash).
      rewrite (dict_get_Some _ _ _ _ Ha), bind_Ok.
      rewrite (fill_blocks_tab a fs _ Hash).
      unfold arr2_map, tab2 at 2 3. rewrite take_drop_tab.
      do 3 f_equal. unfold tab4, tab2.
      apply tab_ext. intros _ _. apply tab_ext. intros _ _.
      apply tab_ext. intros b _.
      unfold normalized_energy. rewrite Hmetal.
      case_decide; by rewrite tab_fmap.
    + intros m k Hm Hk. apply HIpres; [| done | done].
      intros s Hs. destruct (Hen s Hs) as (e & He & _).
      destruct (Hvb s Hs) as (vb & Hvbs & _).
      unfold val. rewrite He, Hvbs. by eexists.
    + by apply Forall_forall.
    + exists ne, vbm, cbm. split_and!; [done | done | |].
      * intros s Hs. rewrite Hlook, decide_False by done.
        by rewrite Hl0, decide_False.
      * intros s Hs. destruct (Hen s Hs) as (e & He & _).
        destruct (Hvb s Hs) as (vb & Hvbs & _).
        exists e, vb. split_and!; [done | done |].
        rewrite Hlook, decide_True by done. unfold val.
        by rewrite He, Hvbs.
Qed.

Lemma traverse_elem {A B} (f : A → result B) (l : list A) l' x :
  traverse f l = Ok l' → x ∈ l → ∃ y, f x = Ok y ∧ y ∈ l'.
Proof.
  revert l'. induction l as [|z l IH]; intros l' Hl Hx.
  - by apply elem_of_nil in Hx.
  - cbn in Hl. apply bind_Ok_inv in Hl as (y & Hy & Hl).
    apply bind_Ok_inv in Hl as (ys & Hys & Hl). inversion Hl; subst.
    apply elem_of_cons in Hx as [->|Hx].
    + exists y. split; [done | left].
    + destruct (IH _ Hys Hx) as (y' & Hy' & Hin). exists y'.
      split; [done | by right].
Qed.

Lemma at2_elem `{Inhabited A} n m (a : array2 A) i j :
  shape2 n m a → i < n → j < m →
  ∃ r, a !! i = Some r ∧ r !! j = Some (at2 a i j).
Proof.
  intros [Hn Hm] Hi Hj.
  destruct (lookup_lt_is_Some_2 a i) as [r Hr]; [lia |].
  rewrite Forall_lookup in Hm. pose proof (Hm _ _ Hr) as Hlen.
  exists r. split; [done |]. unfold at2.
  rewrite (list_lookup_total_correct _ _ _ Hr).
  apply list_lookup_lookup_total_lt. lia.
Qed.


(** ** The band edges in binary64 *)











(** ** Elementwise operations and broadcasting *)

Lemma zip_fmap_same {A B C} (f : A → B) (g : A → C) (l : list A) :
  zip (f <$> l) (g <$> l) = (λ x, (f x, g x)) <$> l.
Proof. induction l as [|x l IH]; [done |]. cbn. by rewrite IH. Qed.

Lemma zip_tab {A B} n (f : nat → A) (g : nat → B) :
  zip (tab n f) (tab n g) = tab n (λ i, (f i, g i)).
Proof. apply zip_fmap_same. Qed.

Lemma bzip_zip {A B C} (f : A → B → result C) la lb :
  length la = length lb →
  bzip f la lb = traverse (λ p, f p.1 p.2) (zip la lb).
Proof.
  intros Hlen. unfold bzip.
  destruct la as [|x [|x' la]], lb as [|y [|y' lb]]; try done;
    by rewrite decide_True.
Qed.

Lemma bzip_singleton_r {A B C} (f : A → B → result C) la y :
  length la ≠ 1 → bzip f la [y] = traverse (λ x, f x y) la.
Proof. by destruct la as [|x [|x' la]]. Qed.

Lemma bzip_tab {A B C} (f : A → B → result C) n g h k :
  (∀ i, i < n → f (g i) (h i) = Ok (k i)) →
  bzip f (tab n g) (tab n h) = Ok (tab n k).
Proof.
  intros Hk. rewrite bzip_zip by (by rewrite !tab_length).
  rewrite zip_tab. by apply traverse_tab.
Qed.

Lemma bzip_tab_l {A B C} (f : A → B → result C) x n h k :
  (∀ i, i < n → f x (h i) = Ok (k i)) →
  bzip f [x] (tab n h) = Ok (tab n k).
Proof. intros Hk. by apply traverse_tab. Qed.

Lemma bzip_tab_r {A B C} (f : A → B → result C) n g y k :
  (∀ i, i < n → f (g i) y = Ok (k i)) →
  bzip f (tab n g) [y] = Ok (tab n k).
Proof.
  intros Hk. destruct (decide (n = 1)) as [->|Hn].
  - rewrite !tab_1. cbn. by rewrite Hk by lia.
  - rewrite bzip_singleton_r by (by rewrite tab_length).
    by apply traverse_tab.
Qed.

Lemma bmap4_full {F} `{Float64 F} op n m p q
    (f g : nat → nat → nat → nat → F) :
  bmap4 op (tab4 n m p q f) (tab4 n m p q g)
  = Ok (tab4 n m p q (λ i j k l, op (f i j k l) (g i j k l))).
Proof.
  unfold bmap4, tab4, tab2.
  apply bzip_tab. intros i _. apply bzip_tab. intros j _.
  apply bzip_tab. intros k _. apply bzip_tab. intros l _. done.
Qed.

Lemma bmap4_small_l {F} `{Float64 F} op n m p q
    (f g : nat → nat → nat → nat → F) :
  bmap4 op (tab4 n m 1 1 f) (tab4 n m p q g)
  = Ok (tab4 n m p q (λ i j k l, op (f i j 0 0) (g i j k l))).
Proof.
  unfold bmap4, tab4, tab2.
  apply bzip_tab. intros i _. apply bzip_tab. intros j _.
  rewrite !tab_1.
  apply bzip_tab_l. intros k _. apply bzip_tab_l. intros l _. done.
Qed.

Lemma bmap4_small_r {F} `{Float64 F} op n m p q
    (f g : nat → nat → nat → nat → F) :
  bmap4 op (tab4 n m p q f) (tab4 n m 1 1 g)
  = Ok (tab4 n m p q (λ i j k l, op (f i j k l) (g i j 0 0))).
Proof.
  unfold bmap4, tab4, tab2.
  apply bzip_tab. intros i _. apply bzip_tab. intros j _.
  rewrite !tab_1.
  apply bzip_tab_r. intros k _. apply bzip_tab_r. intros l _. done.
Qed.

Lemma lift4_full {F} `{Float64 F} op n m p q
    (f g : nat → nat → nat → nat → F) :
  lift4 op (Ok (tab4 n m p q f)) (Ok (tab4 n m p q g))
  = Ok (tab4 n m p q (λ i j k l, op (f i j k l) (g i j k l))).
Proof. apply bmap4_full. Qed.

Lemma lift4_small_l {F} `{Float64 F} op n m p q
    (f g : nat → nat → nat → nat → F) :
  lift4 op (Ok (tab4 n m 1 1 f)) (Ok (tab4 n m p q g))
  = Ok (tab4 n m p q (λ i j k l, op (f i j 0 0) (g i j k l))).
Proof. apply bmap4_small_l. Qed.

Lemma lift4_small_r {F} `{Float64 F} op n m p q
    (f g : nat → nat → nat → nat → F) :
  lift4 op (Ok (tab4 n m p q f)) (Ok (tab4 n m 1 1 g))
  = Ok (tab4 n m p q (λ i j k l, op (f i j k l) (g i j 0 0))).
Proof. apply bmap4_small_r. Qed.

Lemma map4r_tab4 {F} `{Float64 F} (g : F → F) n m p q
    (f : nat → nat → nat → nat → F) :
  map4r g (Ok (tab4 n m p q f))
  = Ok (tab4 n m p q (λ i j k l, g (f i j k l))).
Proof. unfold map4r. by rewrite bind_Ok, arr4_map_tab4. Qed.

Lemma mzip_tab {A B C} (f : A → B → result C) n g h k :
  (∀ i, i < n → f (g i) (h i) = Ok (k i)) →
  mzip f (tab n g) (tab n h) = Ok (tab n k).
Proof.
  intros Hk. unfold mzip. rewrite decide_True by (by rewrite !tab_length).
  rewrite zip_tab. by apply traverse_tab.
Qed.

Lemma mask_set4_tab4 {F} `{Float64 F} n m p q
    (mask : nat → nat → nat → nat → bool) x
    (f : nat → nat → nat → nat → F) :
  mask_set4 (tab4 n m p q mask) x (tab4 n m p q f)
  = Ok (tab4 n m p q (λ i j k l, if mask i j k l then x else f i j k l)).
Proof.
  unfold mask_set4, tab4, tab2.
  apply mzip_tab. intros i _. apply mzip_tab. intros j _.
  apply mzip_tab. intros k _. apply mzip_tab. intros l _. done.
Qed.

Lemma expand_dims2_tab2 {F} n m (f : nat → nat → F) :
  expand_dims2 (tab2 n m f) = tab4 n m 1 1 (λ i j _ _, f i j).
Proof. unfold expand_dims2. by rewrite arr2_map_tab2. Qed.

(** The leading axes of an array shaped after [fermi_levels]. *)
Lemma tab4_np_shape2 {A B} nd nt (fl : array2 B) p q
    (f : nat → nat → nat → nat → A) :
  shape2 nd nt fl →
  tab4 (np_shape2 fl).1 (np_shape2 fl).2 p q f = tab4 nd nt p q f.
Proof.
  intros Hfl. destruct (np_shape2_spec _ _ _ Hfl) as [-> H2].
  destruct nd as [|nd]; [done |]. by rewrite H2.
Qed.

Lemma tab2_np_shape2 {A B} nd nt (fl : array2 B) (f : nat → nat → A) :
  shape2 nd nt fl →
  tab2 (np_shape2 fl).1 (np_shape2 fl).2 f = tab2 nd nt f.
Proof.
  intros Hfl. destruct (np_shape2_spec _ _ _ Hfl) as [-> H2].
  destruct nd as [|nd]; [done |]. by rewrite H2.
Qed.

(** ** BrooksHerringScattering *)

Lemma foldM_pure {A S} (body : S → A → result S) (pure : S → A → S)
    (I : S → Prop) (l : list A) (s0 : S) :
  (∀ s x, I s → x ∈ l → body s x = Ok (pure s x) ∧ I (pure s x)) →
  I s0 → foldM body s0 l = Ok (foldl pure s0 l).
Proof.
  revert s0. induction l as [|x l IH]; intros s0 Hstep Hs0; [done |].
  cbn. destruct (Hstep s0 x Hs0) as [-> HI]; [left |].
  rewrite bind_Ok. apply IH; [| done].
  intros s y Hs Hy. apply Hstep; [done | by right].
Qed.

Lemma getitem_lt {A} (l : list A) i :
  i < length l → ∃ x, getitem l i = Ok x.
Proof.
  intros Hi. unfold getitem.
  destruct (lookup_lt_is_Some_2 l i Hi) as [x ->]. eauto.
Qed.

Lemma getitem2_at2 `{Inhabited A} n m (a : array2 A) i j :
  shape2 n m a → i < n → j < m → getitem2 a i j = Ok (at2 a i j).
Proof.
  intros Hsh Hi Hj. destruct (at2_elem n m a i j Hsh Hi Hj) as (r & Hr & Hx).
  unfold getitem2, getitem. by rewrite Hr, bind_Ok, Hx.
Qed.

Lemma py_pow_Ok {F} `{Float64 F} `{Externals F} (x : F) n :
  py_pow_overflows x n = false → py_pow x n = Ok (pow_int x n).
Proof. unfold py_pow. by intros ->. Qed.

Lemma py_pow_overflow {F} `{Float64 F} `{Externals F} (x : F) n :
  py_pow_overflows x n = true → py_pow x n = Raise OverflowError.
Proof. unfold py_pow. by intros ->. Qed.

Lemma bh_impurity_concentration_Ok {F} `{Float64 F} `{Externals F}
    (self : BasicScattering F) (d : AmsetData F) isl nd nt donor acceptor :
  properties self !! "donor_charge" = Some donor →
  properties self !! "acceptor_charge" = Some acceptor →
  py_pow_overflows donor 2 = false →
  py_pow_overflows acceptor 2 = false →
  shape2 nd nt (fermi_levels d) →
  shape2 nd nt (electron_conc d) →
  shape2 nd nt (hole_conc d) →
  shape2 nd nt isl →
  length (doping d) = nd → length (temperatures d) = nt →
  bh_impurity_concentration self d isl
  = Ok (tab2 nd nt (λ n t, bh_impurity (at2 (electron_conc d) n t)
                                       (at2 (hole_conc d) n t)
                                       donor acceptor)).
Proof.
  intros Hdon Hacc Hod Hoa Hfl Hec Hhc Hisl Hdop Htemp.
  unfold bh_impurity_concentration.
  set (g := λ n t, bh_impurity (at2 (electron_conc d) n t)
                               (at2 (hole_conc d) n t) donor acceptor).
  assert (∀ n t, (n, t) ∈ np_ndindex (np_shape2 isl) → n < nd ∧ t < nt)
    as Hrange.
  { intros n t [Hn Ht]%elem_of_np_ndindex.
    destruct (np_shape2_spec _ _ _ Hisl) as [H1 H2].
    rewrite H1 in Hn. rewrite H2 in Ht by lia. done. }
  assert (shape2 nd nt (np_zeros2 (np_shape2 (fermi_levels d)))) as Hz.
  { unfold np_zeros2. rewrite !replicate_tab.
    change (shape2 nd nt (tab2 (np_shape2 (fermi_levels d)).1
                               (np_shape2 (fermi_levels d)).2
                               (λ _ _, of_int 0))).
    rewrite (tab2_np_shape2 nd nt) by done. apply shape2_tab2. }
  rewrite (foldM_pure _
    (λ a nt, alter (λ r, <[nt.2 := g nt.1 nt.2]> r) nt.1 a)
    (shape2 nd nt)); [| | done].
  - f_equal. rewrite fill_loop_tab.
    + by apply tab2_np_shape2.
    + destruct (np_shape2_spec _ _ _ Hisl) as [H1 H2]. rewrite H1.
      destruct nd as [|nd']; [by destruct Hz as [->%nil_length_inv _] |].
      by rewrite H2.
  - intros a [n t] Ha [Hn Ht]%Hrange. cbn.
    rewrite (getitem2_at2 nd nt (electron_conc d)), bind_Ok by done.
    rewrite (getitem2_at2 nd nt (hole_conc d)), bind_Ok by done.
    rewrite (dict_get_Some _ _ _ _ Hdon), bind_Ok.
    rewrite (py_pow_Ok _ _ Hod), bind_Ok.
    rewrite (dict_get_Some _ _ _ _ Hacc), bind_Ok.
    rewrite (py_pow_Ok _ _ Hoa), bind_Ok.
    unfold setitem2. rewrite (getitem2_at2 nd nt a), bind_Ok by done.
    rewrite bind_Ok.
    destruct (getitem_lt (doping d) n) as [x ->]; [lia |].
    destruct (getitem_lt (temperatures d) t) as [y ->]; [lia |].
    rewrite !bind_Ok. split; [done |]. by apply shape2_set.
Qed.

(** The rates of one spin before the edge cases are zeroed, as a function
    of the index. *)
Lemma bh_raw_rates_Ok {F} `{Float64 F} `{Externals F}
    (self : BasicScattering F) (d : AmsetData F) nd nt nb nk s
    (P S : nat → nat → F) ne dos (En : nat → nat → nat → nat → F)
    (M : nat → nat → F) v c :
  length (self_doping self) = nd →
  length (self_temperatures self) = nt →
  ne !! s = Some (tab4 nd nt nb (length (ir_kpoints_idx d)) En) →
  dos !! s = Some (tab2 nb (length (ir_kpoints_idx d)) M) →
  velocities_product d !! s = Some v → shape4 nb 3 3 nk v →
  c_factor d !! s = Some c → shape2 nb nk c →
  Forall (λ i, i < nk) (ir_kpoints_idx d) →
  bh_raw_rates self d (tab4 nd nt 1 1 (λ n t _ _, P n t))
    (tab4 nd nt 1 1 (λ n t _ _, S n t)) ne dos s
  = Ok (tab4 nd nt nb (length (ir_kpoints_idx d)) En,
        tab4 nd nt nb (length (ir_kpoints_idx d))
          (λ n t b q,
             bh_rate (P n t) (S n t)
               (at2 c b (ir_kpoints_idx d !!! q))
               (bh_velocity (velocity_at v b (ir_kpoints_idx d !!! q)))
               (bh_k_sq (M b q) (En n t b q)))).
Proof.
  intros Hnd Hnt Hne Hdos Hv Hvsh Hc Hcsh Hir. unfold bh_raw_rates.
  cbv zeta. rewrite Hnd, Hnt.
  rewrite (dict_get_Some _ _ _ _ Hdos), bind_Ok.
  rewrite (dict_get_Some _ _ _ _ Hne), bind_Ok.
  rewrite np_tile2_tab2.
  rewrite (map4r_tab4 (fmul (of_int 2)) nd nt nb), lift4_full, bind_Ok.
  rewrite (velocity_norms_Ok d s v nb nk), bind_Ok by done.
  rewrite !arr2_map_tab2, np_tile2_tab2.
  rewrite (dict_get_Some _ _ _ _ Hc), bind_Ok.
  rewrite (to_tab2 _ _ c Hcsh) at 1.
  rewrite take_idx2_tab2, bind_Ok by done.
  rewrite np_tile2_tab2.
  repeat first
    [ rewrite map4r_tab4 | rewrite lift4_full | rewrite lift4_small_l
    | rewrite lift4_small_r | rewrite bind_Ok ].
  reflexivity.
Qed.

Lemma bh_zero_edge_cases_tab4 {F} `{Float64 F} `{Externals F} n m p q
    (En R : nat → nat → nat → nat → F) :
  bh_zero_edge_cases (tab4 n m p q En) (tab4 n m p q R)
  = Ok (tab4 n m p q (λ i j k l, bh_zeroed (En i j k l) (R i j k l))).
Proof.
  unfold bh_zero_edge_cases.
  rewrite !arr4_map_tab4, mask_set4_tab4, bind_Ok, mask_set4_tab4.
  reflexivity.
Qed.

(** What [BrooksHerringScattering.__init__] computes on a well-formed
    dataset: the setup, and per spin the raw rates, the rates with the edge
    cases zeroed, and their expansion to the full mesh. *)
Lemma BrooksHerringScattering_Ok {F} `{Float64 F} `{Externals F}
    (props : gmap string F) (d : AmsetData F) nd nt nb nk
    acceptor donor eps :
  props !! "acceptor_charge" = Some acceptor →
  props !! "donor_charge" = Some donor →
  props !! "static_dielectric" = Some eps →
  py_pow_overflows donor 2 = false →
  py_pow_overflows acceptor 2 = false →
  py_pow_overflows eps 2 = false →
  dataset_ok nd nt nb nk d →
  shape2 nd nt (calculate_inverse_screening_length_sq d eps) →
  ∃ st ne dos self,
    BrooksHerringScattering_setup props d = Ok st
    ∧ get_normalized_energies d = Ok ne
    ∧ bh_normalized_energies st = ne
    ∧ get_dos_effective_masses d = Ok dos
    ∧ bh_dos_effective_masses st = dos
    ∧ bh_inverse_screening_length_sq st
      = calculate_inverse_screening_length_sq d eps
    ∧ bh_impurity_conc st
      = tab2 nd nt (λ n t, bh_impurity (at2 (electron_conc d) n t)
                                       (at2 (hole_conc d) n t)
                                       donor acceptor)
    ∧ BrooksHerringScattering_init props d = Ok self
    ∧ (∀ s, s ∉ spins d → rates self !! s = None)
    ∧ ∀ s, s ∈ spins d →
        ∃ En M v c,
          ne !! s = Some (tab4 nd nt (nb s) (length (ir_kpoints_idx d)) En)
          ∧ dos !! s = Some (tab2 (nb s) (length (ir_kpoints_idx d)) M)
          ∧ velocities_product d !! s = Some v
          ∧ c_factor d !! s = Some c
          ∧ bh_raw_rates (bh_self st) d (bh_prefactor4 st) (bh_screening st)
              ne dos s
            = Ok (tab4 nd nt (nb s) (length (ir_kpoints_idx d)) En,
                  tab4 nd nt (nb s) (length (ir_kpoints_idx d))
                    (λ n t b q,
                       bh_entry d
                         (calculate_inverse_screening_length_sq d eps)
                         donor acceptor eps v c (M b q) (En n t b q)
                         n t b (ir_kpoints_idx d !!! q)))
          ∧ bh_ir_rates (bh_self st) d (bh_prefactor4 st) (bh_screening st)
              ne dos s
            = Ok (tab4 nd nt (nb s) (length (ir_kpoints_idx d))
                    (λ n t b q,
                       bh_zeroed (En n t b q)
                         (bh_entry d
                            (calculate_inverse_screening_length_sq d eps)
                            donor acceptor eps v c (M b q) (En n t b q)
                            n t b (ir_kpoints_idx d !!! q))))
          ∧ rates self !! s
            = Some (tab4 nd nt (nb s) nk
                      (λ n t b k,
                         bh_zeroed
                           (En n t b (ir_to_full_kpoint_mapping d !!! k))
                           (bh_entry d
                              (calculate_inverse_screening_length_sq d eps)
                              donor acceptor eps v c
                              (M b (ir_to_full_kpoint_mapping d !!! k))
                              (En n t b (ir_to_full_kpoint_mapping d !!! k))
                              n t b
                              (ir_kpoints_idx d !!!
                                 (ir_to_full_kpoint_mapping d !!! k))))).
Proof.
  intros Hacc Hdon Heps Hod Hoa Hoe
    (Hfl & Hec & Hhc & Hdop & Htemp & Hen & Hvel & Hmass & Hcf
     & (Hir & Hlen & Hfull) & Hsemi) Hisl.
  set (isl := calculate_inverse_screening_length_sq d eps) in *.
  set (nir := length (ir_kpoints_idx d)).
  set (imp := λ n t, bh_impurity (at2 (electron_conc d) n t)
                                 (at2 (hole_conc d) n t) donor acceptor).
  (* the setup *)
  destruct (AbstractBasicScattering_init_Ok (required_properties IMP)
              props d) as (base & Hbase & Hp & _ & Hbd & Hbt & Hbs & _).
  { intros k Hk. cbn in Hk. set_unfold.
    destruct Hk as [->|[->|[->|[]]]]; by eexists. }
  { intros s (e & He & _)%Hen. eauto. }
  assert (properties base !! "static_dielectric" = Some eps) as Hpe.
  { rewrite Hp, decide_True; [done | cbn; rewrite !elem_of_cons; auto]. }
  assert (properties base !! "donor_charge" = Some donor) as Hpd.
  { rewrite Hp, decide_True; [done | cbn; rewrite !elem_of_cons; auto]. }
  assert (properties base !! "acceptor_charge" = Some acceptor) as Hpa.
  { rewrite Hp, decide_True; [done | cbn; rewrite !elem_of_cons; auto]. }
  destruct (get_normalized_energies_Ok d nb nk Hen Hir Hsemi)
    as (ne & vbm & cbm & Hne & _ & _ & Hnes).
  destruct (get_dos_effective_masses_Ok d nb nk Hmass Hir)
    as (dos & Hdos & _ & Hdoss).
  pose (st := {| bh_self := base;
                 bh_inverse_screening_length_sq := isl;
                 bh_impurity_conc := tab2 nd nt imp;
                 bh_normalized_energies := ne;
                 bh_dos_effective_masses := dos;
                 bh_screening := expand_dims2 isl;
                 bh_prefactor4 :=
                   expand_dims2 (arr2_map (λ x, bh_prefactor x eps)
                                          (tab2 nd nt imp)) |}).
  assert (BrooksHerringScattering_setup props d = Ok st) as Hst.
  { unfold BrooksHerringScattering_setup.
    rewrite Hbase, bind_Ok.
    rewrite (dict_get_Some _ _ _ _ Hpe), bind_Ok. fold isl.
    rewrite (bh_impurity_concentration_Ok base d isl nd nt donor acceptor)
      by done.
    rewrite bind_Ok, Hne, bind_Ok, Hdos, !bind_Ok.
    by rewrite (py_pow_Ok _ _ Hoe), bind_Ok. }
  assert (bh_prefactor4 st
          = tab4 nd nt 1 1 (λ n t _ _, bh_prefactor (imp n t) eps)) as HP.
  { cbn. by rewrite arr2_map_tab2, expand_dims2_tab2. }
  assert (bh_screening st = tab4 nd nt 1 1 (λ n t _ _, at2 isl n t)) as HS.
  { cbn. rewrite (to_tab2 _ _ isl Hisl) at 1. apply expand_dims2_tab2. }
  assert (length (self_doping base) = nd) as Hbd' by (by rewrite Hbd).
  assert (length (self_temperatures base) = nt) as Hbt'
    by (by rewrite Hbt).
  (* one spin *)
  assert (∀ s, s ∈ spins d →
    ∃ En M v c,
      ne !! s = Some (tab4 nd nt (nb s) nir En)
      ∧ dos !! s = Some (tab2 (nb s) nir M)
      ∧ velocities_product d !! s = Some v
      ∧ c_factor d !! s = Some c
      ∧ bh_raw_rates (bh_self st) d (bh_prefactor4 st) (bh_screening st)
          ne dos s
        = Ok (tab4 nd nt (nb s) nir En,
              tab4 nd nt (nb s) nir
                (λ n t b q,
                   bh_entry d isl donor acceptor eps v c (M b q)
                     (En n t b q) n t b (ir_kpoints_idx d !!! q)))
      ∧ bh_ir_rates (bh_self st) d (bh_prefactor4 st) (bh_screening st)
          ne dos s
        = Ok (tab4 nd nt (nb s) nir
                (λ n t b q,
                   bh_zeroed (En n t b q)
                     (bh_entry d isl donor acceptor eps v c (M b q)
                        (En n t b q) n t b (ir_kpoints_idx d !!! q)))))
    as Hspin.
  { intros s Hs.
    destruct (Hnes s Hs) as (e & vb & He & _ & Hnesr).
    rewrite (tab4_np_shape2 nd nt) in Hnesr by done.
    destruct (Hdoss s Hs) as (m & Hm & Hdosr).
    destruct (Hvel s Hs) as (v & Hv & Hvsh).
    destruct (Hcf s Hs) as (c & Hc & Hcsh).
    eexists _, _, v, c. split_and!; [exact Hnesr | exact Hdosr | done ..| |].
    - rewrite HP, HS.
      rewrite (bh_raw_rates_Ok base d nd nt (nb s) nk s
                 (λ n t, bh_prefactor (imp n t) eps) (at2 isl)
                 ne dos _ _ v c Hbd' Hbt' Hnesr Hdosr Hv Hvsh Hc Hcsh Hir).
      done.
    - unfold bh_ir_rates. rewrite HP, HS.
      rewrite (bh_raw_rates_Ok base d nd nt (nb s) nk s
                 (λ n t, bh_prefactor (imp n t) eps) (at2 isl)
                 ne dos _ _ v c Hbd' Hbt' Hnesr Hdosr Hv Hvsh Hc Hcsh Hir).
      rewrite bind_Ok. cbn [fst snd]. apply bh_zero_edge_cases_tab4. }
  (* the loop over the spins *)
  unfold BrooksHerringScattering_init.
  rewrite Hst, bind_Ok.
  change (bh_normalized_energies st) with ne.
  change (bh_dos_effective_masses st) with dos.
  match goal with |- context [dict_comp ?g _] => set (f := g) end.
  change (self_spins (bh_self st)) with (self_spins base). rewrite Hbs.
  assert (∀ s, s ∈ spins d → ∃ r, f s = Ok r) as Hf.
  { intros s Hs.
    destruct (Hspin s Hs) as (En & M & v & c & _ & _ & _ & _ & _ & Hirr).
    unfold f. rewrite Hirr, bind_Ok, take_idx4_tab4 by done. eauto. }
  destruct (dict_comp_is_Ok f (spins d) Hf) as [r Hr].
  rewrite Hr, bind_Ok.
  exists st, ne, dos. eexists. split_and!; try done.
  - intros s Hs. cbn.
    by rewrite (dict_comp_lookup _ _ _ Hr s), decide_False.
  - intros s Hs.
    destruct (Hspin s Hs)
      as (En & M & v & c & HEn & HM & Hv & Hc & Hraw & Hirr).
    exists En, M, v, c. split_and!; try done. cbn.
    rewrite (dict_comp_lookup _ _ _ Hr s), decide_True by done.
    unfold f. by rewrite Hirr, bind_Ok, take_idx4_tab4, Hlen.
Qed.

Lemma ix2_shape `{Inhabited A} n m (a : array2 A) i j :
  shape2 n m a → i < n → j < m → ix2 a i j = Some (at2 a i j).
Proof.
  intros Hsh Hi Hj. destruct (at2_elem n m a i j Hsh Hi Hj) as (r & Hr & Hx).
  unfold ix2. by rewrite Hr.
Qed.

(** C1.  On a well-formed dataset, for every spin, doping index,
    temperature index, band and irreducible k-point, the rate before the
    edge cases are zeroed and the mesh expanded is
    [prefactor * (d_factor * log(1 + b) - b_factor) / (velocity * k_sq)]
    with [k_sq = 2 * m_DOS * E_normalized], [b = 4 * k_sq / beta_sq],
    [beta_sq] the screening collaborator's value at (doping, temperature),
    [prefactor = impurity_concentration * 8 * pi * Second /
    static_dielectric ** 2] and [impurity_concentration =
    |electron_conc| * donor_charge ** 2 + |hole_conc| * acceptor_charge ** 2].
    [m_DOS] and [E_normalized] are the entries of the two helpers' results;
    the velocity is the magnitude over [sqrt(3)], clamped at 0.005.  The
    three squares are Python's: none of them is to overflow, or the
    construction raises [OverflowError] instead. *)
Theorem BrooksHerring_raw_rate {F} `{Float64 F} `{Externals F}
    (props : gmap string F) (d : AmsetData F) nd nt nb nk
    acceptor donor static_dielectric :
  props !! "acceptor_charge" = Some acceptor →
  props !! "donor_charge" = Some donor →
  props !! "static_dielectric" = Some static_dielectric →
  py_pow_overflows donor 2 = false →
  py_pow_overflows acceptor 2 = false →
  py_pow_overflows static_dielectric 2 = false →
  dataset_ok nd nt nb nk d →
  shape2 nd nt (calculate_inverse_screening_length_sq d static_dielectric) →
  ∃ st ne dos,
    BrooksHerringScattering_setup props d = Ok st
    ∧ get_normalized_energies d = Ok ne
    ∧ get_dos_effective_masses d = Ok dos
    ∧ ∀ s, s ∈ spins d →
        ∃ energies raw ms v c,
          bh_raw_rates (bh_self st) d (bh_prefactor4 st) (bh_screening st)
            (bh_normalized_energies st) (bh_dos_effective_masses st) s
          = Ok (energies, raw)
          ∧ ne !! s = Some energies
          ∧ dos !! s = Some ms
          ∧ velocities_product d !! s = Some v
          ∧ c_factor d !! s = Some c
          ∧ shape4 nd nt (nb s) (length (ir_kpoints_idx d)) raw
          ∧ ∀ n t b q,
              n < nd → t < nt → b < nb s →
              q < length (ir_kpoints_idx d) →
              ∃ kf e_normalized m_dos beta_sq n_conc p_conc
                impurity_concentration,
                ir_kpoints_idx d !! q = Some kf
                ∧ ix4 energies n t b q = Some e_normalized
                ∧ ix2 ms b q = Some m_dos
                ∧ ix2 (calculate_inverse_screening_length_sq d
                         static_dielectric) n t = Some beta_sq
                ∧ ix2 (electron_conc d) n t = Some n_conc
                ∧ ix2 (hole_conc d) n t = Some p_conc
                ∧ ix2 (bh_impurity_conc st) n t
                  = Some impurity_concentration
                ∧ impurity_concentration
                  = fadd (fmul (fabs n_conc) (pow_int donor 2))
                         (fmul (fabs p_conc) (pow_int acceptor 2))
                ∧ let k_sq := fmul (fmul (of_int 2) m_dos) e_normalized in
                  let b_ := fdiv (fmul (of_int 4) k_sq) beta_sq in
                  let prefactor :=
                    fdiv (fmul (fmul (fmul impurity_concentration (of_int 8))
                                     np_pi) Second)
                         (pow_int static_dielectric 2) in
                  let velocity := bh_velocity (velocity_at v b kf) in
                  ix4 raw n t b q
                  = Some (fdiv
                            (fmul prefactor
                               (fsub (fmul (bh_d_factor beta_sq
                                              (at2 c b kf) k_sq)
                                           (np_log (fadd (of_int 1) b_)))
                                     (bh_b_factor beta_sq (at2 c b kf)
                                                  k_sq)))
                            (fmul velocity k_sq)).
Proof.
  intros Hacc Hdon Heps Hod Hoa Hoe Hok Hisl.
  destruct (BrooksHerringScattering_Ok props d nd nt nb nk acceptor donor
              static_dielectric Hacc Hdon Heps Hod Hoa Hoe Hok Hisl)
    as (st & ne & dos & self & Hst & Hne & Hstne & Hdos & Hstdos & _ & Himp
        & _ & _ & Hspin).
  destruct Hok as (_ & Hec & Hhc & _ & _ & _ & _ & _ & _ & (Hir & _) & _).
  exists st, ne, dos. split_and!; try done. intros s Hs.
  destruct (Hspin s Hs)
    as (En & M & v & c & HEn & HM & Hv & Hc & Hraw & _).
  eexists _, _, _, v, c. rewrite Hstne, Hstdos.
  split_and!; [exact Hraw | exact HEn | exact HM | done | done
              | apply shape4_tab4 |].
  intros n t b q Hn Ht Hb Hq.
  destruct (ir_lookup nk d q Hir Hq) as (kf & Hkf & _ & Hkf').
  exists kf. eexists _, _, _, _, _, _.
  split_and!; [done | by apply ix4_tab4 | by apply ix2_tab2
              | by apply (ix2_shape nd nt) | by apply (ix2_shape nd nt)
              | by apply (ix2_shape nd nt)
              | rewrite Himp; by apply ix2_tab2 | reflexivity |].
  cbv zeta. rewrite ix4_tab4 by done. rewrite Hkf'. reflexivity.
Qed.

(** C4.  In the rates [BrooksHerringScattering] returns, an entry is
    exactly 0 where the normalized energy at its irreducible representative
    is below 1e-8, and exactly 0 where the raw closed-form value there is
    NaN; any other entry is the raw value; and no entry is NaN, whatever
    the (well-formed) input whose three squared properties do not overflow
    (with an overflow the construction raises and returns no rates). *)
Theorem BrooksHerring_edge_cases {F} `{Float64 F} `{Externals F}
    (props : gmap string F) (d : AmsetData F) nd nt nb nk
    acceptor donor static_dielectric :
  props !! "acceptor_charge" = Some acceptor →
  props !! "donor_charge" = Some donor →
  props !! "static_dielectric" = Some static_dielectric →
  py_pow_overflows donor 2 = false →
  py_pow_overflows acceptor 2 = false →
  py_pow_overflows static_dielectric 2 = false →
  dataset_ok nd nt nb nk d →
  shape2 nd nt (calculate_inverse_screening_length_sq d static_dielectric) →
  ∃ st ne self,
    BrooksHerringScattering_setup props d = Ok st
    ∧ get_normalized_energies d = Ok ne
    ∧ BrooksHerringScattering_init props d = Ok self
    ∧ ∀ s, s ∈ spins d →
        ∃ r energies raw,
          rates self !! s = Some r
          ∧ ne !! s = Some energies
          ∧ bh_raw_rates (bh_self st) d (bh_prefactor4 st) (bh_screening st)
              (bh_normalized_energies st) (bh_dos_effective_masses st) s
            = Ok (energies, raw)
          ∧ shape4 nd nt (nb s) nk r
          ∧ ∀ n t b k, n < nd → t < nt → b < nb s → k < nk →
              ∃ i e x rate,
                ir_to_full_kpoint_mapping d !! k = Some i
                ∧ ix4 energies n t b i = Some e
                ∧ ix4 raw n t b i = Some x
                ∧ ix4 r n t b k = Some rate
                ∧ (fltb e lit_1e_8 = true → rate = of_int 0)
                ∧ (fisnan x = true → rate = of_int 0)
                ∧ (fltb e lit_1e_8 = false → fisnan x = false → rate = x)
                ∧ fisnan rate = false.
Proof.
  intros Hacc Hdon Heps Hod Hoa Hoe Hok Hisl.
  destruct (BrooksHerringScattering_Ok props d nd nt nb nk acceptor donor
              static_dielectric Hacc Hdon Heps Hod Hoa Hoe Hok Hisl)
    as (st & ne & dos & self & Hst & Hne & Hstne & Hdos & Hstdos & _ & _
        & Hself & _ & Hspin).
  destruct Hok as (_ & _ & _ & _ & _ & _ & _ & _ & _ & Hk & _).
  exists st, ne, self. split_and!; try done. intros s Hs.
  destruct (Hspin s Hs)
    as (En & M & v & c & HEn & _ & _ & _ & Hraw & _ & Hr).
  eexists _, _, _. rewrite Hstne, Hstdos.
  split_and!; [exact Hr | exact HEn | exact Hraw | apply shape4_tab4 |].
  intros n t b k Hn Ht Hb Hkk.
  destruct (kpoints_ok_lookup nk d k Hk Hkk)
    as (i & kf & Hi & _ & Hilt & _ & Hi' & _).
  exists i. eexists _, _, _.
  split_and!; [done | by apply ix4_tab4 | by apply ix4_tab4
              | by apply ix4_tab4 | ..]; rewrite Hi'; unfold bh_zeroed.
  - by intros ->.
  - intros ->. by case_match.
  - by intros -> ->.
  - destruct (fltb _ _); [apply fisnan_zero |].
    match goal with
    | |- context [if fisnan ?x then _ else _] =>
        destruct (fisnan x) eqn:Hnan; [apply fisnan_zero | done]
    end.
Qed.

(** C5.  For [MeanFreePathScattering] and [BrooksHerringScattering], the
    rate at a full k-point is the rate computed at its irreducible
    representative, so two full k-points with the same representative have
    the same rate, for every spin, doping index, temperature index and
    band.  ([BrooksHerringScattering] returns when none of its three
    squared properties overflows.) *)
Theorem rates_expanded_by_symmetry {F} `{Float64 F} `{Externals F}
    (d : AmsetData F) nd nt nb nk :
  (∀ (props : gmap string F) mean_free_path,
     props !! "mean_free_path" = Some mean_free_path →
     dataset_ok nd nt nb nk d →
     ∃ self, MeanFreePathScattering_init props d = Ok self ∧
       ∀ s, s ∈ spins d →
         ∃ r ir_rates,
           rates self !! s = Some r
           ∧ mfp_ir_rates self (fmul mean_free_path nm_to_bohr) d s
             = Ok ir_rates
           ∧ ∀ n t b k, n < nd → t < nt → b < nb s → k < nk →
               ∃ i, ir_to_full_kpoint_mapping d !! k = Some i
                 ∧ is_Some (ix4 r n t b k)
                 ∧ ix4 r n t b k = ix4 ir_rates n t b i
                 ∧ ∀ k', k' < nk →
                     ir_to_full_kpoint_mapping d !! k' = Some i →
                     ix4 r n t b k' = ix4 r n t b k)
  ∧ (∀ (props : gmap string F) acceptor donor static_dielectric,
       props !! "acceptor_charge" = Some acceptor →
       props !! "donor_charge" = Some donor →
       props !! "static_dielectric" = Some static_dielectric →
       py_pow_overflows donor 2 = false →
       py_pow_overflows acceptor 2 = false →
       py_pow_overflows static_dielectric 2 = false →
       dataset_ok nd nt nb nk d →
       shape2 nd nt
         (calculate_inverse_screening_length_sq d static_dielectric) →
       ∃ st self,
         BrooksHerringScattering_setup props d = Ok st
         ∧ BrooksHerringScattering_init props d = Ok self
         ∧ ∀ s, s ∈ spins d →
             ∃ r ir_rates,
               rates self !! s = Some r
               ∧ bh_ir_rates (bh_self st) d (bh_prefactor4 st)
                   (bh_screening st) (bh_normalized_energies st)
                   (bh_dos_effective_masses st) s
                 = Ok ir_rates
               ∧ ∀ n t b k, n < nd → t < nt → b < nb s → k < nk →
                   ∃ i, ir_to_full_kpoint_mapping d !! k = Some i
                     ∧ is_Some (ix4 r n t b k)
                     ∧ ix4 r n t b k = ix4 ir_rates n t b i
                     ∧ ∀ k', k' < nk →
                         ir_to_full_kpoint_mapping d !! k' = Some i →
                         ix4 r n t b k' = ix4 r n t b k).
Proof.
  split.
  - intros props mean_free_path Hmfp
      (_ & _ & _ & Hdop & Htemp & Hen & Hvel & _ & _ & Hk & _).
    destruct (MeanFreePathScattering_init_Ok props d mean_free_path nb nk)
      as (self & Hself & _ & _ & _ & Hr); try done.
    { intros s (e & He & _)%Hen. eauto. }
    exists self. split; [done |]. intros s Hs.
    destruct (Hr s Hs) as (v & _ & Hirr & Hrs).
    eexists _, _. split_and!; [exact Hrs | exact Hirr |].
    rewrite Hdop, Htemp. intros n t b k Hn Ht Hb Hkk.
    destruct (kpoints_ok_lookup nk d k Hk Hkk)
      as (i & kf & Hi & _ & Hilt & _ & Hi' & _).
    exists i. rewrite !ix4_tab4 by done. rewrite Hi'.
    split_and!; [done | by eexists | done |].
    intros k' Hk' Hi''. rewrite ix4_tab4 by done.
    by rewrite (list_lookup_total_correct _ _ _ Hi'').
  - intros props acceptor donor static_dielectric Hacc Hdon Heps
      Hod Hoa Hoe Hok Hisl.
    destruct (BrooksHerringScattering_Ok props d nd nt nb nk acceptor donor
                static_dielectric Hacc Hdon Heps Hod Hoa Hoe Hok Hisl)
      as (st & ne & dos & self & Hst & _ & Hstne & _ & Hstdos & _ & _
          & Hself & _ & Hspin).
    destruct Hok as (_ & _ & _ & _ & _ & _ & _ & _ & _ & Hk & _).
    exists st, self. split_and!; try done. intros s Hs.
    destruct (Hspin s Hs)
      as (En & M & v & c & _ & _ & _ & _ & _ & Hirr & Hr).
    eexists _, _. rewrite Hstne, Hstdos.
    split_and!; [exact Hr | exact Hirr |].
    intros n t b k Hn Ht Hb Hkk.
    destruct (kpoints_ok_lookup nk d k Hk Hkk)
      as (i & kf & Hi & _ & Hilt & _ & Hi' & _).
    exists i. rewrite !ix4_tab4 by done. rewrite Hi'.
    split_and!; [done | by eexists | done |].
    intros k' Hk' Hi''. rewrite ix4_tab4 by done.
    by rewrite (list_lookup_total_correct _ _ _ Hi'').
Qed.

(** ** The example inputs are well formed *)

Lemma d_example_ok : dataset_ok 1 2 (λ _, 2) 3 d_example.
Proof.
  unfold dataset_ok. split_and!; try shaped; try reflexivity.
  - intros s ->%list_elem_of_singleton. eexists.
    split; [vm_compute; reflexivity | shaped].
  - intros s ->%list_elem_of_singleton. eexists.
    split; [vm_compute; reflexivity | shaped].
  - intros s ->%list_elem_of_singleton. eexists.
    split; [vm_compute; reflexivity | shaped].
  - intros s ->%list_elem_of_singleton. eexists.
    split; [vm_compute; reflexivity | shaped].
  - split_and!; [repeat constructor | reflexivity | repeat constructor].
  - intros _. split; [| lia]. split; [done |].
    intros s ->%list_elem_of_singleton. exists 0.
    split; [vm_compute; reflexivity | lia].
Qed.

(** ** The theorems at the example inputs *)

Lemma BrooksHerring_raw_rate_witness :
  ∃ st energies raw,
    BrooksHerringScattering_setup (H0 := stand_in_externals) bh_props
      d_example = Ok st
    ∧ bh_raw_rates (H0 := stand_in_externals) (bh_self st) d_example
        (bh_prefactor4 st) (bh_screening st) (bh_normalized_energies st)
        (bh_dos_effective_masses st) up
      = Ok (energies, raw)
    ∧ shape4 1 2 2 2 raw.
Proof.
  destruct (BrooksHerring_raw_rate (H0 := stand_in_externals) bh_props
              d_example 1 2 (λ _, 2) 3 1%float 1%float 10%float)
    as (st & ne & dos & Hst & _ & _ & Hs).
  - vm_compute; reflexivity.
  - vm_compute; reflexivity.
  - vm_compute; reflexivity.
  - vm_compute; reflexivity.
  - vm_compute; reflexivity.
  - vm_compute; reflexivity.
  - exact d_example_ok.
  - shaped.
  - destruct (Hs up) as (energies & raw & ms & v & c & Hraw & _ & _ & _ & _
                         & Hsh & _); [by left |].
    by exists st, energies, raw.
Defined.








Lemma BrooksHerring_edge_cases_witness :
  ∃ self r,
    BrooksHerringScattering_init (H0 := stand_in_externals) bh_props
      d_example = Ok self
    ∧ rates self !! up = Some r
    ∧ ix4 r 0 0 1 0 = Some 0%float
    ∧ ix4 r 0 0 0 2 = Some 0%float.
Proof.
  destruct (BrooksHerring_edge_cases (H0 := stand_in_externals) bh_props
              d_example 1 2 (λ _, 2) 3 1%float 1%float 10%float)
    as (st & ne & self & Hst & Hne & Hself & Hs).
  - vm_compute; reflexivity.
  - vm_compute; reflexivity.
  - vm_compute; reflexivity.
  - vm_compute; reflexivity.
  - vm_compute; reflexivity.
  - vm_compute; reflexivity.
  - exact d_example_ok.
  - shaped.
  - destruct (Hs up) as (r & energies & raw & Hr & Hen & Hraw & _ & Hent);
      [by left |].
    exists self, r. split_and!; [done | done | |].
    + destruct (Hent 0 0 1 0)
        as (i & e & x & rate & Hi & He & Hx & -> & _ & Hnan & _);
        [cbn; lia ..|].
      f_equal. apply Hnan.
      vm_compute in Hst. inversion Hst; subst st.
      vm_compute in Hraw. inversion Hraw; subst raw.
      vm_compute in Hi. inversion Hi; subst i.
      vm_compute in Hx. inversion Hx. reflexivity.
    + destruct (Hent 0 0 0 2)
        as (i & e & x & rate & Hi & He & Hx & -> & Hlow & _);
        [cbn; lia ..|].
      f_equal. apply Hlow.
      vm_compute in Hne. inversion Hne; subst ne.
      vm_compute in Hen. inversion Hen; subst energies.
      vm_compute in Hi. inversion Hi; subst i.
      vm_compute in He. inversion He. reflexivity.
Defined.

Lemma rates_expanded_by_symmetry_witness :
  (∃ self r,
     MeanFreePathScattering_init (H0 := stand_in_externals)
       {[ "mean_free_path" := 10%float ]} d_example = Ok self
     ∧ rates self !! up = Some r
     ∧ ix4 r 0 0 0 1 = ix4 r 0 0 0 0)
  ∧ (∃ self r,
       BrooksHerringScattering_init (H0 := stand_in_externals) bh_props
         d_example = Ok self
       ∧ rates self !! up = Some r
       ∧ ix4 r 0 0 0 1 = ix4 r 0 0 0 0).
Proof.
  destruct (rates_expanded_by_symmetry (H0 := stand_in_externals)
              d_example 1 2 (λ _, 2) 3) as [Hm Hb].
  split.
  - destruct (Hm {[ "mean_free_path" := 10%float ]} 10%float)
      as (self & Hself & Hs); [done | exact d_example_ok |].
    destruct (Hs up) as (r & rir & Hr & _ & Hent); [by left |].
    exists self, r. split_and!; [done | done |].
    destruct (Hent 0 0 0 0) as (i & Hi & _ & _ & Hsame); [cbn; lia ..|].
    apply Hsame; [cbn; lia | exact Hi].
  - destruct (Hb bh_props 1%float 1%float 10%float)
      as (st & self & _ & Hself & Hs);
      [vm_compute; reflexivity .. | exact d_example_ok | shaped |].
    destruct (Hs up) as (r & rir & Hr & _ & Hent); [by left |].
    exists self, r. split_and!; [done | done |].
    destruct (Hent 0 0 0 0) as (i & Hi & _ & _ & Hsame); [cbn; lia ..|].
    apply Hsame; [cbn; lia | exact Hi].
Defined.

Lemma get_dos_effective_masses_spec_witness :
  (∃ dos r, get_dos_effective_masses (H0 := stand_in_externals) d_example
            = Ok dos ∧ dos !! up = Some r ∧ shape2 2 2 r)
  ∧ (∀ m, effective_mass d_exact !! up = Some m →
       dos_mass_at (H0 := exact_externals) m 0 0 = 2%R
       ∧ dos_mass_at (H0 := exact_externals) m 1 0 = 2%R).
Proof.
  destruct get_dos_effective_masses_spec as [Hgen Hex]. split.
  - destruct d_example_ok
      as (_ & _ & _ & _ & _ & _ & _ & Hmass & _ & (Hir & _) & _).
    destruct (Hgen float _ stand_in_externals d_example (λ _, 2) 3 Hmass Hir)
      as (dos & Hdos & Hs).
    destruct (Hs up) as (r & m & Hr & _ & Hsh & _); [by left |].
    by exists dos, r.
  - intros m Hm.
    assert (m = [diag_block [0] [1] [2] [4];
                 diag_block [0] [-1] [2] [-4]]%R) as ->.
    { pose proof (eq_refl : effective_mass d_exact !! up
                            = Some [diag_block [0] [1] [2] [4];
                                    diag_block [0] [-1] [2] [-4]]%R).
      congruence. }
    split; apply (Hex exact_externals); try reflexivity;
      cbn; unfold Rabs; destruct (Rcase_abs _); lra.
Defined.

Lemma ConstantRelaxationTime_rates_witness :
  ∃ self r, ConstantRelaxationTime_init
              {[ "constant_relaxation_time" := 2%float ]} d_example = Ok self
    ∧ rates self !! up = Some r
    ∧ ix4 r 0 1 1 2 = Some 0.5%float.
Proof.
  destruct (ConstantRelaxationTime_rates
              {[ "constant_relaxation_time" := 2%float ]} d_example
              2%float 1 2 (λ _, 2) 3) as (self & Hself & Hr).
  - vm_compute; reflexivity.
  - reflexivity.
  - split; [reflexivity | repeat constructor].
  - intros s ->%list_elem_of_singleton. eexists.
    split; [vm_compute; reflexivity |].
    split; [reflexivity | repeat constructor].
  - destruct (Hr up) as (r & e & Hup & _ & _ & Hix & _); [by left |].
    exists self, r. split_and!; [done | done |].
    apply (Hix 0 1 1 2); lia.
Defined.

Lemma ConstantRelaxationTime_zero_tau_witness :
  ConstantRelaxationTime_init {[ "constant_relaxation_time" := 0%float ]}
    d_example = Raise ZeroDivisionError.
Proof.
  apply (ConstantRelaxationTime_zero_tau _ _ 0%float).
  - vm_compute; reflexivity.
  - reflexivity.
  - intros s ->%list_elem_of_singleton. vm_compute; eauto.
Defined.

Lemma required_properties_extraction_witness :
  ∃ k, construct (H0 := stand_in_externals) IMP
         {[ "acceptor_charge" := 1%float; "static_dielectric" := 10%float ]}
         d_example
       = Raise (KeyError (KStr k)).
Proof.
  destruct (required_properties_extraction (H0 := stand_in_externals) IMP
              {[ "acceptor_charge" := 1%float;
                 "static_dielectric" := 10%float ]} d_example)
    as [Hmiss _].
  destruct Hmiss as (_ & k & _ & _ & _ & _ & Hk & _).
  - exists "donor_charge". split; [| vm_compute; reflexivity].
    cbn. right. left.
  - by exists k.
Defined.

Lemma shapes_not_validated_witness :
  ∃ self, construct (H0 := stand_in_externals) CRT
            {[ "constant_relaxation_time" := 2%float ]} d_mismatched
          = Ok self
    ∧ rates self !! down = Some (np_full4 (1, 2, 1, 2) 0.5%float).
Proof.
  destruct (shapes_not_validated (H0 := stand_in_externals)
              {[ "constant_relaxation_time" := 2%float ]} d_mismatched
              2%float) as (self & Hself & Hr).
  - vm_compute; reflexivity.
  - reflexivity.
  - intros s Hs. cbn in Hs.
    apply elem_of_cons in Hs as [->|Hs]; [vm_compute; eauto |].
    apply list_elem_of_singleton in Hs as ->. vm_compute; eauto.
  - exists self. split; [done |].
    destruct (Hr down) as (e & He & Hrs); [cbn; by right; left |].
    vm_compute in He. inversion He; subst e. exact Hrs.
Defined.

(** * Further properties *)

(** ** What a computation can raise *)

Lemma raises_only_Ok {A} P (a : A) : raises_only P (Ok a).
Proof. intros e; discriminate. Qed.

Lemma raises_only_Raise {A} (P : exn → Prop) e : P e → raises_only (A := A) P (Raise e).
Proof. intros HP e' [= <-]. done. Qed.

Lemma raises_only_bind {A B} P (m : result A) (f : A → result B) :
  raises_only P m → (∀ a, m = Ok a → raises_only P (f a)) →
  raises_only P (m ≫= f).
Proof.
  intros Hm Hf. destruct m as [a|e]; cbn.
  - by apply Hf.
  - intros e' [= <-]. by apply Hm.
Qed.

Lemma raises_only_traverse {A B} P (f : A → result B) l :
  (∀ x, x ∈ l → raises_only P (f x)) → raises_only P (traverse f l).
Proof.
  induction l as [|x l IH]; intros Hf; cbn; [apply raises_only_Ok |].
  apply raises_only_bind; [apply Hf; left | intros y _].
  apply raises_only_bind; [| intros; apply raises_only_Ok].
  apply IH. intros z Hz. apply Hf. by right.
Qed.

Lemma raises_only_foldM {A S} P (f : S → A → result S) s l :
  (∀ s x, x ∈ l → raises_only P (f s x)) → raises_only P (foldM f s l).
Proof.
  revert s. induction l as [|x l IH]; intros s Hf; cbn; [apply raises_only_Ok |].
  apply raises_only_bind; [apply Hf; left | intros s' _].
  apply IH. intros s'' z Hz. apply Hf. by right.
Qed.

Lemma raises_only_dict_comp `{Countable K} {V} P (f : K → result V) keys :
  (∀ k, k ∈ keys → raises_only P (f k)) → raises_only P (dict_comp f keys).
Proof.
  intros Hf. apply raises_only_foldM. intros m k Hk.
  apply raises_only_bind; [by apply Hf | intros; apply raises_only_Ok].
Qed.

Section provenance.
Context (P : exn → Prop).
Context (HK : ∀ k, P (KeyError k)) (HI : P IndexError) (HV : P ValueError).

Lemma raises_only_dict_get `{Countable K} {V} key (d : gmap K V) k :
  raises_only P (dict_get key d k).
Proof using HK. unfold dict_get. destruct (d !! k); [apply raises_only_Ok | by apply raises_only_Raise]. Qed.

Lemma raises_only_getitem {A} (l : list A) i : raises_only P (getitem l i).
Proof using HI. unfold getitem. destruct (l !! i); [apply raises_only_Ok | by apply raises_only_Raise]. Qed.

Lemma raises_only_take_idx {A} idx (row : list A) : raises_only P (take_idx idx row).
Proof using HI. apply raises_only_traverse. intros. apply raises_only_getitem. Qed.

Lemma raises_only_take_idx2 {A} idx (a : array2 A) : raises_only P (take_idx2 idx a).
Proof using HI. apply raises_only_traverse. intros. apply raises_only_take_idx. Qed.

Lemma raises_only_take_idx4 {A} idx (a : array4 A) : raises_only P (take_idx4 idx a).
Proof using HI.
  do 3 (apply raises_only_traverse; intros). apply raises_only_take_idx.
Qed.

Lemma raises_only_getitem2 {A} (a : array2 A) n t : raises_only P (getitem2 a n t).
Proof using HI.
  apply raises_only_bind; [apply raises_only_getitem | intros; apply raises_only_getitem].
Qed.

Lemma raises_only_setitem2 {A} (a : array2 A) n t x : raises_only P (setitem2 a n t x).
Proof using HI.
  apply raises_only_bind; [apply raises_only_getitem2 | intros; apply raises_only_Ok].
Qed.

Lemma raises_only_bzip {A B C} (f : A → B → result C) la lb :
  (∀ x y, raises_only P (f x y)) → raises_only P (bzip f la lb).
Proof using HV.
  intros Hf. unfold bzip.
  assert (Hz : raises_only P
    (if decide (length la = length lb)
     then traverse (λ p, f p.1 p.2) (zip la lb) else Raise ValueError)).
  { case_decide; [| by apply raises_only_Raise].
    apply raises_only_traverse. intros; apply Hf. }
  destruct la as [|x [|x' la]]; destruct lb as [|y [|y' lb]]; try exact Hz;
    apply raises_only_traverse; intros; apply Hf.
Qed.

Lemma raises_only_mzip {A B C} (f : A → B → result C) la lb :
  (∀ x y, raises_only P (f x y)) → raises_only P (mzip f la lb).
Proof using HI.
  intros Hf. unfold mzip. case_decide; [| by apply raises_only_Raise].
  apply raises_only_traverse. intros; apply Hf.
Qed.

Context {F : Type} `{Float64 F}.

Lemma raises_only_bmap4 (f : F → F → F) a b : raises_only P (bmap4 f a b).
Proof using HV.
  unfold bmap4. do 4 (apply raises_only_bzip; intros). apply raises_only_Ok.
Qed.

Lemma raises_only_lift4 (f : F → F → F) ra rb :
  raises_only P ra → raises_only P rb → raises_only P (lift4 f ra rb).
Proof using HV.
  intros Ha Hb. unfold lift4.
  apply raises_only_bind; [done | intros a _].
  apply raises_only_bind; [done | intros b _]. apply raises_only_bmap4.
Qed.

Lemma raises_only_map4r (f : F → F) ra :
  raises_only P ra → raises_only P (map4r f ra).
Proof.
  intros Ha. apply raises_only_bind; [done | intros; apply raises_only_Ok].
Qed.

Lemma raises_only_mask_set4 mask (x : F) a : raises_only P (mask_set4 mask x a).
Proof using HI.
  unfold mask_set4. do 4 (apply raises_only_mzip; intros). apply raises_only_Ok.
Qed.

Lemma raises_only_np_max (l : list F) : raises_only P (np_max l).
Proof using HV. destruct l; [by apply raises_only_Raise | apply raises_only_Ok]. Qed.

Lemma raises_only_np_min (l : list F) : raises_only P (np_min l).
Proof using HV. destruct l; [by apply raises_only_Raise | apply raises_only_Ok]. Qed.

End provenance.

Section module_provenance.
Context (P : exn → Prop).
Context (HK : ∀ k, P (KeyError k)) (HI : P IndexError) (HV : P ValueError).
Context (HO : P OverflowError).
Context {F : Type} `{Float64 F} `{Externals F}.

Lemma raises_only_py_pow (x : F) n : raises_only P (py_pow x n).
Proof using HO.
  unfold py_pow.
  destruct (py_pow_overflows x n);
    [by apply raises_only_Raise | apply raises_only_Ok].
Qed.

Ltac raises :=
  repeat first
    [ apply raises_only_Ok
    | apply raises_only_dict_get; assumption
    | apply raises_only_getitem; assumption
    | apply raises_only_getitem2; assumption
    | apply raises_only_py_pow; assumption
    | apply raises_only_setitem2; assumption
    | apply raises_only_take_idx2; assumption
    | apply raises_only_take_idx4; assumption
    | apply raises_only_np_max; assumption
    | apply raises_only_np_min; assumption
    | apply raises_only_mask_set4; assumption
    | apply raises_only_lift4; [assumption | |]
    | apply raises_only_map4r
    | apply raises_only_dict_comp; intros ? _
    | apply raises_only_traverse; intros ? _
    | apply raises_only_foldM; intros ? ? _
    | apply raises_only_bind; [| intros ? _] ].

Lemma raises_only_base required (props : gmap string F) d :
  raises_only P (AbstractBasicScattering_init required props d).
Proof using HK. unfold AbstractBasicScattering_init. raises. Qed.

Lemma raises_only_velocity_norms (d : AmsetData F) s :
  raises_only P (velocity_norms d s).
Proof using HK HI. unfold velocity_norms. raises. Qed.

Lemma raises_only_MeanFreePathScattering_init (props : gmap string F) d :
  raises_only P (MeanFreePathScattering_init props d).
Proof using HK HI.
  unfold MeanFreePathScattering_init. 
  apply raises_only_bind; [apply raises_only_base | intros self _].
  raises.
Qed.

Lemma raises_only_get_normalized_energies (d : AmsetData F) :
  raises_only P (get_normalized_energies d).
Proof using HK HI HV.
  unfold get_normalized_energies. cbv zeta.
  apply raises_only_bind; [raises | intros e0 _].
  destruct (is_metal d); [raises |].
  unfold vbm_e, cbm_e, valence_max, conduction_min. raises.
Qed.

Lemma raises_only_get_dos_effective_masses (d : AmsetData F) :
  raises_only P (get_dos_effective_masses d).
Proof using HK HI. unfold get_dos_effective_masses. raises. Qed.

Lemma raises_only_bh_impurity_concentration self (d : AmsetData F) isl :
  raises_only P (bh_impurity_concentration self d isl).
Proof using HK HI HO.
  unfold bh_impurity_concentration. apply raises_only_foldM.
  intros s [n t] _. raises.
Qed.

Lemma raises_only_bh_raw_rates self (d : AmsetData F) pf sc ne dos s :
  raises_only P (bh_raw_rates self d pf sc ne dos s).
Proof using HK HI HV.
  unfold bh_raw_rates. cbv zeta.
  apply raises_only_bind; [raises | intros dm _].
  apply raises_only_bind; [raises | intros en _].
  apply raises_only_bind; [raises | intros k_sq _].
  apply raises_only_bind; [apply raises_only_velocity_norms | intros v _].
  raises.
Qed.

Lemma raises_only_bh_ir_rates self (d : AmsetData F) pf sc ne dos s :
  raises_only P (bh_ir_rates self d pf sc ne dos s).
Proof using HK HI HV.
  unfold bh_ir_rates.
  apply raises_only_bind; [apply raises_only_bh_raw_rates | intros er _].
  unfold bh_zero_edge_cases. raises.
Qed.

Lemma raises_only_BrooksHerringScattering_init (props : gmap string F) d :
  raises_only P (BrooksHerringScattering_init props d).
Proof using HK HI HV HO.
  unfold BrooksHerringScattering_init.
  apply raises_only_bind.
  - unfold BrooksHerringScattering_setup.
    apply raises_only_bind; [apply raises_only_base | intros self _].
    apply raises_only_bind; [raises | intros eps _].
    apply raises_only_bind;
      [apply raises_only_bh_impurity_concentration | intros imp _].
    apply raises_only_bind;
      [apply raises_only_get_normalized_energies | intros ne _].
    apply raises_only_bind;
      [apply raises_only_get_dos_effective_masses | intros dos _].
    raises.
  - intros st _.
    apply raises_only_bind; [| intros; apply raises_only_Ok].
    apply raises_only_dict_comp. intros s _.
    apply raises_only_bind; [apply raises_only_bh_ir_rates | intros r _].
    raises.
Qed.
End module_provenance.

Lemma dict_comp_Ok_all `{Countable K} {V} (f : K → result V) keys m :
  dict_comp f keys = Ok m →
  ∀ k, k ∈ keys → ∃ v, f k = Ok v ∧ m !! k = Some v.
Proof.
  intros Hm k Hk. destruct (f k) as [v|e] eqn:Hfk.
  - exists v. split; [done |].
    by rewrite (dict_comp_lookup _ _ _ Hm k), decide_True, Hfk.
  - destruct (dict_comp_raise f keys) as (? & ? & ? & ? & _ & _ & _ & Hr).
    { exists k. by rewrite Hfk. }
    congruence.
Qed.

Lemma dict_comp_dom `{Countable K} {V} (f : K → result V) keys m :
  dict_comp f keys = Ok m → ∀ k, is_Some (m !! k) ↔ k ∈ keys.
Proof.
  intros Hm k. split.
  - rewrite (dict_comp_lookup _ _ _ Hm k). case_decide; [done |].
    by intros [? ?].
  - intros Hk. destruct (dict_comp_Ok_all _ _ _ Hm k Hk) as (v & _ & ->).
    eauto.
Qed.

(** A comprehension raises what its first failing key raises. *)
Lemma dict_loop_raise_at `{Countable K} {V} (f : K → result V) l1 k l2 e
    (m0 : gmap K V) :
  (∀ x, x ∈ l1 → ∃ v, f x = Ok v) → f k = Raise e →
  foldM (λ m k, v ← f k; Ok (<[k := v]> m)) m0 (l1 ++ k :: l2) = Raise e.
Proof.
  revert m0. induction l1 as [|x l1 IH]; intros m0 Hl1 Hk; cbn.
  - by rewrite Hk.
  - destruct (Hl1 x) as [v ->]; [left |]. cbn. apply IH; [| done].
    intros y Hy. apply Hl1. by right.
Qed.

Lemma dict_comp_raise_at `{Countable K} {V} (f : K → result V) l1 k l2 e :
  (∀ x, x ∈ l1 → ∃ v, f x = Ok v) → f k = Raise e →
  dict_comp f (l1 ++ k :: l2) = Raise e.
Proof. apply dict_loop_raise_at. Qed.

Lemma AbstractBasicScattering_init_inv {F} required
    (props : gmap string F) (d : AmsetData F) base :
  AbstractBasicScattering_init required props d = Ok base →
  self_doping base = doping d
  ∧ self_temperatures base = temperatures d
  ∧ self_spins base = spins d
  ∧ rates base = ∅
  ∧ (∀ k, k ∈ required →
       ∃ v, props !! k = Some v ∧ properties base !! k = Some v)
  ∧ (∀ s, s ∈ spins d →
       ∃ e, energies d !! s = Some e ∧ nbands base !! s = Some (length e))
  ∧ (∀ s, s ∉ spins d → nbands base !! s = None).
Proof.
  unfold AbstractBasicScattering_init. intros Hb.
  apply bind_Ok_inv in Hb as (pm & Hpm & Hb).
  apply bind_Ok_inv in Hb as (nm & Hnm & Hb). inversion Hb; subst base; cbn.
  split_and!; try done.
  - intros k Hk. destruct (dict_comp_Ok_all _ _ _ Hpm k Hk) as (v & Hv & Hl).
    exists v. split; [| done]. unfold dict_get in Hv.
    destruct (props !! k); by inversion Hv.
  - intros s Hs. destruct (dict_comp_Ok_all _ _ _ Hnm s Hs) as (n & Hn & Hl).
    unfold dict_get in Hn. destruct (energies d !! s) as [e|]; [| done].
    exists e. cbn in Hn. inversion Hn; subst n. done.
  - intros s Hs. rewrite (dict_comp_lookup _ _ _ Hnm s).
    by rewrite decide_False.
Qed.

(** A mechanism is its base instance with the rates of a comprehension over
    the spins. *)
Lemma construct_inv {F} `{Float64 F} `{Externals F} m
    (props : gmap string F) (d : AmsetData F) self :
  construct m props d = Ok self →
  ∃ base (f : Spin → result (array4 F)),
    AbstractBasicScattering_init (required_properties m) props d = Ok base
    ∧ dict_comp f (self_spins base) = Ok (rates self)
    ∧ self = set_rates base (rates self).
Proof.
  destruct m; cbv [construct]; intros Hc.
  - unfold ConstantRelaxationTime_init in Hc.
    apply bind_Ok_inv in Hc as (base & Hb & Hc). exists base.
    apply bind_Ok_inv in Hc as (tau & _ & Hc).
    apply bind_Ok_inv in Hc as (rate & _ & Hc).
    apply bind_Ok_inv in Hc as (shape & _ & Hc).
    apply bind_Ok_inv in Hc as (r & Hr & Hc). inversion Hc; subst self.
    eexists. split_and!; [done | exact Hr | done].
  - unfold MeanFreePathScattering_init in Hc.
    apply bind_Ok_inv in Hc as (base & Hb & Hc). exists base.
    apply bind_Ok_inv in Hc as (mfp & _ & Hc).
    apply bind_Ok_inv in Hc as (r & Hr & Hc). inversion Hc; subst self.
    eexists. split_and!; [done | exact Hr | done].
  - unfold BrooksHerringScattering_init in Hc.
    apply bind_Ok_inv in Hc as (st & Hst & Hc).
    apply bind_Ok_inv in Hc as (r & Hr & Hc). inversion Hc; subst self.
    unfold BrooksHerringScattering_setup in Hst.
    apply bind_Ok_inv in Hst as (base & Hb & Hst). exists base.
    assert (bh_self st = base) as Hself.
    { repeat (apply bind_Ok_inv in Hst as (? & _ & Hst)). by inversion Hst. }
    rewrite Hself in *.
    eexists. split_and!; [done | exact Hr | done].
Qed.

(** X1.  Whenever the construction of a mechanism returns, the instance
    holds the dataset's doping, temperatures and spins; for every spin of
    the dataset the band energies exist, [nbands[spin]] is their number of
    bands and [rates] has a tensor; for any other spin neither [nbands]
    nor [rates] has an entry. *)
Theorem constructed_instance_invariants {F} `{Float64 F} `{Externals F} m
    (props : gmap string F) (d : AmsetData F) self :
  construct m props d = Ok self →
  self_doping self = doping d
  ∧ self_temperatures self = temperatures d
  ∧ self_spins self = spins d
  ∧ (∀ s, s ∈ spins d →
       ∃ e, energies d !! s = Some e
         ∧ nbands self !! s = Some (length e)
         ∧ is_Some (rates self !! s))
  ∧ (∀ s, s ∉ spins d → nbands self !! s = None ∧ rates self !! s = None).
Proof.
  intros (base & f & Hb & Hr & ->)%construct_inv. cbn in *.
  destruct (AbstractBasicScattering_init_inv _ _ _ _ Hb)
    as (Hd & Ht & Hs & _ & _ & Hn & Hn').
  rewrite Hs in Hr. pose proof (dict_comp_dom _ _ _ Hr) as Hdom.
  split_and!; try done.
  - intros s Hs'. destruct (Hn s Hs') as (e & He & Hl). exists e.
    split_and!; [done | done | by apply Hdom].
  - intros s Hs'. split; [by apply Hn' |].
    destruct (rates _ !! s) eqn:Hrs; [| done].
    exfalso. apply Hs', Hdom. eauto.
Qed.

(** X2.  With the declared properties present, a spin of
    [amset_data.spins] that has no entry in [amset_data.energies] makes
    the construction of every mechanism raise [KeyError] for the first such
    spin: the base constructor fails before anything else is computed, a
    division by a zero relaxation time included. *)
Theorem missing_spin_energies_KeyError {F} `{Float64 F} `{Externals F} m
    (props : gmap string F) (d : AmsetData F) l1 s l2 :
  (∀ k, k ∈ required_properties m → is_Some (props !! k)) →
  spins d = (l1 ++ s :: l2)%list →
  (∀ x, x ∈ l1 → is_Some (energies d !! x)) →
  energies d !! s = None →
  construct m props d = Raise (KeyError (KSpin s)).
Proof.
  intros Hp Hsp Hl1 Hs. apply construct_base_raise.
  unfold AbstractBasicScattering_init.
  destruct (dict_comp_is_Ok (dict_get KStr props) (required_properties m))
    as [pm ->].
  { intros k [v Hv]%Hp. exists v. by apply dict_get_Some. }
  rewrite bind_Ok, Hsp.
  rewrite (dict_comp_raise_at _ l1 s l2 (KeyError (KSpin s))); [done | |].
  - intros x [e He]%Hl1. rewrite (dict_get_Some _ _ _ _ He). eauto.
  - unfold dict_get. by rewrite Hs.
Qed.

(** X3.  The only [ZeroDivisionError] of the module is the one of
    [1 / tau]: a construction that raises it is [ConstantRelaxationTime]'s
    with a relaxation time equal to zero.  A mean free path or a static
    dielectric constant equal to zero raises nothing of the kind, the
    divisions by them being numpy's.  (The screening calculation is
    imported; it is taken to return.) *)
Theorem ZeroDivisionError_only_zero_tau {F} `{Float64 F} `{Externals F} m
    (props : gmap string F) (d : AmsetData F) :
  construct m props d = Raise ZeroDivisionError →
  m = CRT
  ∧ ∃ tau, props !! "constant_relaxation_time" = Some tau
      ∧ feqb tau (of_int 0) = true.
Proof.
  set (P := λ e : exn, e ≠ ZeroDivisionError).
  assert (HK : ∀ k, P (KeyError k)) by done.
  assert (HI : P IndexError) by done.
  assert (HV : P ValueError) by done.
  destruct m; cbv [construct]; intros Hc.
  - split; [done |]. unfold ConstantRelaxationTime_init in Hc.
    destruct (AbstractBasicScattering_init _ props d) as [base|e] eqn:Hb.
    2:{ exfalso. cbn in Hc. inversion Hc; subst e.
        by apply (raises_only_base P HK _ _ _ _ Hb). }
    rewrite bind_Ok in Hc.
    destruct (AbstractBasicScattering_init_inv _ _ _ _ Hb)
      as (_ & _ & _ & _ & Hp & _).
    destruct (Hp "constant_relaxation_time") as (tau & Htau & Hl); [by left |].
    exists tau. split; [done |].
    rewrite (dict_get_Some _ _ _ _ Hl), bind_Ok in Hc.
    unfold py_truediv in Hc. destruct (feqb tau (of_int 0)); [done |].
    exfalso. rewrite bind_Ok in Hc. revert Hc.
    match goal with |- ?r = _ → _ =>
      assert (raises_only P r) as Hr; [| by intros ?%Hr] end.
    apply raises_only_bind; [| intros shape _].
    { apply raises_only_dict_comp. intros s _.
      apply raises_only_bind; [by apply raises_only_dict_get |].
      intros; apply raises_only_Ok. }
    apply raises_only_bind; [| intros; apply raises_only_Ok].
    apply raises_only_dict_comp. intros s _.
    apply raises_only_bind; [by apply raises_only_dict_get |].
    intros; apply raises_only_Ok.
  - exfalso. by apply (raises_only_MeanFreePathScattering_init P HK HI _ _ _ Hc).
  - exfalso.
    assert (HO : P OverflowError) by done.
    by apply (raises_only_BrooksHerringScattering_init P HK HI HV HO
                _ _ _ Hc).
Qed.



(** ** Where an [OverflowError] comes from *)

Section overflow_provenance.
Context (P : exn → Prop).
Context (HK : ∀ k, P (KeyError k)) (HI : P IndexError) (HV : P ValueError).
Context {F : Type} `{Float64 F} `{Externals F}.

Lemma raises_only_py_pow_no_overflow (x : F) n :
  py_pow_overflows x n = false → raises_only P (py_pow x n).
Proof. intros Ho. rewrite (py_pow_Ok _ _ Ho). apply raises_only_Ok. Qed.

Lemma dict_get_Ok_inv `{Countable K} {V} key (m : gmap K V) k v :
  dict_get key m k = Ok v → m !! k = Some v.
Proof. unfold dict_get. destruct (m !! k); by intros [= ->]. Qed.

Lemma raises_only_bh_impurity_concentration_no_overflow
    self (d : AmsetData F) isl :
  (∀ k x, properties self !! k = Some x → py_pow_overflows x 2 = false) →
  raises_only P (bh_impurity_concentration self d isl).
Proof using HK HI.
  intros Hno. unfold bh_impurity_concentration. apply raises_only_foldM.
  intros s [n t] _.
  apply raises_only_bind; [by apply raises_only_getitem2 | intros ? _].
  apply raises_only_bind; [by apply raises_only_getitem2 | intros ? _].
  apply raises_only_bind; [by apply raises_only_dict_get | intros donor Hd].
  apply raises_only_bind; [| intros ? _].
  { eapply raises_only_py_pow_no_overflow, Hno, dict_get_Ok_inv, Hd. }
  apply raises_only_bind; [by apply raises_only_dict_get | intros acc Ha].
  apply raises_only_bind; [| intros ? _].
  { eapply raises_only_py_pow_no_overflow, Hno, dict_get_Ok_inv, Ha. }
  apply raises_only_bind; [by apply raises_only_setitem2 | intros ? _].
  apply raises_only_bind; [by apply raises_only_getitem | intros ? _].
  apply raises_only_bind; [by apply raises_only_getitem | intros ? _].
  apply raises_only_Ok.
Qed.

Lemma raises_only_BrooksHerringScattering_init_no_overflow
    (props : gmap string F) d :
  (∀ k x, k ∈ required_properties IMP → props !! k = Some x →
          py_pow_overflows x 2 = false) →
  raises_only P (BrooksHerringScattering_init props d).
Proof using HK HI HV.
  intros Hno. unfold BrooksHerringScattering_init.
  apply raises_only_bind.
  - unfold BrooksHerringScattering_setup.
    apply raises_only_bind; [by apply raises_only_base | intros self Hself].
    assert (∀ k x, properties self !! k = Some x →
              py_pow_overflows x 2 = false) as Hself_no.
    { intros k x Hk.
      unfold AbstractBasicScattering_init in Hself.
      apply bind_Ok_inv in Hself as (pm & Hpm & Hself).
      apply bind_Ok_inv in Hself as (nm & _ & Hself).
      inversion Hself; subst self. cbn in Hk.
      rewrite (dict_comp_lookup _ _ _ Hpm k) in Hk.
      case_decide as Hin; [| done]. rewrite to_option_dict_get in Hk.
      by apply (Hno k). }
    apply raises_only_bind; [by apply raises_only_dict_get | intros eps _].
    apply raises_only_bind;
      [by apply raises_only_bh_impurity_concentration_no_overflow
      | intros imp _].
    apply raises_only_bind;
      [by apply raises_only_get_normalized_energies | intros ne _].
    apply raises_only_bind;
      [by apply raises_only_get_dos_effective_masses | intros dos _].
    apply raises_only_bind; [by apply raises_only_dict_get | intros sd Hsd].
    apply raises_only_bind; [| intros; apply raises_only_Ok].
    eapply raises_only_py_pow_no_overflow, Hself_no, dict_get_Ok_inv, Hsd.
  - intros st _.
    apply raises_only_bind; [| intros; apply raises_only_Ok].
    apply raises_only_dict_comp. intros s _.
    apply raises_only_bind;
      [by apply raises_only_bh_ir_rates | intros r _].
    by apply raises_only_take_idx4.
Qed.
End overflow_provenance.

(** X13.  The only [OverflowError] of the module is the one of the three
    squares: a construction that raises it is [BrooksHerringScattering]'s,
    and the square of one of its three properties overflows.  (The
    screening calculation and the unit constants are imported; they are
    taken as given.) *)
Theorem OverflowError_only_squares {F} `{Float64 F} `{Externals F} m
    (props : gmap string F) (d : AmsetData F) :
  construct m props d = Raise OverflowError →
  m = IMP
  ∧ ∃ k x, k ∈ required_properties IMP ∧ props !! k = Some x
      ∧ py_pow_overflows x 2 = true.
Proof.
  set (P := λ e : exn, e ≠ OverflowError).
  assert (HK : ∀ k, P (KeyError k)) by done.
  assert (HI : P IndexError) by done.
  assert (HV : P ValueError) by done.
  destruct m; cbv [construct]; intros Hc.
  - exfalso. revert Hc.
    match goal with |- ?r = _ → _ =>
      assert (raises_only P r) as Hr; [| by intros ?%Hr] end.
    unfold ConstantRelaxationTime_init.
    apply raises_only_bind; [by apply raises_only_base | intros self _].
    apply raises_only_bind; [by apply raises_only_dict_get | intros tau _].
    apply raises_only_bind; [| intros rate _].
    { unfold py_truediv. destruct (feqb _ _);
        [by apply raises_only_Raise | apply raises_only_Ok]. }
    apply raises_only_bind; [| intros shape _].
    { apply raises_only_dict_comp. intros s _.
      apply raises_only_bind; [by apply raises_only_dict_get |].
      intros; apply raises_only_Ok. }
    apply raises_only_bind; [| intros; apply raises_only_Ok].
    apply raises_only_dict_comp. intros s _.
    apply raises_only_bind; [by apply raises_only_dict_get |].
    intros; apply raises_only_Ok.
  - exfalso.
    by apply (raises_only_MeanFreePathScattering_init P HK HI _ _ _ Hc).
  - split; [done |].
    set (over := λ k, match props !! k with
                      | Some x => py_pow_overflows x 2
                      | None => false
                      end).
    assert (∀ k, k ∈ required_properties IMP → over k = true →
              ∃ k x, k ∈ required_properties IMP ∧ props !! k = Some x
                ∧ py_pow_overflows x 2 = true) as Hfound.
    { intros k Hin Ho. unfold over in Ho.
      destruct (props !! k) as [x|] eqn:Hk; [| done]. by exists k, x. }
    destruct (over "acceptor_charge") eqn:Hoa;
      [apply (Hfound "acceptor_charge"); [cbn; set_solver | done] |].
    destruct (over "donor_charge") eqn:Hod;
      [apply (Hfound "donor_charge"); [cbn; set_solver | done] |].
    destruct (over "static_dielectric") eqn:Hoe;
      [apply (Hfound "static_dielectric"); [cbn; set_solver | done] |].
    exfalso.
    refine (raises_only_BrooksHerringScattering_init_no_overflow P HK HI HV
              props d _ OverflowError Hc eq_refl).
    intros k x Hin Hk. cbn in Hin. rewrite !elem_of_cons in Hin.
    unfold over in Hoa, Hod, Hoe.
    destruct Hin as [->|[->|[->|Hin]]];
      [by rewrite Hk in Hoa | by rewrite Hk in Hod | by rewrite Hk in Hoe
      | by apply elem_of_nil in Hin].
Qed.

Lemma result_cases {A} (P : exn → Prop) (r : result A) :
  raises_only P r → (∀ a, r ≠ Ok a) → ∃ e, r = Raise e ∧ P e.
Proof.
  intros Hr Hn. destruct r as [a|e]; [by destruct (Hn a) |].
  exists e. split; [done | by apply Hr].
Qed.

Lemma raises_IndexError {A} (r : result A) :
  raises_only (eq IndexError) r → (∀ a, r ≠ Ok a) → r = Raise IndexError.
Proof. intros Hr Hn. destruct (result_cases _ _ Hr Hn) as (e & -> & <-). done. Qed.

Lemma raises_ValueError {A} (r : result A) :
  raises_only (eq ValueError) r → (∀ a, r ≠ Ok a) → r = Raise ValueError.
Proof. intros Hr Hn. destruct (result_cases _ _ Hr Hn) as (e & -> & <-). done. Qed.

Lemma foldM_Ok_all {A S} (f : S → A → result S) s l s' :
  foldM f s l = Ok s' → ∀ x, x ∈ l → ∃ s1 s2, f s1 x = Ok s2.
Proof.
  revert s. induction l as [|y l IH]; intros s Hs x Hx; cbn in Hs.
  - by apply elem_of_nil in Hx.
  - apply bind_Ok_inv in Hs as (s1 & Hy & Hs).
    apply elem_of_cons in Hx as [->|Hx]; [eauto | by eapply IH].
Qed.

(** ** An irreducible index past the mesh *)

Lemma take_idx_out_of_range {A} idx (row : list A) i :
  i ∈ idx → (length row ≤ i)%nat → take_idx idx row = Raise IndexError.
Proof.
  intros Hi Hlen. apply raises_IndexError.
  - by apply raises_only_take_idx.
  - intros l Hl. destruct (traverse_elem _ _ _ _ Hl Hi) as (y & Hy & _).
    unfold getitem in Hy. by rewrite lookup_ge_None_2 in Hy.
Qed.

Lemma take_idx2_out_of_range {A} idx (a : array2 A) nb nk i :
  shape2 nb nk a → 0 < nb → i ∈ idx → (nk ≤ i)%nat →
  take_idx2 idx a = Raise IndexError.
Proof.
  intros [Hn Hr] Hnb Hi Hle. destruct a as [|r a]; cbn in *; [lia |].
  apply Forall_cons in Hr as [Hr _].
  rewrite (take_idx_out_of_range idx r i); [done | done | lia].
Qed.

Lemma take_idx4_out_of_range {A} idx (a : array4 A) nb n2 n3 nk i :
  shape4 nb n2 n3 nk a → 0 < nb → 0 < n2 → 0 < n3 → i ∈ idx → (nk ≤ i)%nat →
  take_idx4 idx a = Raise IndexError.
Proof.
  intros [Hn Hr] Hnb H2 H3 Hi Hle. destruct a as [|x a]; cbn in *; [lia |].
  apply Forall_cons in Hr as [[Hx Hxr] _].
  destruct x as [|y x]; cbn in *; [lia |].
  apply Forall_cons in Hxr as [Hy _].
  change (traverse (take_idx idx) y) with (take_idx2 idx y).
  by rewrite (take_idx2_out_of_range idx y n3 nk i).
Qed.

(** A comprehension whose keys fail, if at all, with one exception. *)
Lemma dict_comp_raise_uniform `{Countable K} {V} (f : K → result V) keys e0 :
  (∀ k, k ∈ keys → raises_only (eq e0) (f k)) →
  (∃ k, k ∈ keys ∧ f k = Raise e0) →
  dict_comp f keys = Raise e0.
Proof.
  intros Hf (k & Hk & Hfk).
  destruct (dict_comp_raise f keys) as (l1 & k' & l2 & e & -> & _ & He & ->).
  { exists k. by rewrite Hfk. }
  f_equal. symmetry. apply (Hf k'); [| done].
  apply elem_of_app. right. left.
Qed.

Lemma foldM_raise_uniform {A S} (f : S → A → result S) s l e0 :
  (∀ s x, x ∈ l → raises_only (eq e0) (f s x)) →
  (∃ x, x ∈ l ∧ ∀ s, f s x = Raise e0) →
  foldM f s l = Raise e0.
Proof.
  intros Hf (x & Hx & Hfx).
  destruct (foldM f s l) as [s'|e] eqn:Hr.
  - destruct (foldM_Ok_all _ _ _ _ Hr x Hx) as (s1 & s2 & Hs). by rewrite Hfx in Hs.
  - f_equal. symmetry. revert Hr. by apply raises_only_foldM.
Qed.

(** X5.  An index of [ir_kpoints_idx] at or past the number of k-points
    of the mesh raises [IndexError] in both helpers and in
    [MeanFreePathScattering], on a dataset otherwise well-formed whose
    first spin has a band. *)
Theorem ir_kpoints_idx_out_of_range {F} `{Float64 F} `{Externals F}
    (d : AmsetData F) nb nk i s l :
  i ∈ ir_kpoints_idx d → (nk ≤ i)%nat →
  spins d = s :: l → 0 < nb s →
  (masses_shaped nb nk d → get_dos_effective_masses d = Raise IndexError)
  ∧ (energies_shaped nb nk d →
     (is_metal d = false → bands_ok nb d ∧ 0 < nk) →
     get_normalized_energies d = Raise IndexError)
  ∧ (∀ props : gmap string F,
       is_Some (props !! "mean_free_path") →
       energies_shaped nb nk d → velocities_shaped nb nk d →
       MeanFreePathScattering_init props d = Raise IndexError).
Proof.
  intros Hi Hle Hsp Hnb.
  assert (Hs : s ∈ spins d) by (rewrite Hsp; left).
  split_and!.
  - intros Hm. destruct (Hm s Hs) as (m & Hm1 & Hm2).
    unfold get_dos_effective_masses. rewrite Hsp.
    apply (dict_comp_raise_at _ [] s l); [by intros ? ?%elem_of_nil |].
    rewrite (dict_get_Some _ _ _ _ Hm1), bind_Ok.
    by rewrite (take_idx4_out_of_range _ _ (nb s) 3 3 nk i) by (done || lia).
  - intros He Hb. destruct (He s Hs) as (e & He1 & He2).
    unfold get_normalized_energies. cbv zeta.
    match goal with |- (?r ≫= _) = _ => destruct (dict_comp_is_Ok
      (λ spin, e ← dict_get KSpin (energies d) spin;
         Ok (np_empty4 ((np_shape2 (fermi_levels d)).1,
                        (np_shape2 (fermi_levels d)).2,
                        length e, length (ir_kpoints_idx d))))
      (spins d)) as [e0 ->] end.
    { intros k (e' & He' & _)%He. rewrite (dict_get_Some _ _ _ _ He'). eauto. }
    rewrite bind_Ok.
    assert (Hbad : take_idx2 (ir_kpoints_idx d) e = Raise IndexError)
      by by apply (take_idx2_out_of_range _ _ (nb s) nk i).
    destruct (is_metal d) eqn:Hmetal.
    + rewrite Hsp. cbn. by rewrite (dict_get_Some _ _ _ _ He1), bind_Ok, Hbad.
    + destruct Hb as [Hb Hnk]; [done |].
      destruct (band_edges_Ok d nb nk He Hb Hnk) as (vbm & cbm & -> & ->).
      rewrite !bind_Ok, Hsp. cbn.
      by rewrite (dict_get_Some _ _ _ _ He1), bind_Ok, Hbad.
  - intros props [mfp Hmfp] He Hv. destruct (Hv s Hs) as (v & Hv1 & Hv2).
    unfold MeanFreePathScattering_init.
    destruct (AbstractBasicScattering_init_Ok (required_properties MFP)
                props d) as (self & -> & Hp & _ & _ & _ & Hss & _).
    { intros k ->%list_elem_of_singleton. by rewrite Hmfp. }
    { intros s' (e & -> & _)%He. eauto. }
    rewrite bind_Ok, (dict_get_Some _ _ _ mfp), bind_Ok.
    2:{ rewrite Hp, decide_True; [done | by left]. }
    rewrite Hss, Hsp.
    rewrite (dict_comp_raise_at _ [] s l IndexError);
      [done | by intros ? ?%elem_of_nil |].
    unfold mfp_ir_rates, velocity_norms.
    rewrite (dict_get_Some _ _ _ _ Hv1), bind_Ok.
    by rewrite (take_idx4_out_of_range _ _ (nb s) 3 3 nk i) by (done || lia).
Qed.

Lemma elem_of_np_ndindex_2 n t a b :
  n < a → t < b → (n, t) ∈ np_ndindex (a, b).
Proof. intros. apply elem_of_np_ndindex. cbn. lia. Qed.

(** X7.  [BrooksHerringScattering] reads [doping[n]] and
    [temperatures[t]] for every index of the screening array, to format a
    log line only; a [doping] or a [temperatures] shorter than that axis
    makes the construction raise [IndexError], the squares of the two
    charges not overflowing. *)
Theorem BrooksHerring_log_line_IndexError {F} `{Float64 F} `{Externals F}
    (props : gmap string F) (d : AmsetData F) a b acceptor donor eps :
  props !! "acceptor_charge" = Some acceptor →
  props !! "donor_charge" = Some donor →
  props !! "static_dielectric" = Some eps →
  py_pow_overflows donor 2 = false →
  py_pow_overflows acceptor 2 = false →
  (∀ s, s ∈ spins d → is_Some (energies d !! s)) →
  shape2 a b (calculate_inverse_screening_length_sq d eps) →
  shape2 a b (fermi_levels d) →
  shape2 a b (electron_conc d) →
  shape2 a b (hole_conc d) →
  0 < a → 0 < b →
  length (doping d) < a ∨ length (temperatures d) < b →
  BrooksHerringScattering_init props d = Raise IndexError.
Proof.
  intros Ha Hd He Hod Hoa Hen Hisl Hfl Hec Hhc Hpa Hpb Hshort.
  unfold BrooksHerringScattering_init, BrooksHerringScattering_setup.
  destruct (AbstractBasicScattering_init_Ok (required_properties IMP)
              props d) as (self & -> & Hp & _ & _ & _ & _ & _); [| done |].
  { intros k Hk. cbn in Hk. rewrite !elem_of_cons in Hk.
    destruct Hk as [->|[->|[->|Hk]]];
      [by rewrite Ha | by rewrite Hd | by rewrite He
      | by apply elem_of_nil in Hk]. }
  assert (Hpe : properties self !! "static_dielectric" = Some eps).
  { rewrite Hp, decide_True; [done |]. cbn. rewrite !elem_of_cons. auto. }
  assert (Hpd : properties self !! "donor_charge" = Some donor).
  { rewrite Hp, decide_True; [done |]. cbn. rewrite !elem_of_cons. auto. }
  assert (Hpa' : properties self !! "acceptor_charge" = Some acceptor).
  { rewrite Hp, decide_True; [done |]. cbn. rewrite !elem_of_cons. auto. }
  rewrite bind_Ok, (dict_get_Some _ _ _ _ Hpe), bind_Ok.
  enough (bh_impurity_concentration self d
            (calculate_inverse_screening_length_sq d eps)
          = Raise IndexError) as -> by done.
  unfold bh_impurity_concentration.
  destruct (np_shape2_spec _ _ _ Hisl) as [Hs1 Hs2].
  replace (np_shape2 (calculate_inverse_screening_length_sq d eps))
    with (a, b).
  2:{ destruct (np_shape2 _) as [x y]; cbn in *. f_equal; [done |].
      symmetry. apply Hs2. lia. }
  assert (Hbody : ∀ s x, raises_only (eq IndexError)
    (let '(n, t) := x in
     n_conc ← getitem2 (electron_conc d) n t;
     p_conc ← getitem2 (hole_conc d) n t;
     donor ← dict_get KStr (properties self) "donor_charge";
     donor_sq ← py_pow donor 2;
     acceptor ← dict_get KStr (properties self) "acceptor_charge";
     acceptor_sq ← py_pow acceptor 2;
     imp ← setitem2 s n t
             (fadd (fmul (fabs n_conc) donor_sq)
                   (fmul (fabs p_conc) acceptor_sq));
     _ ← getitem (doping d) n;
     _ ← getitem (temperatures d) t;
     Ok imp)).
  { intros s [n t].
    rewrite (dict_get_Some _ _ _ _ Hpd), (dict_get_Some _ _ _ _ Hpa').
    apply raises_only_bind; [by apply raises_only_getitem2 | intros ? _].
    apply raises_only_bind; [by apply raises_only_getitem2 | intros ? _].
    rewrite bind_Ok, (py_pow_Ok _ _ Hod), !bind_Ok.
    rewrite (py_pow_Ok _ _ Hoa), bind_Ok.
    apply raises_only_bind; [by apply raises_only_setitem2 | intros ? _].
    apply raises_only_bind; [by apply raises_only_getitem | intros ? _].
    apply raises_only_bind; [by apply raises_only_getitem | intros ? _].
    apply raises_only_Ok. }
  apply foldM_raise_uniform.
  { intros s x _. apply (Hbody s x). }
  assert (∃ n t, n < a ∧ t < b
            ∧ (doping d !! n = None ∨ temperatures d !! t = None))
    as (n & t & Hn & Ht & Hnone).
  { destruct Hshort as [Hl|Hl].
    - exists (length (doping d)), 0. split_and!; [done | done |].
      left. by apply lookup_ge_None_2.
    - exists 0, (length (temperatures d)). split_and!; [done | done |].
      right. by apply lookup_ge_None_2. }
  exists (n, t). split; [by apply elem_of_np_ndindex_2 |].
  intros s. apply raises_IndexError; [apply (Hbody s (n, t)) |].
  intros r Hr.
  do 7 (apply bind_Ok_inv in Hr as (? & _ & Hr)).
  apply bind_Ok_inv in Hr as (? & Hdn & Hr).
  apply bind_Ok_inv in Hr as (? & Htn & Hr).
  unfold getitem in Hdn, Htn.
  destruct Hnone as [Hnone|Hnone]; [by rewrite Hnone in Hdn
                                   | by rewrite Hnone in Htn].
Qed.

Lemma traverse_length {A B} (f : A → result B) l l' :
  traverse f l = Ok l' → length l' = length l.
Proof.
  revert l'. induction l as [|x l IH]; intros l' Hl; cbn in Hl.
  - by inversion Hl.
  - apply bind_Ok_inv in Hl as (y & _ & Hl).
    apply bind_Ok_inv in Hl as (ys & Hys & Hl). inversion Hl; subst. cbn.
    f_equal. by apply IH.
Qed.

Lemma concat_empty_rows {A} (a : array2 A) :
  Forall (λ r, length r = 0) a → concat a = [].
Proof.
  induction 1 as [|r a Hr _ IH]; [done |]. cbn. rewrite IH.
  destruct r; [done | discriminate].
Qed.

Lemma np_min_Ok_nonempty {F} `{Float64 F} (l : list F) x :
  np_min l = Ok x → l ≠ [].
Proof. by destruct l. Qed.

Lemma raises_only_band_edge {F} `{Float64 F} (d : AmsetData F) nb nk
    (red : list F → result F) (sel : nat → array2 F → array2 F) :
  (∀ l, raises_only (eq ValueError) (red l)) →
  energies_shaped nb nk d →
  (∀ s, s ∈ spins d → is_Some (vb_idx d !! s)) →
  raises_only (eq ValueError)
    (l ← traverse (λ s, e ← dict_get KSpin (energies d) s;
                        vb ← dict_get KSpin (vb_idx d) s;
                        red (concat (sel (vb + 1) e))) (spins d);
     red l).
Proof.
  intros Hred He Hvb.
  apply raises_only_bind; [| intros; apply Hred].
  apply raises_only_traverse. intros s Hs.
  destruct (He s Hs) as (e & He1 & _). destruct (Hvb s Hs) as [vb Hvb1].
  rewrite (dict_get_Some _ _ _ _ He1), bind_Ok.
  rewrite (dict_get_Some _ _ _ _ Hvb1), bind_Ok. apply Hred.
Qed.

Lemma cbm_e_Ok_bands {F} `{Float64 F} (d : AmsetData F) nb nk cbm :
  energies_shaped nb nk d → cbm_e d = Ok cbm →
  spins d ≠ [] ∧ nk ≠ 0
  ∧ ∀ s vb, s ∈ spins d → vb_idx d !! s = Some vb → vb + 1 < nb s.
Proof.
  intros He Hc. unfold cbm_e in Hc.
  apply bind_Ok_inv in Hc as (l & Hl & Hmin).
  apply np_min_Ok_nonempty in Hmin.
  assert (Hsp : spins d ≠ []).
  { intros Hnil. rewrite Hnil in Hl. cbn in Hl. by inversion Hl. }
  assert (Hall : ∀ s, s ∈ spins d →
            ∃ e vb, energies d !! s = Some e ∧ shape2 (nb s) nk e
              ∧ vb_idx d !! s = Some vb ∧ concat (drop (vb + 1) e) ≠ []).
  { intros s Hs. destruct (traverse_elem _ _ _ _ Hl Hs) as (y & Hy & _).
    unfold conduction_min in Hy.
    destruct (He s Hs) as (e & He1 & He2).
    rewrite (dict_get_Some _ _ _ _ He1), bind_Ok in Hy.
    apply bind_Ok_inv in Hy as (vb & Hvb & Hy).
    exists e, vb. split_and!; [done | done | | by eapply np_min_Ok_nonempty].
    unfold dict_get in Hvb. destruct (vb_idx d !! s); by inversion Hvb. }
  split_and!; [done | |].
  - intros ->. destruct (spins d) as [|s l'] eqn:Hs; [done |].
    destruct (Hall s) as (e & vb & _ & [_ Hr] & _ & Hne); [left |].
    apply Hne, concat_empty_rows. by apply Forall_drop.
  - intros s vb Hs Hvb.
    destruct (Hall s Hs) as (e & vb' & _ & [Hn _] & Hvb' & Hne).
    assert (vb' = vb) as -> by congruence.
    destruct (decide (vb + 1 < nb s)) as [|Hge]; [done |].
    exfalso. apply Hne. by rewrite drop_ge by lia.
Qed.

(** X9.  For a dataset that is not a metal, the band edges need a band
    above [vb_idx[spin]] for every spin, a spin and a k-point: without
    them [np.max] or [np.min] meets a zero-size array and
    [get_normalized_energies] raises [ValueError]; so does the
    construction of [BrooksHerringScattering] on such a dataset, when the
    squares of the two charges do not overflow before. *)
Theorem no_conduction_band_ValueError {F} `{Float64 F} `{Externals F}
    (d : AmsetData F) nb nk :
  is_metal d = false →
  energies_shaped nb nk d →
  (∀ s, s ∈ spins d → is_Some (vb_idx d !! s)) →
  (spins d = [] ∨ nk = 0
   ∨ ∃ s vb, s ∈ spins d ∧ vb_idx d !! s = Some vb ∧ (nb s ≤ vb + 1)%nat) →
  get_normalized_energies d = Raise ValueError
  ∧ ∀ (props : gmap string F) nd nt acceptor donor eps,
      props !! "acceptor_charge" = Some acceptor →
      props !! "donor_charge" = Some donor →
      props !! "static_dielectric" = Some eps →
      py_pow_overflows donor 2 = false →
      py_pow_overflows acceptor 2 = false →
      shape2 nd nt (fermi_levels d) →
      shape2 nd nt (electron_conc d) →
      shape2 nd nt (hole_conc d) →
      shape2 nd nt (calculate_inverse_screening_length_sq d eps) →
      length (doping d) = nd → length (temperatures d) = nt →
      BrooksHerringScattering_init props d = Raise ValueError.
Proof.
  intros Hmetal He Hvb Hbad.
  assert (Hne : get_normalized_energies d = Raise ValueError).
  { unfold get_normalized_energies. cbv zeta.
    match goal with |- (?r ≫= _) = _ => destruct (dict_comp_is_Ok
      (λ spin, e ← dict_get KSpin (energies d) spin;
         Ok (np_empty4 ((np_shape2 (fermi_levels d)).1,
                        (np_shape2 (fermi_levels d)).2,
                        length e, length (ir_kpoints_idx d))))
      (spins d)) as [e0 ->] end.
    { intros k (e' & He' & _)%He. rewrite (dict_get_Some _ _ _ _ He'). eauto. }
    rewrite bind_Ok, Hmetal.
    destruct (vbm_e d) as [vbm|e] eqn:Hvbm.
    2:{ cbn. f_equal. symmetry. revert Hvbm.
        apply (raises_only_band_edge d nb nk np_max take); [| done | done].
        intros l. by apply raises_only_np_max. }
    rewrite bind_Ok.
    destruct (cbm_e d) as [cbm|e] eqn:Hcbm.
    2:{ cbn. f_equal. symmetry. revert Hcbm.
        apply (raises_only_band_edge d nb nk np_min drop); [| done | done].
        intros l. by apply raises_only_np_min. }
    exfalso. destruct (cbm_e_Ok_bands d nb nk cbm He Hcbm) as (Hsp & Hnk & Hb).
    destruct Hbad as [?|[?|(s & vb & Hs & Hvbs & Hle)]]; [done | done |].
    specialize (Hb s vb Hs Hvbs). lia. }
  split; [done |].
  intros props nd nt acceptor donor eps Ha Hd Hep Hod Hoa
    Hfl Hec Hhc Hisl Hnd Hnt.
  unfold BrooksHerringScattering_init, BrooksHerringScattering_setup.
  destruct (AbstractBasicScattering_init_Ok (required_properties IMP)
              props d) as (self & -> & Hp & _ & _ & _ & _ & _).
  { intros k Hk. cbn in Hk. rewrite !elem_of_cons in Hk.
    destruct Hk as [->|[->|[->|Hk]]];
      [by rewrite Ha | by rewrite Hd | by rewrite Hep
      | by apply elem_of_nil in Hk]. }
  { intros s (e & -> & _)%He. eauto. }
  assert (Hpe : properties self !! "static_dielectric" = Some eps).
  { rewrite Hp, decide_True; [done |]. cbn. rewrite !elem_of_cons. auto. }
  assert (Hpd : properties self !! "donor_charge" = Some donor).
  { rewrite Hp, decide_True; [done |]. cbn. rewrite !elem_of_cons. auto. }
  assert (Hpa : properties self !! "acceptor_charge" = Some acceptor).
  { rewrite Hp, decide_True; [done |]. cbn. rewrite !elem_of_cons. auto. }
  rewrite bind_Ok, (dict_get_Some _ _ _ _ Hpe), bind_Ok.
  rewrite (bh_impurity_concentration_Ok self d _ nd nt donor acceptor)
    by done.
  by rewrite bind_Ok, Hne.
Qed.

(** X12.  The squares of the three material properties are Python's
    [float ** 2], which raises [OverflowError] when the square of a finite
    number is an infinity.  On a dataset whose concentrations and screening
    array have a (doping, temperature) entry, a donor or an acceptor charge
    whose square overflows makes the construction of
    [BrooksHerringScattering] raise [OverflowError] in the first iteration
    of the loop of lines 101-116; on a well-formed dataset, so does a
    static dielectric constant whose square overflows (line 137). *)
Theorem BrooksHerring_square_OverflowError {F} `{Float64 F} `{Externals F}
    (props : gmap string F) (d : AmsetData F) nd nt acceptor donor eps :
  props !! "acceptor_charge" = Some acceptor →
  props !! "donor_charge" = Some donor →
  props !! "static_dielectric" = Some eps →
  (∀ s, s ∈ spins d → is_Some (energies d !! s)) →
  shape2 nd nt (calculate_inverse_screening_length_sq d eps) →
  shape2 nd nt (fermi_levels d) →
  shape2 nd nt (electron_conc d) →
  shape2 nd nt (hole_conc d) →
  (0 < nd → 0 < nt →
   py_pow_overflows donor 2 = true ∨ py_pow_overflows acceptor 2 = true →
   BrooksHerringScattering_init props d = Raise OverflowError)
  ∧ (∀ nb nk,
       dataset_ok nd nt nb nk d →
       py_pow_overflows donor 2 = false →
       py_pow_overflows acceptor 2 = false →
       py_pow_overflows eps 2 = true →
       BrooksHerringScattering_init props d = Raise OverflowError).
Proof.
  intros Ha Hd He Hen Hisl Hfl Hec Hhc.
  unfold BrooksHerringScattering_init, BrooksHerringScattering_setup.
  destruct (AbstractBasicScattering_init_Ok (required_properties IMP)
              props d) as (self & -> & Hp & _ & _ & _ & _ & _); [| done |].
  { intros k Hk. cbn in Hk. rewrite !elem_of_cons in Hk.
    destruct Hk as [->|[->|[->|Hk]]];
      [by rewrite Ha | by rewrite Hd | by rewrite He
      | by apply elem_of_nil in Hk]. }
  assert (Hpe : properties self !! "static_dielectric" = Some eps).
  { rewrite Hp, decide_True; [done |]. cbn. rewrite !elem_of_cons. auto. }
  assert (Hpd : properties self !! "donor_charge" = Some donor).
  { rewrite Hp, decide_True; [done |]. cbn. rewrite !elem_of_cons. auto. }
  assert (Hpa : properties self !! "acceptor_charge" = Some acceptor).
  { rewrite Hp, decide_True; [done |]. cbn. rewrite !elem_of_cons. auto. }
  rewrite bind_Ok, (dict_get_Some _ _ _ _ Hpe), bind_Ok.
  split.
  - intros Hnd Hnt Hov.
    enough (bh_impurity_concentration self d
              (calculate_inverse_screening_length_sq d eps)
            = Raise OverflowError) as -> by done.
    unfold bh_impurity_concentration.
    destruct (np_shape2_spec _ _ _ Hisl) as [Hs1 Hs2].
    replace (np_shape2 (calculate_inverse_screening_length_sq d eps))
      with (nd, nt).
    2:{ destruct (np_shape2 _) as [x y]; cbn in *. f_equal; [done |].
        symmetry. apply Hs2. lia. }
    destruct nd as [|nd']; [lia |]. destruct nt as [|nt']; [lia |].
    cbn [np_ndindex fst snd seq mbind list_bind fmap list_fmap app foldM].
    rewrite (getitem2_at2 (S nd') (S nt') (electron_conc d)), bind_Ok
      by (done || lia).
    rewrite (getitem2_at2 (S nd') (S nt') (hole_conc d)), bind_Ok
      by (done || lia).
    rewrite (dict_get_Some _ _ _ _ Hpd), bind_Ok.
    destruct (py_pow_overflows donor 2) eqn:Hod.
    { by rewrite (py_pow_overflow _ _ Hod). }
    destruct Hov as [?|Hoa]; [done |].
    rewrite (py_pow_Ok _ _ Hod), bind_Ok.
    rewrite (dict_get_Some _ _ _ _ Hpa), bind_Ok.
    by rewrite (py_pow_overflow _ _ Hoa).
  - intros nb nk (_ & _ & _ & Hdop & Htemp & Hen' & _ & Hmass & _
                  & (Hir & _) & Hsemi) Hod Hoa Hoe.
    rewrite (bh_impurity_concentration_Ok self d _ nd nt donor acceptor)
      by done.
    rewrite bind_Ok.
    destruct (get_normalized_energies_Ok d nb nk Hen' Hir Hsemi)
      as (ne & vbm & cbm & -> & _).
    rewrite bind_Ok.
    destruct (get_dos_effective_masses_Ok d nb nk Hmass Hir)
      as (dos & -> & _).
    by rewrite !bind_Ok, (py_pow_overflow _ _ Hoe).
Qed.

(** X11.  In binary64, a negative entry on the diagonal of the velocity
    product at a band and an irreducible k-point makes the rate of
    [MeanFreePathScattering] NaN at every full k-point it represents:
    the square root is NaN, the comparison with 0.005 is false for it, and
    nothing replaces it ([BrooksHerringScattering] zeroes its NaN). *)
Theorem MeanFreePathScattering_keeps_NaN (E : Externals float)
    (props : gmap string float) (d : AmsetData float)
    mean_free_path nb nk s v b i k :
  props !! "mean_free_path" = Some mean_free_path →
  energies_shaped nb nk d →
  velocities_shaped nb nk d →
  kpoints_ok nk d →
  s ∈ spins d → velocities_product d !! s = Some v →
  b < nb s → k < nk → i < 3 →
  PrimFloat.ltb
    (at4 v b i i (ir_kpoints_idx d !!! (ir_to_full_kpoint_mapping d !!! k)))
    0 = true →
  ∃ self r, MeanFreePathScattering_init props d = Ok self
    ∧ rates self !! s = Some r
    ∧ ∀ n t, n < length (doping d) → t < length (temperatures d) →
        ∃ x, ix4 r n t b k = Some x ∧ PrimFloat.is_nan x = true.
Proof.
  intros Hmfp He Hv Hk Hs Hvs Hb Hkk Hi Hneg.
  destruct (MeanFreePathScattering_init_Ok props d mean_free_path nb nk)
    as (self & Hself & _ & _ & _ & Hr); try done.
  { intros s' (e & -> & _)%He. eauto. }
  destruct (Hr s Hs) as (v' & Hv' & _ & Hrs).
  assert (v' = v) as -> by congruence.
  eexists self, _. split_and!; [done | exact Hrs |].
  intros n t Hn Ht. eexists. split; [by apply ix4_tab4 |].
  cbn [fdiv fmul binary64]. apply is_nan_div_l, is_nan_mul. left.
  pose proof (velocity_at_nan v b _ i Hi Hneg) as Hnan.
  by rewrite (clamp_velocity_nan _ Hnan).
Qed.

(** X6.  A position of [ir_to_full_kpoint_mapping] at or past the number
    of irreducible k-points makes [MeanFreePathScattering] raise
    [IndexError] when the rates are expanded to the full mesh. *)
Theorem ir_to_full_kpoint_mapping_out_of_range
    {F} `{Float64 F} `{Externals F}
    (props : gmap string F) (d : AmsetData F) nb nk j s l :
  is_Some (props !! "mean_free_path") →
  energies_shaped nb nk d →
  velocities_shaped nb nk d →
  Forall (λ i, i < nk) (ir_kpoints_idx d) →
  j ∈ ir_to_full_kpoint_mapping d →
  (length (ir_kpoints_idx d) ≤ j)%nat →
  spins d = s :: l → 0 < nb s →
  0 < length (doping d) → 0 < length (temperatures d) →
  MeanFreePathScattering_init props d = Raise IndexError.
Proof.
  intros [mfp Hmfp] He Hv Hir Hj Hle Hsp Hnb Hnd Hnt.
  assert (Hs : s ∈ spins d) by (rewrite Hsp; left).
  destruct (Hv s Hs) as (v & Hv1 & Hv2).
  unfold MeanFreePathScattering_init.
  destruct (AbstractBasicScattering_init_Ok (required_properties MFP)
              props d) as (self & -> & Hp & _ & Hsd & Hst & Hss & _).
  { intros k ->%list_elem_of_singleton. by rewrite Hmfp. }
  { intros s' (e & -> & _)%He. eauto. }
  rewrite bind_Ok, (dict_get_Some _ _ _ mfp), bind_Ok.
  2:{ rewrite Hp, decide_True; [done | by left]. }
  rewrite Hss, Hsp.
  rewrite (dict_comp_raise_at _ [] s l IndexError);
    [done | by intros ? ?%elem_of_nil |].
  rewrite (mfp_ir_rates_Ok self _ d s v (nb s) nk) by done.
  rewrite bind_Ok, Hsd, Hst.
  apply (take_idx4_out_of_range _ _ (length (doping d))
           (length (temperatures d)) (nb s) (length (ir_kpoints_idx d)) j);
    try done.
  apply shape4_tab4.
Qed.

(** ** Operands that cannot be broadcast *)

Lemma bzip_mismatch {A B C} (f : A → B → result C) la lb :
  (2 ≤ length la)%nat → (2 ≤ length lb)%nat → length la ≠ length lb →
  bzip f la lb = Raise ValueError.
Proof.
  intros Ha Hb Hne. unfold bzip.
  destruct la as [|x [|x' la]]; cbn in Ha; [lia | lia |].
  destruct lb as [|y [|y' lb]]; cbn in Hb; [lia | lia |].
  by rewrite decide_False.
Qed.

Lemma bzip_raise_first {A B C} (f : A → B → result C) x la y lb :
  f x y = Raise ValueError → bzip f (x :: la) (y :: lb) = Raise ValueError.
Proof.
  intros Hf. unfold bzip.
  destruct la as [|x' la]; [cbn; by rewrite Hf |].
  destruct lb as [|y' lb]; [cbn; by rewrite Hf |].
  case_decide; [| done]. cbn. by rewrite Hf.
Qed.

(** The loop of lines 101-116 needs [doping] and [temperatures] only to be
    long enough. *)
Lemma bh_impurity_concentration_long {F} `{Float64 F} `{Externals F}
    (self : BasicScattering F) (d : AmsetData F) isl nd nt donor acceptor :
  properties self !! "donor_charge" = Some donor →
  properties self !! "acceptor_charge" = Some acceptor →
  py_pow_overflows donor 2 = false →
  py_pow_overflows acceptor 2 = false →
  shape2 nd nt (fermi_levels d) →
  shape2 nd nt (electron_conc d) →
  shape2 nd nt (hole_conc d) →
  shape2 nd nt isl →
  (nd ≤ length (doping d))%nat → (nt ≤ length (temperatures d))%nat →
  ∃ imp, bh_impurity_concentration self d isl = Ok imp.
Proof.
  intros Hdon Hacc Hod Hoa Hfl Hec Hhc Hisl Hdop Htemp.
  unfold bh_impurity_concentration.
  set (g := λ n t, bh_impurity (at2 (electron_conc d) n t)
                               (at2 (hole_conc d) n t) donor acceptor).
  assert (∀ n t, (n, t) ∈ np_ndindex (np_shape2 isl) → n < nd ∧ t < nt)
    as Hrange.
  { intros n t [Hn Ht]%elem_of_np_ndindex.
    destruct (np_shape2_spec _ _ _ Hisl) as [H1 H2].
    rewrite H1 in Hn. rewrite H2 in Ht by lia. done. }
  assert (shape2 nd nt (np_zeros2 (np_shape2 (fermi_levels d)))) as Hz.
  { unfold np_zeros2. rewrite !replicate_tab.
    change (shape2 nd nt (tab2 (np_shape2 (fermi_levels d)).1
                               (np_shape2 (fermi_levels d)).2
                               (λ _ _, of_int 0))).
    rewrite (tab2_np_shape2 nd nt) by done. apply shape2_tab2. }
  eexists. apply (foldM_pure _
    (λ a nt, alter (λ r, <[nt.2 := g nt.1 nt.2]> r) nt.1 a)
    (shape2 nd nt)); [| done].
  intros a [n t] Ha [Hn Ht]%Hrange. cbn.
  rewrite (getitem2_at2 nd nt (electron_conc d)), bind_Ok by done.
  rewrite (getitem2_at2 nd nt (hole_conc d)), bind_Ok by done.
  rewrite (dict_get_Some _ _ _ _ Hdon), bind_Ok.
  rewrite (py_pow_Ok _ _ Hod), bind_Ok.
  rewrite (dict_get_Some _ _ _ _ Hacc), bind_Ok.
  rewrite (py_pow_Ok _ _ Hoa), bind_Ok.
  unfold setitem2. rewrite (getitem2_at2 nd nt a), bind_Ok by done.
  rewrite bind_Ok.
  destruct (getitem_lt (doping d) n) as [x ->]; [lia |].
  destruct (getitem_lt (temperatures d) t) as [y ->]; [lia |].
  rewrite !bind_Ok. split; [done |]. by apply shape2_set.
Qed.

(** X8.  The masses, velocities and polarisation factors are tiled
    [len(doping)] by [len(temperatures)] times, the normalized energies
    over [fermi_levels.shape].  With more doping levels than rows of
    [fermi_levels] (at least two rows), or more temperatures than columns
    (at least two columns), [2 * masses * energies] cannot be broadcast
    and the construction of [BrooksHerringScattering] raises numpy's
    [ValueError], none of the three squared properties overflowing
    before. *)
Theorem BrooksHerring_axes_mismatch_ValueError
    {F} `{Float64 F} `{Externals F}
    (props : gmap string F) (d : AmsetData F) nd nt nb nk
    acceptor donor eps s l :
  props !! "acceptor_charge" = Some acceptor →
  props !! "donor_charge" = Some donor →
  props !! "static_dielectric" = Some eps →
  py_pow_overflows donor 2 = false →
  py_pow_overflows acceptor 2 = false →
  py_pow_overflows eps 2 = false →
  shape2 nd nt (fermi_levels d) →
  shape2 nd nt (electron_conc d) →
  shape2 nd nt (hole_conc d) →
  shape2 nd nt (calculate_inverse_screening_length_sq d eps) →
  energies_shaped nb nk d →
  masses_shaped nb nk d →
  Forall (λ i, i < nk) (ir_kpoints_idx d) →
  (is_metal d = false → bands_ok nb d ∧ 0 < nk) →
  spins d = s :: l →
  0 < nd →
  (nd ≤ length (doping d))%nat → (nt ≤ length (temperatures d))%nat →
  (2 ≤ nd)%nat ∧ nd < length (doping d)
  ∨ (2 ≤ nt)%nat ∧ nt < length (temperatures d) →
  BrooksHerringScattering_init props d = Raise ValueError.
Proof.
  intros Ha Hd Hep Hod Hoa Hoe Hfl Hec Hhc Hisl He Hm Hir Hsemi Hsp Hnd0
    Hld Hlt Hbad.
  assert (Hs : s ∈ spins d) by (rewrite Hsp; left).
  unfold BrooksHerringScattering_init, BrooksHerringScattering_setup.
  destruct (AbstractBasicScattering_init_Ok (required_properties IMP)
              props d) as (self & -> & Hp & _ & Hsd & Hst & Hss & _).
  { intros k Hk. cbn in Hk. rewrite !elem_of_cons in Hk.
    destruct Hk as [->|[->|[->|Hk]]];
      [by rewrite Ha | by rewrite Hd | by rewrite Hep
      | by apply elem_of_nil in Hk]. }
  { intros s' (e & -> & _)%He. eauto. }
  assert (Hpe : properties self !! "static_dielectric" = Some eps).
  { rewrite Hp, decide_True; [done |]. cbn. rewrite !elem_of_cons. auto. }
  assert (Hpd : properties self !! "donor_charge" = Some donor).
  { rewrite Hp, decide_True; [done |]. cbn. rewrite !elem_of_cons. auto. }
  assert (Hpa : properties self !! "acceptor_charge" = Some acceptor).
  { rewrite Hp, decide_True; [done |]. cbn. rewrite !elem_of_cons. auto. }
  rewrite bind_Ok, (dict_get_Some _ _ _ _ Hpe), bind_Ok.
  destruct (bh_impurity_concentration_long self d
              (calculate_inverse_screening_length_sq d eps)
              nd nt donor acceptor) as [imp ->]; try done.
  rewrite bind_Ok.
  destruct (get_normalized_energies_Ok d nb nk He Hir Hsemi)
    as (ne & vbm & cbm & -> & _ & _ & Hne).
  rewrite bind_Ok.
  destruct (get_dos_effective_masses_Ok d nb nk Hm Hir)
    as (dos & -> & _ & Hdos).
  rewrite !bind_Ok, (py_pow_Ok _ _ Hoe), !bind_Ok.
  cbn [bh_self bh_prefactor4 bh_screening bh_normalized_energies
       bh_dos_effective_masses].
  rewrite Hss, Hsp.
  rewrite (dict_comp_raise_at _ [] s l ValueError);
    [done | by intros ? ?%elem_of_nil |].
  destruct (Hne s Hs) as (e & vb & _ & _ & Hnes).
  destruct (Hdos s Hs) as (m & _ & Hdoss).
  enough (bh_raw_rates self d
            (expand_dims2 (arr2_map (λ x, bh_prefactor x eps) imp))
            (expand_dims2 (calculate_inverse_screening_length_sq d eps))
            ne dos s = Raise ValueError) as Hraw.
  { unfold bh_ir_rates. unfold bh_prefactor in Hraw. by rewrite Hraw. }
  unfold bh_raw_rates. cbv zeta.
  rewrite (dict_get_Some _ _ _ _ Hdoss), bind_Ok.
  rewrite (dict_get_Some _ _ _ _ Hnes), bind_Ok.
  enough (bmap4 fmul
            (arr4_map (fmul (of_int 2))
               (np_tile2 (length (self_doping self))
                  (length (self_temperatures self))
                  (tab2 (nb s) (length (ir_kpoints_idx d))
                     (λ b q, dos_mass_at m b (ir_kpoints_idx d !!! q)))))
            (tab4 (np_shape2 (fermi_levels d)).1
               (np_shape2 (fermi_levels d)).2 (nb s)
               (length (ir_kpoints_idx d))
               (λ _ _ b q, normalized_energy d vbm cbm vb b
                             (at2 e b (ir_kpoints_idx d !!! q))))
          = Raise ValueError) as Hk.
  { unfold lift4, map4r. rewrite !bind_Ok. by rewrite Hk. }
  destruct (np_shape2_spec _ _ _ Hfl) as [-> ->]; [| lia].
  rewrite Hsd, Hst.
  unfold bmap4, np_tile2, arr4_map, tab4.
  rewrite fmap_replicate.
  destruct Hbad as [[H2 Hlt']|[H2 Hlt']].
  - apply bzip_mismatch.
    + rewrite length_replicate. lia.
    + by rewrite tab_length.
    + rewrite length_replicate, tab_length. lia.
  - destruct (length (doping d)) as [|ld] eqn:Hdl; [lia |].
    destruct nd as [|nd']; [lia |].
    cbn [replicate]. unfold tab at 1. cbn [seq fmap list_fmap].
    apply bzip_raise_first.
    unfold arr3_map. rewrite fmap_replicate.
    apply bzip_mismatch.
    + rewrite length_replicate. lia.
    + by rewrite tab_length.
    + rewrite length_replicate, tab_length. lia.
Qed.

(** X4.  [ConstantRelaxationTime] fails only with a [KeyError] or the
    [ZeroDivisionError]; [MeanFreePathScattering] and
    [get_dos_effective_masses] fail only on a lookup, a [KeyError] or an
    [IndexError]: nothing in them is broadcast, so no disagreement of
    shapes makes them fail otherwise. *)
Theorem failure_modes {F} `{Float64 F} `{Externals F} :
  (∀ (props : gmap string F) (d : AmsetData F) e,
     ConstantRelaxationTime_init props d = Raise e →
     e = ZeroDivisionError ∨ ∃ k, e = KeyError k)
  ∧ (∀ (props : gmap string F) (d : AmsetData F) e,
       MeanFreePathScattering_init props d = Raise e →
       lookup_error e = true)
  ∧ (∀ (d : AmsetData F) e,
       get_dos_effective_masses d = Raise e → lookup_error e = true).
Proof.
  split_and!.
  - intros props d.
    set (P := λ e : exn, e = ZeroDivisionError ∨ ∃ k, e = KeyError k).
    assert (HK : ∀ k, P (KeyError k)) by (intros k; right; eauto).
    change (raises_only P (ConstantRelaxationTime_init props d)).
    unfold ConstantRelaxationTime_init.
    apply raises_only_bind; [by apply raises_only_base | intros self _].
    apply raises_only_bind; [by apply raises_only_dict_get | intros tau _].
    apply raises_only_bind; [| intros rate _].
    { unfold py_truediv. destruct (feqb _ _);
        [apply raises_only_Raise; by left | apply raises_only_Ok]. }
    apply raises_only_bind; [| intros shape _].
    { apply raises_only_dict_comp. intros s _.
      apply raises_only_bind; [by apply raises_only_dict_get |].
      intros; apply raises_only_Ok. }
    apply raises_only_bind; [| intros; apply raises_only_Ok].
    apply raises_only_dict_comp. intros s _.
    apply raises_only_bind; [by apply raises_only_dict_get |].
    intros; apply raises_only_Ok.
  - intros props d e.
    by apply (raises_only_MeanFreePathScattering_init
                (λ e, lookup_error e = true)).
  - intros d e.
    by apply (raises_only_get_dos_effective_masses
                (λ e, lookup_error e = true)).
Qed.

(** ** The further properties at the example inputs *)

Lemma constructed_instance_invariants_witness :
  ∃ self, construct (H0 := stand_in_externals) MFP
            {[ "mean_free_path" := 10%float ]} d_example = Ok self
    ∧ self_spins self = [up]
    ∧ nbands self !! up = Some 2
    ∧ is_Some (rates self !! up)
    ∧ rates self !! down = None.
Proof.
  assert (∃ self, construct (H0 := stand_in_externals) MFP
            {[ "mean_free_path" := 10%float ]} d_example = Ok self)
    as [self Hself] by (eexists; vm_compute; reflexivity).
  destruct (constructed_instance_invariants (H0 := stand_in_externals) MFP
              _ d_example self Hself) as (_ & _ & Hsp & Hin & Hout).
  exists self. split; [done |]. split; [done |].
  destruct (Hin up) as (e & He & Hnb & Hr); [by left |].
  vm_compute in He. inversion He; subst e.
  split_and!; [done | done |]. apply Hout.
  cbn. by intros ?%list_elem_of_singleton.
Defined.

Lemma missing_spin_energies_KeyError_witness :
  construct (H0 := stand_in_externals) CRT
    {[ "constant_relaxation_time" := 0%float ]} d_missing_down
  = Raise (KeyError (KSpin down)).
Proof.
  apply (missing_spin_energies_KeyError (H0 := stand_in_externals) CRT _
           d_missing_down [up] down []).
  - intros k ->%list_elem_of_singleton. vm_compute; eauto.
  - reflexivity.
  - intros s ->%list_elem_of_singleton. vm_compute; eauto.
  - vm_compute; reflexivity.
Defined.

Lemma ZeroDivisionError_only_zero_tau_witness :
  ∃ tau,
    ({[ "constant_relaxation_time" := 0%float ]} : gmap string float)
      !! "constant_relaxation_time" = Some tau
    ∧ feqb tau (of_int 0) = true.
Proof.
  destruct (ZeroDivisionError_only_zero_tau (H0 := stand_in_externals) CRT
              {[ "constant_relaxation_time" := 0%float ]} d_example)
    as [_ Htau]; [vm_compute; reflexivity | exact Htau].
Defined.

Lemma failure_modes_witness :
  ∃ e, MeanFreePathScattering_init (H0 := stand_in_externals)
         {[ "mean_free_path" := 0%float ]} d_mismatched = Raise e
    ∧ lookup_error e = true.
Proof.
  destruct (failure_modes (H0 := stand_in_externals)) as (_ & Hmfp & _).
  eexists. split; [vm_compute; reflexivity |].
  apply (Hmfp {[ "mean_free_path" := 0%float ]} d_mismatched).
  vm_compute; reflexivity.
Defined.

Lemma d_variant_shaped sp vp dop temps ir full vb :
  sp = [up] →
  energies_shaped (λ _, 2) 3 (d_variant sp vp dop temps ir full vb)
  ∧ masses_shaped (λ _, 2) 3 (d_variant sp vp dop temps ir full vb)
  ∧ shape2 1 2 (fermi_levels (d_variant sp vp dop temps ir full vb))
  ∧ shape2 1 2 (electron_conc (d_variant sp vp dop temps ir full vb))
  ∧ shape2 1 2 (hole_conc (d_variant sp vp dop temps ir full vb)).
Proof.
  intros ->.
  destruct d_example_ok as (Hfl & Hec & Hhc & _ & _ & Hen & _ & Hm & _).
  split_and!; done.
Qed.

Lemma ir_kpoints_idx_out_of_range_witness :
  get_dos_effective_masses (H0 := stand_in_externals) d_ir_past_mesh
  = Raise IndexError
  ∧ MeanFreePathScattering_init (H0 := stand_in_externals)
      {[ "mean_free_path" := 10%float ]} d_ir_past_mesh = Raise IndexError.
Proof.
  destruct (d_variant_shaped [up] (velocities_product d_example)
              (doping d_example) (temperatures d_example) [0; 5] [0; 0; 1]
              {[ up := 0 ]} eq_refl) as (Hen & Hm & _).
  destruct d_example_ok as (_ & _ & _ & _ & _ & _ & Hvel & _).
  destruct (ir_kpoints_idx_out_of_range (H0 := stand_in_externals)
              d_ir_past_mesh (λ _, 2) 3 5 up [])
    as (Hdos & _ & Hmfp).
  - cbn. right. left.
  - lia.
  - reflexivity.
  - lia.
  - split; [by apply Hdos |].
    apply Hmfp; [vm_compute; eauto | done | exact Hvel].
Defined.

Lemma ir_to_full_kpoint_mapping_out_of_range_witness :
  MeanFreePathScattering_init (H0 := stand_in_externals)
    {[ "mean_free_path" := 10%float ]} d_mapping_past_ir = Raise IndexError.
Proof.
  destruct (d_variant_shaped [up] (velocities_product d_example)
              (doping d_example) (temperatures d_example) [0; 2] [0; 0; 2]
              {[ up := 0 ]} eq_refl) as (Hen & _).
  destruct d_example_ok as (_ & _ & _ & _ & _ & _ & Hvel & _).
  apply (ir_to_full_kpoint_mapping_out_of_range (H0 := stand_in_externals)
           _ d_mapping_past_ir (λ _, 2) 3 2 up []).
  - vm_compute; eauto.
  - done.
  - exact Hvel.
  - cbn. repeat constructor.
  - cbn. rewrite !elem_of_cons. auto.
  - cbn. lia.
  - reflexivity.
  - lia.
  - cbn. lia.
  - cbn. lia.
Defined.

Lemma BrooksHerring_log_line_IndexError_witness :
  BrooksHerringScattering_init (H0 := stand_in_externals) bh_props
    d_short_doping = Raise IndexError.
Proof.
  destruct (d_variant_shaped [up] (velocities_product d_example) []
              (temperatures d_example) [0; 2] [0; 0; 1] {[ up := 0 ]}
              eq_refl) as (Hen & _ & Hfl & Hec & Hhc).
  apply (BrooksHerring_log_line_IndexError (H0 := stand_in_externals)
           bh_props d_short_doping 1 2 1%float 1%float 10%float);
    try done; try (vm_compute; reflexivity); try (cbn; lia).
  - intros s ->%list_elem_of_singleton. vm_compute; eauto.
  - shaped.
Defined.

Lemma no_conduction_band_ValueError_witness :
  get_normalized_energies d_all_valence = Raise ValueError
  ∧ BrooksHerringScattering_init (H0 := stand_in_externals) bh_props
      d_all_valence = Raise ValueError.
Proof.
  destruct (d_variant_shaped [up] (velocities_product d_example)
              (doping d_example) (temperatures d_example) [0; 2] [0; 0; 1]
              {[ up := 1 ]} eq_refl) as (Hen & _ & Hfl & Hec & Hhc).
  destruct (no_conduction_band_ValueError (H0 := stand_in_externals)
              d_all_valence (λ _, 2) 3) as [Hne Hbh].
  - reflexivity.
  - done.
  - intros s ->%list_elem_of_singleton. vm_compute; eauto.
  - right. right. exists up, 1. split_and!; [by left | reflexivity | lia].
  - split; [done |].
    apply (Hbh bh_props 1 2 1%float 1%float 10%float); try done;
      try (vm_compute; reflexivity).
    shaped.
Defined.

Lemma MeanFreePathScattering_keeps_NaN_witness :
  ∃ self r x,
    MeanFreePathScattering_init (H0 := stand_in_externals)
      {[ "mean_free_path" := 10%float ]} d_negative_velocity = Ok self
    ∧ rates self !! up = Some r
    ∧ ix4 r 0 1 0 1 = Some x
    ∧ PrimFloat.is_nan x = true.
Proof.
  destruct (d_variant_shaped [up]
              (velocities_product d_negative_velocity)
              (doping d_example) (temperatures d_example) [0; 2] [0; 0; 1]
              {[ up := 0 ]} eq_refl) as (Hen & _).
  destruct (MeanFreePathScattering_keeps_NaN stand_in_externals
              {[ "mean_free_path" := 10%float ]} d_negative_velocity
              10%float (λ _, 2) 3 up
              [diag_block [0; 0; 0] [-1; 4; 0] [4; 9; 0] [4; 16; 0];
               diag_block [0; 0; 0] [1; 1; 1] [0; 0; 0] [0; 0; 0]]%float
              0 0 1) as (self & r & Hself & Hr & Hnan).
  - vm_compute; reflexivity.
  - done.
  - intros s ->%list_elem_of_singleton. eexists.
    split; [vm_compute; reflexivity |].
    split; [reflexivity |]. repeat constructor.
  - split_and!; cbn; repeat constructor.
  - by left.
  - vm_compute; reflexivity.
  - lia.
  - lia.
  - lia.
  - reflexivity.
  - destruct (Hnan 0 1) as (x & Hx & Hxn); [cbn; lia | cbn; lia |].
    by exists self, r, x.
Defined.

Lemma BrooksHerring_axes_mismatch_ValueError_witness :
  BrooksHerringScattering_init (H0 := stand_in_externals) bh_props
    d_long_temperatures = Raise ValueError.
Proof.
  destruct (d_variant_shaped [up] (velocities_product d_example)
              (doping d_example) [300; 400; 500]%float [0; 2] [0; 0; 1]
              {[ up := 0 ]} eq_refl) as (Hen & Hm & Hfl & Hec & Hhc).
  apply (BrooksHerring_axes_mismatch_ValueError (H0 := stand_in_externals)
           bh_props d_long_temperatures 1 2 (λ _, 2) 3 1%float 1%float
           10%float up []); try done; try (vm_compute; reflexivity);
    try (cbn; lia).
  - shaped.
  - cbn. repeat constructor.
  - intros _. split; [| lia]. split; [done |].
    intros s ->%list_elem_of_singleton. exists 0.
    split; [vm_compute; reflexivity | lia].
Defined.

Lemma BrooksHerring_square_OverflowError_witness :
  BrooksHerringScattering_init (H0 := stand_in_externals)
    {[ "acceptor_charge" := 1%float; "donor_charge" := 0x1p+600%float;
       "static_dielectric" := 10%float ]} d_example
  = Raise OverflowError
  ∧ BrooksHerringScattering_init (H0 := stand_in_externals)
      {[ "acceptor_charge" := 1%float; "donor_charge" := 1%float;
         "static_dielectric" := 0x1p+600%float ]} d_example
    = Raise OverflowError.
Proof.
  destruct d_example_ok as (Hfl & Hec & Hhc & _).
  assert (∀ s, s ∈ spins d_example → is_Some (energies d_example !! s))
    as Hen by (intros s ->%list_elem_of_singleton; vm_compute; eauto).
  assert (∀ eps, shape2 1 2
            (calculate_inverse_screening_length_sq
               (Externals := stand_in_externals) d_example eps)) as Hisl
    by (intros eps; shaped).
  split.
  - destruct (BrooksHerring_square_OverflowError (H0 := stand_in_externals)
                {[ "acceptor_charge" := 1%float;
                   "donor_charge" := 0x1p+600%float;
                   "static_dielectric" := 10%float ]}
                d_example 1 2 1%float 0x1p+600%float 10%float)
      as [Hsq _].
    + vm_compute; reflexivity.
    + vm_compute; reflexivity.
    + vm_compute; reflexivity.
    + exact Hen.
    + exact (Hisl _).
    + exact Hfl.
    + exact Hec.
    + exact Hhc.
    + apply Hsq; [lia | lia |]. left. vm_compute; reflexivity.
  - destruct (BrooksHerring_square_OverflowError (H0 := stand_in_externals)
                {[ "acceptor_charge" := 1%float;
                   "donor_charge" := 1%float;
                   "static_dielectric" := 0x1p+600%float ]}
                d_example 1 2 1%float 1%float 0x1p+600%float)
      as [_ Heps].
    + vm_compute; reflexivity.
    + vm_compute; reflexivity.
    + vm_compute; reflexivity.
    + exact Hen.
    + exact (Hisl _).
    + exact Hfl.
    + exact Hec.
    + exact Hhc.
    + apply (Heps (λ _, 2) 3); [exact d_example_ok | ..];
        vm_compute; reflexivity.
Defined.

Lemma OverflowError_only_squares_witness :
  ∃ k x, k ∈ required_properties IMP
    ∧ bh_props_large_donor !! k = Some x
    ∧ py_pow_overflows (H0 := stand_in_externals) x 2 = true.
Proof.
  destruct (OverflowError_only_squares (H0 := stand_in_externals) IMP
              bh_props_large_donor d_example) as [_ Hk];
    [vm_compute; reflexivity | exact Hk].
Defined.
